(** * resume_parser.py: a shallow embedding and its checked properties

    The extractors of [resume_parser.py] work on Python [str] values, on
    lists of lines and on a spaCy [Doc].  Text is modelled as ASCII text
    ([string], one [ascii] per character): case mapping acts on the
    letters A-Z / a-z and whitespace is the ASCII part of what
    [str.isspace] accepts.  Where a property depends on letter case
    outside ASCII, the extractor is also given over the methods of [str]
    themselves ([StrMethods]), a text outside ASCII being held as its
    UTF-8 bytes.  A [Doc] is modelled by the four views the
    extractors read: tokens, entity spans, sentence spans and noun chunks.
    Python dictionaries are [gmap]s keyed by strings.  The patterns given
    to [re.search] and [re.sub] by the contact and name extractors are
    matched by a backtracking matcher that lists the possible ends of a
    match in the order in which [re] tries them. *)

From Stdlib Require Import Ascii String.
From stdpp Require Import base list strings gmap fin_maps.

Local Open Scope string_scope.
Local Open Scope list_scope.

(** ** Python string primitives *)

Module PyStr.

(** [str.isspace] on one ASCII character: TAB, LF, VT, FF, CR, the four
    separators FS, GS, RS, US and the blank. *)
Definition isspace (c : ascii) : bool :=
  let n := nat_of_ascii c in
  (((9 <=? n) && (n <=? 13)) || ((28 <=? n) && (n <=? 32)))%nat.

Definition isupper (c : ascii) : bool :=
  let n := nat_of_ascii c in ((65 <=? n) && (n <=? 90))%nat.

Definition islower (c : ascii) : bool :=
  let n := nat_of_ascii c in ((97 <=? n) && (n <=? 122))%nat.

Definition isdigit (c : ascii) : bool :=
  let n := nat_of_ascii c in ((48 <=? n) && (n <=? 57))%nat.

Definition lower_char (c : ascii) : ascii :=
  if isupper c then ascii_of_nat (nat_of_ascii c + 32) else c.

Definition upper_char (c : ascii) : ascii :=
  if islower c then ascii_of_nat (nat_of_ascii c - 32) else c.

(** [s.lower()] *)
Fixpoint lower (s : string) : string :=
  match s with
  | EmptyString => EmptyString
  | String c s' => String (lower_char c) (lower s')
  end.

(** [s.capitalize()]: first character upper-cased, the rest lower-cased. *)
Definition capitalize (s : string) : string :=
  match s with
  | EmptyString => EmptyString
  | String c s' => String (upper_char c) (lower s')
  end.

(** [s.startswith(p)] *)
Fixpoint startswith (p s : string) : bool :=
  match p, s with
  | EmptyString, _ => true
  | String a p', String b s' => if Ascii.eqb a b then startswith p' s' else false
  | String _ _, EmptyString => false
  end.

(** [needle in s] *)
Fixpoint contains (needle s : string) : bool :=
  startswith needle s ||
  match s with
  | EmptyString => false
  | String _ s' => contains needle s'
  end.

(** [s.endswith(":")] and the like, for a one-character suffix. *)
Fixpoint endswith_char (c : ascii) (s : string) : bool :=
  match s with
  | EmptyString => false
  | String a EmptyString => Ascii.eqb a c
  | String _ s' => endswith_char c s'
  end.

Fixpoint lstrip (s : string) : string :=
  match s with
  | EmptyString => EmptyString
  | String c s' => if isspace c then lstrip s' else s
  end.

Fixpoint rstrip (s : string) : string :=
  match s with
  | EmptyString => EmptyString
  | String c s' =>
      match rstrip s' with
      | EmptyString => if isspace c then EmptyString else String c EmptyString
      | r => String c r
      end
  end.

(** [s.strip()] *)
Definition strip (s : string) : string := rstrip (lstrip s).

(** [s.split(sep)] for a one-character separator: never the empty list,
    [''.split(sep) == ['']]. *)
Fixpoint split (sep : ascii) (s : string) : list string :=
  match s with
  | EmptyString => [EmptyString]
  | String c s' =>
      if Ascii.eqb c sep then EmptyString :: split sep s'
      else match split sep s' with
           | [] => [String c EmptyString]
           | w :: ws => String c w :: ws
           end
  end.

(** [sep.join(l)] *)
Fixpoint join (sep : string) (l : list string) : string :=
  match l with
  | [] => EmptyString
  | [x] => x
  | x :: rest => x +:+ sep +:+ join sep rest
  end.

(** Truth value of a string: non-empty. *)
Definition truthy (s : string) : bool :=
  match s with EmptyString => false | String _ _ => true end.

Definition LF : ascii := ascii_of_nat 10.

(** The text whose lines are [l]. *)
Definition unlines (l : list string) : string := join (String LF EmptyString) l.

End PyStr.

Import PyStr.

(** ** [extract_section] (lines 261-284) *)

(** [any(stop_header.lower() in clean_line.lower() for stop_header in stop_headers)] *)
Definition is_stop_line (stop_headers : list string) (clean_line : string) : bool :=
  existsb (fun stop_header => contains (lower stop_header) (lower clean_line)) stop_headers.

(** The [for line in lines] loop; [in_section] and [section_content] are
    the loop's two variables, the result is [section_content] when the
    loop ends or breaks. *)
Fixpoint section_loop (section_header : string) (stop_headers : list string)
    (in_section : bool) (section_content : list string) (lines : list string)
    : list string :=
  match lines with
  | [] => section_content
  | line :: rest =>
      let clean_line := strip line in
      if contains (lower section_header) (lower clean_line) then
        section_loop section_header stop_headers true section_content rest
      else if in_section && is_stop_line stop_headers clean_line then
        section_content
      else if in_section then
        section_loop section_header stop_headers in_section
          (section_content ++ [clean_line]) rest
      else
        section_loop section_header stop_headers in_section section_content rest
  end.

Definition extract_section (text section_header : string) (stop_headers : list string)
    : list string :=
  let lines := split LF text in
  let section_content := section_loop section_header stop_headers false [] lines in
  filter (fun line => truthy line = true) section_content.

(** What the scanner asks of a stripped line before it keeps it: neither
    the header keyword nor a stop keyword occurs in it, letter case ignored. *)
Definition kept_line (section_header : string) (stop_headers : list string) (x : string)
    : Prop :=
  contains (lower section_header) (lower x) = false /\
  Forall (fun stop_header => contains (lower stop_header) (lower x) = false) stop_headers.

Definition extract_projects (text : string) : list string :=
  extract_section text "projects"
    ["publications"; "education"; "work experience"; "skills"; "certifications";
     "awards"; "interests"].

Definition extract_publications_and_conferences (text : string) : list string :=
  extract_section text "publications & conferences"
    ["projects"; "education"; "work experience"; "skills"; "certifications";
     "awards"; "interests"].

(** ** [extract_awards_and_certifications] (lines 226-258) *)

(** [re.sub(r'\([^)]*\)', '', line)]: every leftmost bracketed run, from an
    opening bracket up to the first closing bracket after it, is deleted;
    an opening bracket with no closing bracket after it stays.  [inside]
    says that the scan is within a run being deleted. *)
Fixpoint remove_parenthesized (inside : bool) (s : string) : string :=
  match s with
  | EmptyString => EmptyString
  | String c s' =>
      if inside then
        if Ascii.eqb c ")" then remove_parenthesized false s'
        else remove_parenthesized true s'
      else if Ascii.eqb c "(" && contains ")" s' then remove_parenthesized true s'
      else String c (remove_parenthesized false s')
  end.

Definition awards_section_keywords : list string :=
  ["award"; "certification"; "certificate"; "achievement"].

(** [clean_line and clean_line[0].isupper() and clean_line.endswith(':')],
    the test of line 248 on the stripped, lower-cased line. *)
Definition awards_exit_test (clean_line : string) : bool :=
  match clean_line with
  | EmptyString => false
  | String c0 _ => isupper c0 && endswith_char ":" clean_line
  end.

Fixpoint awards_loop (in_section : bool) (awards_and_certs : list string)
    (lines : list string) : list string :=
  match lines with
  | [] => awards_and_certs
  | line :: rest =>
      let clean_line := lower (strip line) in
      if existsb (fun keyword => contains keyword clean_line) awards_section_keywords then
        awards_loop true awards_and_certs rest
      else
        let in_section :=
          if in_section && awards_exit_test clean_line then false else in_section in
        if in_section && truthy clean_line then
          let line_without_date := strip (remove_parenthesized false line) in
          if truthy line_without_date then
            awards_loop in_section (awards_and_certs ++ [line_without_date]) rest
          else awards_loop in_section awards_and_certs rest
        else awards_loop in_section awards_and_certs rest
  end.

Definition extract_awards_and_certifications (text : string) : list string :=
  awards_loop false [] (split LF text).

(** ** The annotated document *)

(** A token of the [Doc]: its text and the two flags the extractors read. *)
Record Token := mkToken { tok_text : string; is_stop : bool; is_space : bool }.

(** A span of the [Doc] (entity, sentence or noun chunk): its text, its
    label and its token offsets [start] and [end]. *)
Record Span := mkSpan { text : string; label_ : string; start : nat; end_ : nat }.

Record Doc := mkDoc {
  tokens : list Token;
  ents : list Span;
  sents : list Span;
  noun_chunks : list Span
}.

(** ** [extract_summary] (lines 64-99) *)

Definition summary_keywords : list string :=
  ["summary"; "objective"; "profile"; "about me"].

Fixpoint summary_loop (in_summary : bool) (summary : list string) (sentences : list Span)
    : list string :=
  match sentences with
  | [] => summary
  | sent :: rest =>
      let clean_sent := lower (strip (text sent)) in
      if existsb (fun keyword => contains keyword clean_sent) summary_keywords then
        summary_loop true (summary ++ [strip (text sent)]) rest
      else if in_summary then
        if contains "experience" clean_sent then summary
        else summary_loop in_summary (summary ++ [strip (text sent)]) rest
      else summary_loop in_summary summary rest
  end.

Definition extract_summary (doc : Doc) : string :=
  strip (join " " (summary_loop false [] (sents doc))).

(** ** [extract_skills] (lines 102-112) *)

(** [x in l] for a list of strings. *)
Definition str_in (x : string) (l : list string) : bool :=
  existsb (String.eqb x) l.

Definition skill_tokens (doc : Doc) : list string :=
  (fun token => lower (tok_text token)) <$>
    filter (fun token => is_stop token = false) (tokens doc).

Definition skill_noun_chunks (doc : Doc) : list string :=
  (fun chunk => lower (text chunk)) <$> noun_chunks doc.

(** The test of line 109. *)
Definition skill_matches (doc : Doc) (skill : string) : bool :=
  str_in (lower skill) (skill_tokens doc) || str_in (lower skill) (skill_noun_chunks doc).

(** The list [skills] built by the loop of lines 108-110. *)
Definition collected_skills (doc : Doc) (skill_list : list string) : list string :=
  capitalize <$> filter (fun skill => skill_matches doc skill = true) skill_list.

(** [list(set(skills))]: the elements of the set, each once, in the order
    of the set's own enumeration (Python leaves that order open). *)
Definition extract_skills (doc : Doc) (skill_list : list string) : list string :=
  elements (list_to_set (C := gset string) (collected_skills doc skill_list)).

(** ** [extract_work_experience] (lines 120-141) *)

(** [not d.get(k)]: the key is absent or bound to the empty string. *)
Definition get_falsy (d : gmap string string) (k : string) : bool :=
  match d !! k with
  | Some v => negb (truthy v)
  | None => true
  end.

(** The inner [for sent in doc.sents] loop with its [break]. *)
Definition next_sentence (doc : Doc) (ent : Span) : option Span :=
  find (fun sent => (end_ ent <? start sent)%nat) (sents doc).

(** One pass of the [for ent in doc.ents] body on [(experience, current_job)]. *)
Definition work_step (doc : Doc)
    (st : list (gmap string string) * gmap string string) (ent : Span)
    : list (gmap string string) * gmap string string :=
  let '(experience, current_job) := st in
  let current_job :=
    if String.eqb (label_ ent) "ORG" && get_falsy current_job "company" then
      <["company" := text ent]> current_job
    else if String.eqb (label_ ent) "DATE" && get_falsy current_job "dates" then
      <["dates" := text ent]> current_job
    else current_job in
  if (size current_job =? 2)%nat then
    let current_job :=
      match next_sentence doc ent with
      | Some sent => <["job_title" := strip (text sent)]> current_job
      | None => current_job
      end in
    (experience ++ [current_job], ∅)
  else (experience, current_job).

Definition work_loop (doc : Doc) (entities : list Span)
    (st : list (gmap string string) * gmap string string)
    : list (gmap string string) * gmap string string :=
  fold_left (work_step doc) entities st.

Definition extract_work_experience (doc : Doc) : list (gmap string string) :=
  fst (work_loop doc (ents doc) ([], ∅)).

(** ** [extract_education] (lines 144-224) *)

(** The values an education entry binds: a string, or the list of strings
    under ["additional_info"]. *)
Inductive pyval :=
  | VStr (s : string)
  | VList (l : list string).

Inductive exn :=
  | ValueError (msg : string)
  | AttributeError (msg : string).

(** A call either returns a value or raises. *)
Inductive result (A : Type) :=
  | Ok (a : A)
  | Raise (e : exn).
Arguments Ok {A} a.
Arguments Raise {A} e.

Definition bind {A B : Type} (r : result A) (f : A -> result B) : result B :=
  match r with
  | Ok a => f a
  | Raise e => Raise e
  end.

(** What a caller can pass as [input_data]: a [Doc], a [str], or a value
    of any other type. *)
Inductive edu_input :=
  | InDoc (doc : Doc)
  | InStr (s : string)
  | InOther.

Definition education_section_keywords : list string :=
  ["education"; "academic background"; "academic history"].

Definition education_end_keywords : list string :=
  ["experience"; "skills"; "projects"].

(** The alternatives of the pattern of line 190, in its order. *)
Definition degree_alternatives : list string :=
  ["bachelor"; "master"; "phd"; "doctorate"; "bs"; "ba"; "ms"; "ma"; "mba"; "md"; "jd";
   "b.s."; "m.s."].

(** [re.match(degree pattern, clean_line, re.IGNORECASE)] as a truth value:
    some alternative is a prefix of the line, letter case ignored. *)
Definition degree_match (clean_line : string) : bool :=
  existsb (fun alt => startswith alt (lower clean_line)) degree_alternatives.

(** [\d{n}] at the head of [s]: the digits and what follows them. *)
Fixpoint take_digits (n : nat) (s : string) : option (string * string) :=
  match n with
  | O => Some (EmptyString, s)
  | S n' =>
      match s with
      | String c s' =>
          if isdigit c then
            match take_digits n' s' with
            | Some (d, r) => Some (String c d, r)
            | None => None
            end
          else None
      | EmptyString => None
      end
  end.

(** [\s*] at the head of [s]; what follows it in the pattern is never a
    space, so the longest run is the only one that can match. *)
Fixpoint take_spaces (s : string) : string * string :=
  match s with
  | String c s' =>
      if isspace c then let '(w, r) := take_spaces s' in (String c w, r)
      else (EmptyString, s)
  | EmptyString => (EmptyString, EmptyString)
  end.

(** A lower-case literal at the head of [s], letter case ignored: the
    text matched, as it is spelled in [s], and what follows. *)
Fixpoint take_literal_ci (lit s : string) : option (string * string) :=
  match lit, s with
  | EmptyString, _ => Some (EmptyString, s)
  | String a lit', String b s' =>
      if Ascii.eqb a (lower_char b) then
        match take_literal_ci lit' s' with
        | Some (m, r) => Some (String b m, r)
        | None => None
        end
      else None
  | String _ _, EmptyString => None
  end.

(** The pattern of line 209 matched at the head of [s]:
    [\d{4}\s*-\s*\d{4}], or else [\d{4}\s*-\s*(present|current)]. *)
Definition date_match_here (s : string) : option string :=
  match take_digits 4 s with
  | Some (d1, r) =>
      let '(w1, r1) := take_spaces r in
      match r1 with
      | String c r2 =>
          if Ascii.eqb c "-" then
            let '(w2, r3) := take_spaces r2 in
            let pre := d1 +:+ w1 +:+ "-" +:+ w2 in
            match take_digits 4 r3 with
            | Some (d2, _) => Some (pre +:+ d2)
            | None =>
                match take_literal_ci "present" r3 with
                | Some (m, _) => Some (pre +:+ m)
                | None =>
                    match take_literal_ci "current" r3 with
                    | Some (m, _) => Some (pre +:+ m)
                    | None => None
                    end
                end
            end
          else None
      | EmptyString => None
      end
  | None => None
  end.

(** [re.search(date pattern, line, re.IGNORECASE)]: the leftmost match, as
    [date_match.group()]. *)
Fixpoint date_search (line : string) : option string :=
  match date_match_here line with
  | Some m => Some m
  | None =>
      match line with
      | EmptyString => None
      | String _ line' => date_search line'
      end
  end.

Record edu_state := mkEdu {
  in_section : bool;
  education : list (gmap string pyval);
  current_edu : gmap string pyval
}.

(** Truth value of a dictionary: it has a key. *)
Definition dict_truthy {V : Type} (d : gmap string V) : bool :=
  negb (size d =? 0)%nat.

(** [if current_edu: education.append(current_edu); current_edu = {}] *)
Definition flush (education : list (gmap string pyval)) (current_edu : gmap string pyval)
    : list (gmap string pyval) * gmap string pyval :=
  if dict_truthy current_edu then (education ++ [current_edu], ∅)
  else (education, current_edu).

Definition has_key (k : string) (d : gmap string pyval) : bool :=
  match d !! k with Some _ => true | None => false end.

(** Lines 215-218; [.append] on a value that is no list raises. *)
Definition add_additional_info (line : string) (current_edu : gmap string pyval)
    : result (gmap string pyval) :=
  match current_edu !! "additional_info" with
  | None => Ok (<["additional_info" := VList [line]]> current_edu)
  | Some (VList l) => Ok (<["additional_info" := VList (l ++ [line])]> current_edu)
  | Some (VStr _) => Raise (AttributeError "'str' object has no attribute 'append'")
  end.

(** The body of [for i, line in enumerate(lines)] (lines 172-218). *)
Definition edu_step (lines : list string) (i : nat) (line : string) (st : edu_state)
    : result edu_state :=
  let clean_line := lower line in
  if existsb (fun keyword => contains keyword clean_line) education_section_keywords then
    Ok (mkEdu true (education st) (current_edu st))
  else if in_section st &&
          existsb (fun keyword => contains keyword clean_line) education_end_keywords then
    let '(education, current_edu) := flush (education st) (current_edu st) in
    Ok (mkEdu false education current_edu)
  else if in_section st then
    if degree_match clean_line then
      let '(education, current_edu) := flush (education st) (current_edu st) in
      let degree :=
        match lines !! (i + 1)%nat with
        | Some next => line +:+ " " +:+ next
        | None => line
        end in
      Ok (mkEdu true education (<["degree" := VStr degree]> current_edu))
    else if negb (has_key "institution" (current_edu st))
            && has_key "degree" (current_edu st) then
      Ok (mkEdu true (education st) (<["institution" := VStr line]> (current_edu st)))
    else if negb (has_key "location" (current_edu st))
            && has_key "institution" (current_edu st) then
      Ok (mkEdu true (education st) (<["location" := VStr line]> (current_edu st)))
    else
      match date_search line with
      | Some m =>
          if negb (has_key "dates" (current_edu st)) then
            Ok (mkEdu true (education st) (<["dates" := VStr m]> (current_edu st)))
          else
            bind (add_additional_info line (current_edu st))
                 (fun current_edu => Ok (mkEdu true (education st) current_edu))
      | None =>
          bind (add_additional_info line (current_edu st))
               (fun current_edu => Ok (mkEdu true (education st) current_edu))
      end
  else Ok st.

(** The loop over [enumerate(lines)]: [todo] is what is left of [lines]
    from index [i] on. *)
Fixpoint edu_loop (lines : list string) (i : nat) (todo : list string) (st : edu_state)
    : result edu_state :=
  match todo with
  | [] => Ok st
  | line :: todo' => bind (edu_step lines i line st) (edu_loop lines (S i) todo')
  end.

(** Lines 165-224, once [lines] is known. *)
Definition extract_education_lines (lines : list string) : result (list (gmap string pyval)) :=
  bind (edu_loop lines 0 lines (mkEdu false [] ∅))
       (fun st => Ok (fst (flush (education st) (current_edu st)))).

(** Lines 158-163: the lines of the input, by its type. *)
Definition education_lines (input_data : edu_input) : result (list string) :=
  match input_data with
  | InDoc doc =>
      Ok (tok_text <$> filter (fun token => is_space token = false) (tokens doc))
  | InStr s =>
      Ok (strip <$> filter (fun line => truthy (strip line) = true) (split LF s))
  | InOther => Raise (ValueError "Input must be either a spaCy Doc object or a string")
  end.

Definition extract_education (input_data : edu_input) : result (list (gmap string pyval)) :=
  bind (education_lines input_data) extract_education_lines.

(** The accumulator never binds ["additional_info"] to a string. *)
Definition info_is_list (d : gmap string pyval) : Prop :=
  forall s : string, d !! "additional_info" <> Some (VStr s).

(** A line that does not open the education section. *)
Definition not_education_header (line : string) : Prop :=
  existsb (fun keyword => contains keyword (lower line)) education_section_keywords = false.




(** ** Documents used as examples *)

(** A sentence span: sentences carry no label. *)
Definition sentence (t : string) (start end_ : nat) : Span := mkSpan t EmptyString start end_.

(** An employer and a period, then the sentence with the job title. *)
Definition acme_doc : Doc :=
  mkDoc [] [mkSpan "Acme Corp" "ORG" 0 2; mkSpan "2019-2021" "DATE" 3 4]
        [sentence "Acme Corp, 2019-2021." 0 5; sentence "Software Engineer " 5 7] [].


Definition profile_doc : Doc :=
  mkDoc [] []
        [sentence "Profile: driven engineer." 0 4; sentence "Loves Python." 4 7;
         sentence "Experience: five years in industry." 7 14] [].

Definition no_summary_doc : Doc :=
  mkDoc [] [] [sentence "Jane Doe." 0 3; sentence "Five years of experience." 3 8] [].

Definition javascript_doc : Doc :=
  mkDoc [mkToken "JavaScript" false false; mkToken "and" true false;
         mkToken "MATLAB" false false] [] [] [].

(** ** List helpers used to state what the scanning loops compute *)

(** What follows the first element of [l] that satisfies [p]; nothing
    when there is none. *)
Fixpoint after_first {A : Type} (p : A -> bool) (l : list A) : list A :=
  match l with
  | [] => []
  | x :: l' => if p x then l' else after_first p l'
  end.

(** What precedes the first element of [l] that satisfies [p]; all of
    [l] when there is none. *)
Fixpoint before_first {A : Type} (p : A -> bool) (l : list A) : list A :=
  match l with
  | [] => []
  | x :: l' => if p x then [] else x :: before_first p l'
  end.

(** The header test of line 271 on a raw line. *)
Definition is_header_line (section_header : string) (line : string) : bool :=
  contains (lower section_header) (lower (strip line)).

(** The [break] test of line 276 on a raw line that is inside the section:
    the header test of line 271 has failed before. *)
Definition is_break_line (section_header : string) (stop_headers : list string)
    (line : string) : bool :=
  negb (is_header_line section_header line) && is_stop_line stop_headers (strip line).

(** The header test of line 243 on a raw line. *)
Definition is_awards_keyword_line (line : string) : bool :=
  existsb (fun keyword => contains keyword (lower (strip line))) awards_section_keywords.

(** What lines 252-256 make of a raw line inside the section that is no
    keyword line: its text without the bracketed parts, stripped, unless
    the line or that text is blank. *)
Definition awards_keep (line : string) : option string :=
  if is_awards_keyword_line line then None
  else if truthy (lower (strip line)) then
    let line_without_date := strip (remove_parenthesized false line) in
    if truthy line_without_date then Some line_without_date else None
  else None.

(** An opening bracket with a closing bracket somewhere after it. *)
Fixpoint has_parenthesized (s : string) : bool :=
  match s with
  | EmptyString => false
  | String c s' => (Ascii.eqb c "(" && contains ")" s') || has_parenthesized s'
  end.

(** The part of [l] from its first element that satisfies [p] on, that
    element included; nothing when there is none. *)
Fixpoint from_first {A : Type} (p : A -> bool) (l : list A) : list A :=
  match l with
  | [] => []
  | x :: l' => if p x then l else from_first p l'
  end.

(** The trigger test of line 86 on a sentence. *)
Definition is_summary_trigger (sent : Span) : bool :=
  existsb (fun keyword => contains keyword (lower (strip (text sent)))) summary_keywords.

(** The [break] test of line 93 on a sentence inside the summary: the
    trigger test of line 86 has failed before. *)
Definition is_summary_end (sent : Span) : bool :=
  negb (is_summary_trigger sent) && contains "experience" (lower (strip (text sent))).

(** The document with its ORG and DATE entities only. *)
Definition org_date_only (doc : Doc) : Doc :=
  mkDoc (tokens doc)
        (filter (fun ent => label_ ent = "ORG" \/ label_ ent = "DATE") (ents doc))
        (sents doc) (noun_chunks doc).

(** The accumulator between two entities holds at most one of the two
    fields. *)
Definition one_field (d : gmap string string) : Prop :=
  d = ∅ \/ (exists c, d = {[ "company" := c ]}) \/ (exists t, d = {[ "dates" := t ]}).

(** 1 when the key is bound, 0 otherwise. *)
Definition bound (k : string) (d : gmap string string) : nat :=
  match d !! k with Some _ => 1 | None => 0 end.

(** The number of entities of a label. *)
Definition count_label (l : string) (entities : list Span) : nat :=
  length (filter (fun ent => label_ ent = l) entities).

(** What an education entry may bind a key to: one of the four text
    fields to a string, ["additional_info"] to a non-empty list. *)
Definition field_ok (k : string) (v : pyval) : Prop :=
  ((k = "degree" \/ k = "institution" \/ k = "location" \/ k = "dates")
   /\ exists s, v = VStr s)
  \/ (k = "additional_info" /\ exists l, v = VList l /\ l <> []).

Definition fields_ok (d : gmap string pyval) : Prop :=
  forall k v, d !! k = Some v -> field_ok k v.

(** The fields are filled in order: no institution without a degree, no
    location without an institution. *)
Definition order_ok (d : gmap string pyval) : Prop :=
  (has_key "institution" d = true -> has_key "degree" d = true)
  /\ (has_key "location" d = true -> has_key "institution" d = true).

(** The condition of lines 175 and 180 under which a line inside the
    section goes on to the field tests. *)
Definition is_plain_line (line : string) : Prop :=
  not_education_header line
  /\ existsb (fun keyword => contains keyword (lower line)) education_end_keywords = false.

(** The state between two lines: accumulator and entries are well formed,
    and no entry is empty. *)
Definition edu_inv (st : edu_state) : Prop :=
  fields_ok (current_edu st) /\ order_ok (current_edu st)
  /\ Forall (fun e => e <> ∅ /\ fields_ok e /\ order_ok e) (education st).

(** ** Regular expressions, as [re] matches them *)

(** The patterns of the program: literal characters, character classes,
    concatenation, alternation, [r?], and the greedy repetitions [[class]*]
    and [[class]{n}] of a character class, and [\b].  [[class]+] is
    [[class][class]*] and [[class]{n,}] is [[class]{n}[class]*]. *)
Inductive regex :=
  | Eps
  | Chr (c : ascii)
  | Cls (p : ascii -> bool)
  | Cat (r1 r2 : regex)
  | Alt (r1 r2 : regex)
  | Opt (r : regex)
  | Many (p : ascii -> bool)
  | Rep (n : nat) (p : ascii -> bool)
  | WordBoundary.

Definition one_or_more (p : ascii -> bool) : regex := Cat (Cls p) (Many p).

Definition at_least (n : nat) (p : ascii -> bool) : regex := Cat (Rep n p) (Many p).

(** A string of literal characters. *)
Fixpoint literal (s : string) : regex :=
  match s with
  | EmptyString => Eps
  | String c s' => Cat (Chr c) (literal s')
  end.

(** [\w], [\d], [\s] and [\S] on ASCII text. *)
Definition is_word (c : ascii) : bool :=
  isupper c || islower c || isdigit c || Ascii.eqb c "_".

Definition is_nonspace (c : ascii) : bool := negb (isspace c).

(** A literal character against a character of the text; [ic] is
    [re.IGNORECASE]. *)
Definition chr_matches (ic : bool) (c a : ascii) : bool :=
  if ic then Ascii.eqb (lower_char c) (lower_char a) else Ascii.eqb c a.

(** A character class against a character of the text; under
    [re.IGNORECASE] the character matches when one of its two cases is in
    the class. *)
Definition cls_matches (ic : bool) (p : ascii -> bool) (a : ascii) : bool :=
  if ic then p a || p (lower_char a) || p (upper_char a) else p a.

(** A position in the text: the character before it, if any, and the
    text from it on. *)
Definition position : Type := option ascii * string.

Definition at_word_boundary (pos : position) : bool :=
  let before := match pos.1 with Some c => is_word c | None => false end in
  let after := match pos.2 with String c _ => is_word c | EmptyString => false end in
  xorb before after.

(** [[class]*] from a position: the positions where it can end, the
    longest run first. *)
Fixpoint many_from (ic : bool) (p : ascii -> bool) (before : option ascii) (s : string)
    : list position :=
  match s with
  | String a s' =>
      if cls_matches ic p a then many_from ic p (Some a) s' ++ [(before, s)]
      else [(before, s)]
  | EmptyString => [(before, s)]
  end.

(** [[class]{n}] from a position. *)
Fixpoint rep_from (ic : bool) (n : nat) (p : ascii -> bool) (before : option ascii)
    (s : string) : list position :=
  match n with
  | O => [(before, s)]
  | S n' =>
      match s with
      | String a s' => if cls_matches ic p a then rep_from ic n' p (Some a) s' else []
      | EmptyString => []
      end
  end.

(** The positions where a match of [r] that starts at [pos] can end, in
    the order in which backtracking tries them: the first one is the match
    that [re] reports. *)
Fixpoint matches_from (ic : bool) (r : regex) (pos : position) : list position :=
  match r with
  | Eps => [pos]
  | Chr c =>
      match pos.2 with
      | String a s' => if chr_matches ic c a then [(Some a, s')] else []
      | EmptyString => []
      end
  | Cls p =>
      match pos.2 with
      | String a s' => if cls_matches ic p a then [(Some a, s')] else []
      | EmptyString => []
      end
  | Cat r1 r2 => flat_map (matches_from ic r2) (matches_from ic r1 pos)
  | Alt r1 r2 => matches_from ic r1 pos ++ matches_from ic r2 pos
  | Opt r' => matches_from ic r' pos ++ [pos]
  | Many p => many_from ic p pos.1 pos.2
  | Rep n p => rep_from ic n p pos.1 pos.2
  | WordBoundary => if at_word_boundary pos then [pos] else []
  end.

(** The first [n] characters of [s]. *)
Fixpoint take_chars (n : nat) (s : string) : string :=
  match n, s with
  | S n', String c s' => String c (take_chars n' s')
  | _, _ => EmptyString
  end.

(** The text matched when a match that starts at [s] ends at [rest]. *)
Definition matched_text (s rest : string) : string :=
  take_chars (String.length s - String.length rest) s.

(** [re.search(r, text)]: the match at the leftmost position that has
    one, as [m.group()]. *)
Fixpoint search_from (ic : bool) (r : regex) (before : option ascii) (s : string)
    : option string :=
  match matches_from ic r (before, s) with
  | (_, rest) :: _ => Some (matched_text s rest)
  | [] =>
      match s with
      | String a s' => search_from ic r (Some a) s'
      | EmptyString => None
      end
  end.

Definition re_search (ic : bool) (r : regex) (text : string) : option string :=
  search_from ic r None text.

(** [re.sub(r, '', text)]: the leftmost matches, one after the other, are
    deleted; [skip] counts the characters of the current match that are
    still to delete. *)
Fixpoint sub_from (ic : bool) (r : regex) (skip : nat) (before : option ascii) (s : string)
    : string :=
  match s with
  | EmptyString => EmptyString
  | String a s' =>
      match skip with
      | S k => sub_from ic r k (Some a) s'
      | O =>
          match matches_from ic r (before, s) with
          | (_, rest) :: _ =>
              match String.length s - String.length rest with
              | S k => sub_from ic r k (Some a) s'
              | O => String a (sub_from ic r 0 (Some a) s')
              end
          | [] => String a (sub_from ic r 0 (Some a) s')
          end
      end
  end.

Definition re_sub_delete (ic : bool) (r : regex) (text : string) : string :=
  sub_from ic r 0 None text.

(** ** [extract_contact_info] (lines 32-61) *)

Definition in_chars (chars : string) (c : ascii) : bool :=
  existsb (Ascii.eqb c) (list_ascii_of_string chars).

Definition is_alnum (c : ascii) : bool := isupper c || islower c || isdigit c.

(** [\b[A-Za-z0-9._%+-]+@[A-Za-z0-9.-]+\.[A-Z|a-z]{2,}\b] *)
Definition email_re : regex :=
  Cat WordBoundary
    (Cat (one_or_more (fun c => is_alnum c || in_chars "._%+-" c))
       (Cat (Chr "@")
          (Cat (one_or_more (fun c => is_alnum c || in_chars ".-" c))
             (Cat (Chr ".")
                (Cat (at_least 2 (fun c => isupper c || islower c || Ascii.eqb c "|"))
                   WordBoundary))))).

(** [\(?\d{3}\)?[-.\s]?\d{3}[-.\s]?\d{4}] *)
Definition phone_re : regex :=
  Cat (Opt (Chr "("))
    (Cat (Rep 3 isdigit)
       (Cat (Opt (Chr ")"))
          (Cat (Opt (Cls (fun c => in_chars "-." c || isspace c)))
             (Cat (Rep 3 isdigit)
                (Cat (Opt (Cls (fun c => in_chars "-." c || isspace c)))
                   (Rep 4 isdigit)))))).

(** [linkedin\.com/in/[\w-]+] *)
Definition linkedin_re : regex :=
  Cat (literal "linkedin.com/in/") (one_or_more (fun c => is_word c || Ascii.eqb c "-")).

(** [medium\.com/@[\w.-]+] *)
Definition medium_re : regex :=
  Cat (literal "medium.com/@") (one_or_more (fun c => is_word c || in_chars ".-" c)).

(** [(?:github\.com/|github: )[\w-]+] *)
Definition github_re : regex :=
  Cat (Alt (literal "github.com/") (literal "github: "))
      (one_or_more (fun c => is_word c || Ascii.eqb c "-")).

(** [l[-1]] for a list of strings that is never empty. *)
Definition last_item (l : list string) : string :=
  match last l with Some x => x | None => EmptyString end.

(** [contact_info[key] = value] when there is a match. *)
Definition set_if_match (key : string) (m : option string) (contact_info : gmap string string)
    : gmap string string :=
  match m with
  | Some value => <[key := value]> contact_info
  | None => contact_info
  end.

Definition extract_contact_info (text : string) : gmap string string :=
  let contact_info := ∅ in
  let contact_info := set_if_match "email" (re_search false email_re text) contact_info in
  let contact_info := set_if_match "phone" (re_search false phone_re text) contact_info in
  let contact_info :=
    set_if_match "linkedin" (re_search false linkedin_re text) contact_info in
  let contact_info := set_if_match "medium" (re_search true medium_re text) contact_info in
  let contact_info :=
    set_if_match "github"
      ((fun m => strip (last_item (split "/" m))) <$> re_search true github_re text)
      contact_info in
  contact_info.

(** ** [extract_full_name] (lines 21-29) *)

(** [\S+@\S+] *)
Definition email_like_re : regex :=
  Cat (one_or_more is_nonspace) (Cat (Chr "@") (one_or_more is_nonspace)).

(** The word being read at the head of [s], and the words after it. *)
Fixpoint words_from (s : string) : string * list string :=
  match s with
  | EmptyString => (EmptyString, [])
  | String c s' =>
      let '(w, ws) := words_from s' in
      if isspace c then (EmptyString, if truthy w then w :: ws else ws)
      else (String c w, ws)
  end.

(** [s.split()]: the words of [s], separated by runs of whitespace. *)
Definition words (s : string) : list string :=
  let '(w, ws) := words_from s in if truthy w then w :: ws else ws.

Definition extract_full_name (doc : Doc) : string :=
  match find (fun ent => String.eqb (label_ ent) "PERSON") (ents doc) with
  | Some ent =>
      let name_without_email := re_sub_delete false email_like_re (text ent) in
      join " " (words name_without_email)
  | None => "Unknown"
  end.

(** The strings a pattern can match, whatever surrounds them ([\b]
    matches the empty string here). *)
Inductive lang (ic : bool) : regex -> string -> Prop :=
  | lang_eps : lang ic Eps EmptyString
  | lang_chr c a : chr_matches ic c a = true -> lang ic (Chr c) (String a EmptyString)
  | lang_cls p a : cls_matches ic p a = true -> lang ic (Cls p) (String a EmptyString)
  | lang_cat r1 r2 w1 w2 :
      lang ic r1 w1 -> lang ic r2 w2 -> lang ic (Cat r1 r2) (w1 +:+ w2)
  | lang_alt_l r1 r2 w : lang ic r1 w -> lang ic (Alt r1 r2) w
  | lang_alt_r r1 r2 w : lang ic r2 w -> lang ic (Alt r1 r2) w
  | lang_opt_some r w : lang ic r w -> lang ic (Opt r) w
  | lang_opt_none r : lang ic (Opt r) EmptyString
  | lang_many p w :
      forallb (cls_matches ic p) (list_ascii_of_string w) = true -> lang ic (Many p) w
  | lang_rep n p w :
      String.length w = n ->
      forallb (cls_matches ic p) (list_ascii_of_string w) = true -> lang ic (Rep n p) w
  | lang_word_boundary : lang ic WordBoundary EmptyString.

(** The number of decimal digits in a string. *)
Fixpoint count_digits (s : string) : nat :=
  match s with
  | EmptyString => 0
  | String c s' => (if isdigit c then 1 else 0) + count_digits s'
  end.

(** Every character of a string satisfies [p]. *)
Fixpoint all_chars (p : ascii -> bool) (s : string) : bool :=
  match s with
  | EmptyString => true
  | String c s' => p c && all_chars p s'
  end.

(** The class [[\w-]] of the linkedin and github handles. *)
Definition is_handle_char (c : ascii) : bool := is_word c || Ascii.eqb c "-".

(** ** [parse_resume_pdf] (lines 297-338) *)

(** The dictionary [result], one field per key. *)
Record ResumeRecord := mkResume {
  full_name : string;
  contact_info : gmap string string;
  summary : string;
  skills : list string;
  work_experience : list (gmap string string);
  education_entries : list (gmap string pyval);
  certifications : list string;
  projects : list string
}.

(** Lines 329-338, given what lines 309-327 obtain from outside: the
    text of the PDF, the document [nlp(text)] and the skill list read from
    the CSV file. The education extractor is the one call that can raise. *)
Definition parse_resume (text : string) (doc : Doc) (skills_list : list string)
    : result ResumeRecord :=
  let full_name := extract_full_name doc in
  let contact_info := extract_contact_info text in
  let summary := extract_summary doc in
  let skills := extract_skills doc skills_list in
  let work_experience := extract_work_experience doc in
  bind (extract_education (InDoc doc)) (fun education =>
    let certifications := extract_awards_and_certifications text in
    let projects := extract_projects text in
    Ok (mkResume full_name contact_info summary skills work_experience education
                 certifications projects)).

(** An @ in [s] with at least one character after it. *)
Fixpoint has_inner_at (s : string) : bool :=
  match s with
  | EmptyString => false
  | String a s' => (Ascii.eqb a "@" && truthy s') || has_inner_at s'
  end.

(** A word with an @ that has a character before it and one after it. *)
Definition is_email_like (w : string) : bool :=
  match w with
  | EmptyString => false
  | String _ w' => has_inner_at w'
  end.

(** The run of non-space characters at the head of [s], and what
    follows it. *)
Fixpoint head_word (s : string) : string :=
  match s with
  | String a s' => if is_nonspace a then String a (head_word s') else EmptyString
  | EmptyString => EmptyString
  end.

Fixpoint after_word (s : string) : string :=
  match s with
  | String a s' => if is_nonspace a then after_word s' else s
  | EmptyString => EmptyString
  end.

(** [s] is empty or begins with a whitespace character. *)
Definition at_gap (s : string) : bool :=
  match s with
  | String a _ => isspace a
  | EmptyString => true
  end.

(** Where the value of a field comes from: a line of the input, two
    consecutive-looking lines joined by a blank for the degree, the match of
    the date pattern in a line for the dates, lines of the input for the
    additional information. *)
Definition field_from (lines : list string) (k : string) (v : pyval) : Prop :=
  (k = "degree"
   /\ exists line, line ∈ lines
        /\ (v = VStr line \/ exists next, next ∈ lines /\ v = VStr (line +:+ " " +:+ next)))
  \/ ((k = "institution" \/ k = "location") /\ exists line, line ∈ lines /\ v = VStr line)
  \/ (k = "dates"
      /\ exists line m, line ∈ lines /\ date_search line = Some m /\ v = VStr m)
  \/ (k = "additional_info" /\ exists l, v = VList l /\ Forall (fun x => x ∈ lines) l).

Definition fields_from (lines : list string) (d : gmap string pyval) : Prop :=
  forall k v, d !! k = Some v -> field_from lines k v.

(** The form of a match of the date pattern: four digits, whitespace, a
    hyphen, whitespace, and four digits or the word present or current in
    any letter case. *)
Definition date_shape (m : string) : Prop :=
  exists y1 w1 w2 y2,
    m = y1 +:+ w1 +:+ "-" +:+ w2 +:+ y2
    /\ String.length y1 = 4 /\ all_chars isdigit y1 = true
    /\ all_chars isspace w1 = true /\ all_chars isspace w2 = true
    /\ ((String.length y2 = 4 /\ all_chars isdigit y2 = true)
        \/ lower y2 = "present" \/ lower y2 = "current").

(** ** Letter case outside ASCII *)

(** A text with characters outside ASCII is held as its UTF-8 bytes; a
    string is ASCII when each of its bytes is below 128.  On ASCII text
    the functions of [PyStr] are those of [str]. *)
Definition is_ascii_char (c : ascii) : bool := (nat_of_ascii c <? 128)%nat.

Definition is_ascii (s : string) : bool := all_chars is_ascii_char s.

(** [s.upper()] on ASCII text. *)
Fixpoint upper (s : string) : string :=
  match s with
  | EmptyString => EmptyString
  | String c s' => String (upper_char c) (upper s')
  end.

(** The number of bytes of the UTF-8 character whose first byte is [c]. *)
Definition utf8_width (c : ascii) : nat :=
  let n := nat_of_ascii c in
  if (n <? 192)%nat then 1 else if (n <? 224)%nat then 2 else if (n <? 240)%nat then 3 else 4.

Fixpoint str_take (n : nat) (s : string) : string :=
  match n, s with
  | S n', String c s' => String c (str_take n' s')
  | _, _ => EmptyString
  end.

Fixpoint str_drop (n : nat) (s : string) : string :=
  match n, s with
  | S n', String _ s' => str_drop n' s'
  | _, _ => s
  end.

(** [s[:1]] and [s[1:]]: the first character of a text and what follows it. *)
Definition first_char (s : string) : string :=
  match s with
  | EmptyString => EmptyString
  | String c _ => str_take (utf8_width c) s
  end.

Definition rest_chars (s : string) : string :=
  match s with
  | EmptyString => EmptyString
  | String c _ => str_drop (utf8_width c) s
  end.

(** [str.lower], [str.upper], [str.capitalize], [str.strip] and
    [str.isupper] take the case of a character, and whether it is
    whitespace, from the Unicode database of the interpreter, which is no
    part of the program.  [extract_skills] and
    [extract_awards_and_certifications] are therefore also given over any
    five such functions: [str_lower t s] stands for [s.lower()],
    [str_upper t s] for [s.upper()], [str_capitalize t s] for
    [s.capitalize()], [str_strip t s] for [s.strip()] and, for a text [c]
    of one character, [str_isupper t c] for [c.isupper()]. *)
Record StrMethods : Type := mkStrMethods {
  str_lower : string -> string;
  str_upper : string -> string;
  str_capitalize : string -> string;
  str_strip : string -> string;
  str_isupper : string -> bool
}.

(** What is used of the five functions: on ASCII text they are the
    functions of [PyStr]. *)
Definition agrees_on_ascii (t : StrMethods) : Prop :=
  (forall s, is_ascii s = true ->
     str_lower t s = lower s /\ str_upper t s = upper s
     /\ str_capitalize t s = capitalize s /\ str_strip t s = strip s)
  /\ (forall c, is_ascii_char c = true -> str_isupper t (String c EmptyString) = isupper c).

(** [c.isupper()] for a text of one ASCII character. *)
Definition isupper_one (s : string) : bool :=
  match s with
  | String c EmptyString => isupper c
  | _ => false
  end.

(** The methods that look at ASCII letters and ASCII whitespace only. *)
Definition ascii_methods : StrMethods := mkStrMethods lower upper capitalize strip isupper_one.

(** [extract_skills] (lines 102-112) over the methods [t]. *)
Definition skill_tokens_with (t : StrMethods) (doc : Doc) : list string :=
  (fun token => str_lower t (tok_text token)) <$>
    filter (fun token => is_stop token = false) (tokens doc).

Definition skill_noun_chunks_with (t : StrMethods) (doc : Doc) : list string :=
  (fun chunk => str_lower t (text chunk)) <$> noun_chunks doc.

(** The test of line 109. *)
Definition skill_matches_with (t : StrMethods) (doc : Doc) (skill : string) : bool :=
  str_in (str_lower t skill) (skill_tokens_with t doc)
  || str_in (str_lower t skill) (skill_noun_chunks_with t doc).

(** The list [skills] built by the loop of lines 108-110. *)
Definition collected_skills_with (t : StrMethods) (doc : Doc) (skill_list : list string)
    : list string :=
  str_capitalize t <$> filter (fun skill => skill_matches_with t doc skill = true) skill_list.

Definition extract_skills_with (t : StrMethods) (doc : Doc) (skill_list : list string)
    : list string :=
  elements (list_to_set (C := gset string) (collected_skills_with t doc skill_list)).

(** A term with its first character upper-cased and all the remaining
    characters lower-cased. *)
Definition upper_first_lower_rest (t : StrMethods) (skill : string) : string :=
  str_upper t (first_char skill) +:+ str_lower t (rest_chars skill).

(** U+00DF, the small sharp s, and U+212A, the Kelvin sign, in UTF-8. *)
Definition sharp_s : string :=
  String (ascii_of_nat 195) (String (ascii_of_nat 159) EmptyString).

Definition kelvin_sign : string :=
  String (ascii_of_nat 226) (String (ascii_of_nat 132) (String (ascii_of_nat 170) EmptyString)).

Definition is_sharp_s (c1 c2 : ascii) : bool :=
  ((nat_of_ascii c1 =? 195) && (nat_of_ascii c2 =? 159))%nat.

Definition is_kelvin_sign (c1 c2 c3 : ascii) : bool :=
  ((nat_of_ascii c1 =? 226) && (nat_of_ascii c2 =? 132) && (nat_of_ascii c3 =? 170))%nat.

(** The methods of [str] on texts made of ASCII characters, sharp s and
    Kelvin signs.  The lower-case form of the Kelvin sign is the
    letter k, and [upper] and [capitalize] leave the sign as it is; the
    small sharp s is its own lower-case form, its upper-case form is SS
    and at the head of a text [capitalize] turns it into Ss. *)
Fixpoint sharp_kelvin_lower (s : string) : string :=
  match s with
  | EmptyString => EmptyString
  | String c1 s1 =>
      match s1 with
      | String c2 (String c3 s3) =>
          if is_kelvin_sign c1 c2 c3 then String "k"%char (sharp_kelvin_lower s3)
          else String (lower_char c1) (sharp_kelvin_lower s1)
      | _ => String (lower_char c1) (sharp_kelvin_lower s1)
      end
  end.

Fixpoint sharp_kelvin_upper (s : string) : string :=
  match s with
  | EmptyString => EmptyString
  | String c1 s1 =>
      match s1 with
      | String c2 s2 =>
          if is_sharp_s c1 c2 then String "S"%char (String "S"%char (sharp_kelvin_upper s2))
          else String (upper_char c1) (sharp_kelvin_upper s1)
      | EmptyString => String (upper_char c1) EmptyString
      end
  end.

Definition sharp_kelvin_capitalize (s : string) : string :=
  match s with
  | EmptyString => EmptyString
  | String c1 s1 =>
      match s1 with
      | String c2 s2 =>
          if is_sharp_s c1 c2 then String "S"%char (String "s"%char (sharp_kelvin_lower s2))
          else String (upper_char c1) (sharp_kelvin_lower s1)
      | EmptyString => String (upper_char c1) EmptyString
      end
  end.

(** No byte of a sharp s or of a Kelvin sign is whitespace for [strip],
    and of the one-character texts the upper-case ones are the letters
    A-Z and the Kelvin sign. *)
Definition sharp_kelvin_isupper (s : string) : bool :=
  isupper_one s || String.eqb s kelvin_sign.

Definition sharp_kelvin_methods : StrMethods :=
  mkStrMethods sharp_kelvin_lower sharp_kelvin_upper sharp_kelvin_capitalize
               strip sharp_kelvin_isupper.

(** A document with the one word kelvin, and a vocabulary that lists the
    term twice: with the letter K and with the Kelvin sign. *)
Definition kelvin_doc : Doc := mkDoc [mkToken "kelvin" false false] [] [] [].

Definition kelvin_vocabulary : list string := ["Kelvin"; kelvin_sign +:+ "elvin"].

(** A document with one word that starts with a sharp s, and that word as
    the vocabulary. *)
Definition strasse : string := sharp_s +:+ "trasse".

Definition strasse_doc : Doc := mkDoc [mkToken strasse false false] [] [] [].

(** [extract_awards_and_certifications] (lines 226-258) over the methods
    [t]. *)
Definition awards_exit_test_with (t : StrMethods) (clean_line : string) : bool :=
  truthy clean_line && str_isupper t (first_char clean_line) && endswith_char ":" clean_line.

Fixpoint awards_loop_with (t : StrMethods) (in_section : bool)
    (awards_and_certs : list string) (lines : list string) : list string :=
  match lines with
  | [] => awards_and_certs
  | line :: rest =>
      let clean_line := str_lower t (str_strip t line) in
      if existsb (fun keyword => contains keyword clean_line) awards_section_keywords then
        awards_loop_with t true awards_and_certs rest
      else
        let in_section :=
          if in_section && awards_exit_test_with t clean_line then false else in_section in
        if in_section && truthy clean_line then
          let line_without_date := str_strip t (remove_parenthesized false line) in
          if truthy line_without_date then
            awards_loop_with t in_section (awards_and_certs ++ [line_without_date]) rest
          else awards_loop_with t in_section awards_and_certs rest
        else awards_loop_with t in_section awards_and_certs rest
  end.

Definition extract_awards_with (t : StrMethods) (text : string) : list string :=
  awards_loop_with t false [] (split LF text).

(** * Properties *)

Example lower_ex : lower "MiT, Ma!" = "mit, ma!".
Proof. reflexivity. Qed.

Example strip_ex : strip "  a b  " = "a b".
Proof. reflexivity. Qed.

Example split_ex :
  split LF (unlines ["a"; EmptyString; "b c"; EmptyString])
  = ["a"; EmptyString; "b c"; EmptyString].
Proof. reflexivity. Qed.

Example contains_ex :
  contains "skills" "soft skills:" = true
  /\ contains EmptyString EmptyString = true
  /\ contains "ab" "a b" = false.
Proof. repeat split. Qed.

Example extract_projects_ex :
  extract_projects
    (unlines ["Jane Doe"; "PROJECTS"; "  Parser  "; EmptyString; "Projects (cont.)"; "Compiler";
              "Education"; "MIT"])
  = ["Parser"; "Compiler"].
Proof. vm_compute. reflexivity. Qed.

Example date_search_ex :
  date_search "Sept 2015 - 2019 (GPA 4.0)" = Some "2015 - 2019"
  /\ date_search "20155-Present" = Some "0155-Present"
  /\ date_search "2015 to 2019" = None.
Proof. repeat split. Qed.

Example remove_parenthesized_ex :
  remove_parenthesized false "AWS (2020) Cert ((x) (open" = "AWS  Cert  (open".
Proof. reflexivity. Qed.

(** ** Facts about the string primitives *)

Section StringFacts.

Lemma isupper_lower_char (c : ascii) : isupper (lower_char c) = false.
Proof. destruct c as [[] [] [] [] [] [] [] []]; reflexivity. Qed.

Lemma lower_char_idemp (c : ascii) : lower_char (lower_char c) = lower_char c.
Proof. destruct c as [[] [] [] [] [] [] [] []]; reflexivity. Qed.

Lemma lower_upper_char (c : ascii) : lower_char (upper_char c) = lower_char c.
Proof. destruct c as [[] [] [] [] [] [] [] []]; reflexivity. Qed.

Lemma upper_lower_char (c : ascii) : upper_char (lower_char c) = upper_char c.
Proof. destruct c as [[] [] [] [] [] [] [] []]; reflexivity. Qed.

Lemma lower_idemp (s : string) : lower (lower s) = lower s.
Proof. induction s as [|c s IH]; simpl; [done|]. by rewrite lower_char_idemp, IH. Qed.

Lemma lower_capitalize (s : string) : lower (capitalize s) = lower s.
Proof. destruct s as [|c s]; simpl; [done|]. by rewrite lower_upper_char, lower_idemp. Qed.

(** Two terms equal up to letter case have one rendering. *)
Lemma capitalize_lower_eq (s t : string) :
  lower s = lower t -> capitalize s = capitalize t.
Proof.
  destruct s as [|c s], t as [|d t]; simpl; try done.
  intros [= Hc Hs]. rewrite Hs. f_equal.
  by rewrite <- (upper_lower_char c), <- (upper_lower_char d), Hc.
Qed.

Lemma truthy_true (s : string) : truthy s = true <-> s <> EmptyString.
Proof. destruct s; simpl; split; congruence. Qed.

(** The test of line 248 looks at a lower-cased line, whose first
    character is never an upper-case letter. *)
Lemma awards_exit_test_lower (s : string) : awards_exit_test (lower s) = false.
Proof. destruct s as [|c s]; simpl; [done|]. by rewrite isupper_lower_char. Qed.

End StringFacts.

(** ** The section scanner *)

Section SectionScanner.

Variable section_header : string.
Variable stop_headers : list string.

Lemma is_stop_line_false (x : string) :
  is_stop_line stop_headers x = false ->
  Forall (fun stop_header => contains (lower stop_header) (lower x) = false) stop_headers.
Proof.
  unfold is_stop_line. induction stop_headers as [|h hs IH]; simpl; intros H.
  - constructor.
  - apply orb_false_iff in H as [H1 H2]. constructor; auto.
Qed.

Lemma section_loop_kept (lines : list string) :
  forall in_section content,
    Forall (kept_line section_header stop_headers) content ->
    Forall (kept_line section_header stop_headers)
           (section_loop section_header stop_headers in_section content lines).
Proof.
  induction lines as [|line rest IH]; intros in_sec content Hc; simpl; [done|].
  destruct (contains (lower section_header) (lower (strip line))) eqn:Hh; [by apply IH|].
  destruct in_sec; simpl.
  - destruct (is_stop_line stop_headers (strip line)) eqn:Hs; [done|].
    apply IH, Forall_app. split; [done|].
    repeat constructor; [done | by apply is_stop_line_false].
  - by apply IH.
Qed.

(** A line with the header keyword re-enters the section and is dropped,
    whatever the state and whatever else the line contains. *)
Lemma section_loop_header (in_section : bool) (content : list string)
    (line : string) (rest : list string) :
  contains (lower section_header) (lower (strip line)) = true ->
  section_loop section_header stop_headers in_section content (line :: rest)
  = section_loop section_header stop_headers true content rest.
Proof. intros H. simpl. by rewrite H. Qed.

Lemma section_loop_outside (lines content : list string) :
  Forall (fun line => contains (lower section_header) (lower (strip line)) = false) lines ->
  section_loop section_header stop_headers false content lines = content.
Proof.
  induction 1 as [|line rest Hh _ IH]; simpl; [done|]. by rewrite Hh.
Qed.

Lemma filter_kept (content : list string) :
  Forall (kept_line section_header stop_headers) content ->
  Forall (kept_line section_header stop_headers) (filter (fun line => truthy line = true) content).
Proof.
  rewrite !Forall_forall. intros H x Hx. apply H.
  apply list_elem_of_filter in Hx. tauto.
Qed.

End SectionScanner.

(** C5. Whatever the text, the header keyword and the stop keywords,
    [extract_section] returns no line that contains the header keyword (so
    not the header line that opened the section) and no line that contains a
    stop keyword (so not the stop line that ended the scan); and when no
    line of the text contains the header keyword the result is empty. *)
Theorem extract_section_boundary (text section_header : string) (stop_headers : list string) :
  Forall (kept_line section_header stop_headers)
         (extract_section text section_header stop_headers)
  /\ (Forall (fun line => contains (lower section_header) (lower (strip line)) = false)
             (split LF text) ->
      extract_section text section_header stop_headers = []).
Proof.
  unfold extract_section. split.
  - apply filter_kept, section_loop_kept. constructor.
  - intros H. by rewrite section_loop_outside.
Qed.

Lemma extract_section_boundary_witness :
  Forall (fun line => contains (lower "projects") (lower (strip line)) = false)
         (split LF (unlines ["Jane Doe"; "Skills"; "Rocq"]))
  /\ extract_section (unlines ["Jane Doe"; "Skills"; "Rocq"]) "projects" ["skills"] = [].
Proof.
  assert (Forall (fun line => contains (lower "projects") (lower (strip line)) = false)
                 (split LF (unlines ["Jane Doe"; "Skills"; "Rocq"]))) as H
    by (repeat constructor).
  split; [exact H|].
  exact (proj2 (extract_section_boundary
                  (unlines ["Jane Doe"; "Skills"; "Rocq"]) "projects" ["skills"]) H).
Defined.

(** ** Awards and certifications *)

(** C2. The exit test of the awards extractor is applied to the stripped,
    lower-cased line, so its upper-case condition never holds and no line
    ever leaves the section: after the header "Awards", the line
    "Education:" (non-empty, upper-case initial, colon at the end) is kept
    and so is the line after it. *)
Theorem awards_exit_never_taken :
  (forall line : string, awards_exit_test (lower (strip line)) = false)
  /\ extract_awards_and_certifications
       (unlines ["Awards"; "Best Paper (2020)"; "Education:"; "MIT"])
     = ["Best Paper"; "Education:"; "MIT"].
Proof.
  split.
  - intros line. apply awards_exit_test_lower.
  - vm_compute. reflexivity.
Qed.

(** ** Summary *)

Lemma summary_loop_outside (sentences : list Span) (summary : list string) :
  Forall (fun sent =>
            existsb (fun keyword => contains keyword (lower (strip (text sent))))
                    summary_keywords = false) sentences ->
  summary_loop false summary sentences = summary.
Proof.
  induction 1 as [|sent rest Hk _ IH]; cbn [summary_loop]; [done|]. by rewrite Hk.
Qed.

(** C6. A document whose sentences are "Profile: driven engineer.",
    "Loves Python." and "Experience: five years in industry." has the
    summary "Profile: driven engineer. Loves Python."; a document none of
    whose sentences contains a trigger keyword has the empty summary. *)
Theorem extract_summary_scenario (doc : Doc) :
  (text <$> sents doc
     = ["Profile: driven engineer."; "Loves Python."; "Experience: five years in industry."] ->
   extract_summary doc = "Profile: driven engineer. Loves Python.")
  /\ (Forall (fun sent =>
                existsb (fun keyword => contains keyword (lower (strip (text sent))))
                        summary_keywords = false) (sents doc) ->
      extract_summary doc = EmptyString).
Proof.
  unfold extract_summary. split.
  - intros H.
    destruct (sents doc) as [|s1 [|s2 [|s3 [|s4 rest]]]]; try discriminate H.
    injection H as H1 H2 H3. simpl. rewrite H1, H2, H3. vm_compute. reflexivity.
  - intros H. by rewrite summary_loop_outside.
Qed.

Lemma extract_summary_scenario_witness :
  (text <$> sents profile_doc
     = ["Profile: driven engineer."; "Loves Python."; "Experience: five years in industry."]
   /\ extract_summary profile_doc = "Profile: driven engineer. Loves Python.")
  /\ (Forall (fun sent =>
                existsb (fun keyword => contains keyword (lower (strip (text sent))))
                        summary_keywords = false) (sents no_summary_doc)
      /\ extract_summary no_summary_doc = EmptyString).
Proof.
  assert (Forall (fun sent =>
                    existsb (fun keyword => contains keyword (lower (strip (text sent))))
                            summary_keywords = false) (sents no_summary_doc)) as Hnone
    by (repeat constructor).
  split; split.
  - reflexivity.
  - exact (proj1 (extract_summary_scenario profile_doc) eq_refl).
  - exact Hnone.
  - exact (proj2 (extract_summary_scenario no_summary_doc) Hnone).
Defined.

(** ** Skills *)

Lemma elem_of_extract_skills (doc : Doc) (skill_list : list string) (x : string) :
  x ∈ extract_skills doc skill_list <->
  exists skill, skill ∈ skill_list /\ skill_matches doc skill = true /\ x = capitalize skill.
Proof.
  unfold extract_skills, collected_skills.
  rewrite elem_of_elements, elem_of_list_to_set, list_elem_of_fmap.
  split.
  - intros (skill & -> & Hin). apply list_elem_of_filter in Hin as [Hm Hin]. eauto.
  - intros (skill & Hin & Hm & ->). exists skill. split; [done|].
    apply list_elem_of_filter. eauto.
Qed.

Lemma filter_none {A B : Type} `{EqDecision B} (f : A -> B) (v : B) (l : list A) :
  (forall x, x ∈ l -> f x <> v) -> filter (fun x => f x = v) l = [].
Proof.
  induction l as [|a l IH]; intros H; [done|].
  rewrite filter_cons. destruct (decide (f a = v)) as [Heq|Hne].
  - destruct (H a); [left | done].
  - apply IH. intros x Hx. apply H. by right.
Qed.

Lemma NoDup_filter_le_1 {A B : Type} `{EqDecision B} (f : A -> B) (v : B) (l : list A) :
  NoDup (f <$> l) -> length (filter (fun x => f x = v) l) <= 1.
Proof.
  induction l as [|a l IH]; simpl; [lia|].
  rewrite NoDup_cons. intros [Hnotin Hnd].
  rewrite filter_cons. destruct (decide (f a = v)) as [Heq|Hne]; [|by apply IH].
  rewrite filter_none; [simpl; lia|].
  intros x Hx Hfx. apply Hnotin. rewrite Heq, <- Hfx. by apply list_elem_of_fmap_2.
Qed.

(** *** Skills over the methods of [str] *)

Lemma extract_skills_ascii_methods (doc : Doc) (skill_list : list string) :
  extract_skills doc skill_list = extract_skills_with ascii_methods doc skill_list.
Proof. reflexivity. Qed.

Lemma lower_char_is_ascii (c : ascii) :
  is_ascii_char c = true -> is_ascii_char (lower_char c) = true.
Proof. destruct c as [[] [] [] [] [] [] [] []]; vm_compute; congruence. Qed.

Lemma upper_char_is_ascii (c : ascii) :
  is_ascii_char c = true -> is_ascii_char (upper_char c) = true.
Proof. destruct c as [[] [] [] [] [] [] [] []]; vm_compute; congruence. Qed.

Lemma utf8_width_ascii (c : ascii) : is_ascii_char c = true -> utf8_width c = 1.
Proof. destruct c as [[] [] [] [] [] [] [] []]; vm_compute; congruence. Qed.

Lemma is_ascii_cons (c : ascii) (s : string) :
  is_ascii (String c s) = true <-> is_ascii_char c = true /\ is_ascii s = true.
Proof. unfold is_ascii. cbn [all_chars]. apply andb_true_iff. Qed.

Lemma lower_is_ascii (s : string) : is_ascii s = true -> is_ascii (lower s) = true.
Proof.
  induction s as [|c s IH]; [done|]. cbn [lower]. rewrite !is_ascii_cons.
  intros [Hc Hs]. split; [by apply lower_char_is_ascii | by apply IH].
Qed.

Lemma capitalize_is_ascii (s : string) : is_ascii s = true -> is_ascii (capitalize s) = true.
Proof.
  destruct s as [|c s]; [done|]. cbn [capitalize]. rewrite !is_ascii_cons.
  intros [Hc Hs]. split; [by apply upper_char_is_ascii | by apply lower_is_ascii].
Qed.

Lemma elem_of_extract_skills_with (t : StrMethods) (doc : Doc) (skill_list : list string)
    (x : string) :
  x ∈ extract_skills_with t doc skill_list <->
  exists skill,
    skill ∈ skill_list /\ skill_matches_with t doc skill = true /\ x = str_capitalize t skill.
Proof.
  unfold extract_skills_with, collected_skills_with.
  rewrite elem_of_elements, elem_of_list_to_set, list_elem_of_fmap.
  split.
  - intros (skill & -> & Hin). apply list_elem_of_filter in Hin as [Hm Hin]. eauto.
  - intros (skill & Hin & Hm & ->). exists skill. split; [done|].
    apply list_elem_of_filter. eauto.
Qed.

(** The rendering of an ASCII term, and the lower-case form of that
    rendering, are those of [PyStr]. *)
Lemma rendering_ascii (t : StrMethods) (skill : string) :
  agrees_on_ascii t -> is_ascii skill = true ->
  str_capitalize t skill = capitalize skill
  /\ str_lower t (capitalize skill) = lower skill.
Proof.
  intros [Ht _] Hs. destruct (Ht skill Hs) as (_ & _ & -> & _). split; [done|].
  destruct (Ht (capitalize skill) (capitalize_is_ascii _ Hs)) as (-> & _).
  apply lower_capitalize.
Qed.

Lemma upper_first_lower_rest_ascii (t : StrMethods) (skill : string) :
  agrees_on_ascii t -> is_ascii skill = true ->
  upper_first_lower_rest t skill = capitalize skill.
Proof.
  intros [Ht _] Hs. unfold upper_first_lower_rest.
  destruct skill as [|c rest].
  - cbn [first_char rest_chars capitalize].
    destruct (Ht EmptyString eq_refl) as (-> & -> & _). reflexivity.
  - apply is_ascii_cons in Hs as [Hc Hr].
    cbn [first_char rest_chars]. rewrite (utf8_width_ascii c Hc).
    cbn [str_take str_drop].
    destruct (Ht (String c EmptyString)) as (_ & -> & _); [by apply is_ascii_cons|].
    destruct (Ht rest Hr) as (-> & _). reflexivity.
Qed.

(** On an ASCII document and an ASCII vocabulary the extractor over any
    methods is the extractor over the methods of [PyStr]. *)
Lemma extract_skills_with_ascii (t : StrMethods) (doc : Doc) (skill_list : list string) :
  agrees_on_ascii t ->
  Forall (fun token => is_ascii (tok_text token) = true) (tokens doc) ->
  Forall (fun chunk => is_ascii (text chunk) = true) (noun_chunks doc) ->
  Forall (fun skill => is_ascii skill = true) skill_list ->
  extract_skills_with t doc skill_list = extract_skills doc skill_list.
Proof.
  intros [Ht _] Htok Hchunk Hv.
  assert (skill_tokens_with t doc = skill_tokens doc) as Htokens.
  { unfold skill_tokens_with, skill_tokens. apply Forall_fmap_ext_1.
    rewrite Forall_forall in Htok |- *. intros token Hin.
    apply list_elem_of_filter in Hin as [_ Hin]. by destruct (Ht _ (Htok _ Hin)) as (-> & _). }
  assert (skill_noun_chunks_with t doc = skill_noun_chunks doc) as Hchunks.
  { unfold skill_noun_chunks_with, skill_noun_chunks. apply Forall_fmap_ext_1.
    eapply Forall_impl; [exact Hchunk|]. intros chunk Hc. by destruct (Ht _ Hc) as (-> & _). }
  unfold extract_skills_with, extract_skills, collected_skills_with, collected_skills.
  do 2 f_equal.
  induction Hv as [|skill rest Hs _ IH]; [done|].
  assert (skill_matches_with t doc skill = skill_matches doc skill) as Hm.
  { unfold skill_matches_with, skill_matches. rewrite Htokens, Hchunks.
    by destruct (Ht skill Hs) as (-> & _). }
  rewrite !filter_cons, Hm.
  destruct (decide (skill_matches doc skill = true)); [|exact IH].
  rewrite !fmap_cons, IH. by destruct (Ht skill Hs) as (_ & _ & -> & _).
Qed.

Lemma is_kelvin_sign_ascii (c1 c2 c3 : ascii) :
  is_ascii_char c1 = true -> is_kelvin_sign c1 c2 c3 = false.
Proof.
  unfold is_ascii_char, is_kelvin_sign. intros H. apply Nat.ltb_lt in H.
  destruct (Nat.eqb_spec (nat_of_ascii c1) 226); [lia | done].
Qed.

Lemma is_sharp_s_ascii (c1 c2 : ascii) :
  is_ascii_char c1 = true -> is_sharp_s c1 c2 = false.
Proof.
  unfold is_ascii_char, is_sharp_s. intros H. apply Nat.ltb_lt in H.
  destruct (Nat.eqb_spec (nat_of_ascii c1) 195); [lia | done].
Qed.

Lemma sharp_kelvin_lower_ascii (s : string) :
  is_ascii s = true -> sharp_kelvin_lower s = lower s.
Proof.
  induction s as [|c1 s1 IH]; [done|]. rewrite is_ascii_cons. intros [Hc Hs].
  specialize (IH Hs). cbn [lower]. rewrite <- IH.
  destruct s1 as [|c2 [|c3 s3]]; try reflexivity.
  change (sharp_kelvin_lower (String c1 (String c2 (String c3 s3))))
    with (if is_kelvin_sign c1 c2 c3 then String "k"%char (sharp_kelvin_lower s3)
          else String (lower_char c1) (sharp_kelvin_lower (String c2 (String c3 s3)))).
  by rewrite is_kelvin_sign_ascii.
Qed.

Lemma sharp_kelvin_upper_ascii (s : string) :
  is_ascii s = true -> sharp_kelvin_upper s = upper s.
Proof.
  induction s as [|c1 s1 IH]; [done|]. rewrite is_ascii_cons. intros [Hc Hs].
  specialize (IH Hs). cbn [upper]. rewrite <- IH.
  destruct s1 as [|c2 s2]; [reflexivity|].
  change (sharp_kelvin_upper (String c1 (String c2 s2)))
    with (if is_sharp_s c1 c2 then String "S"%char (String "S"%char (sharp_kelvin_upper s2))
          else String (upper_char c1) (sharp_kelvin_upper (String c2 s2))).
  by rewrite is_sharp_s_ascii.
Qed.

Lemma sharp_kelvin_capitalize_ascii (s : string) :
  is_ascii s = true -> sharp_kelvin_capitalize s = capitalize s.
Proof.
  destruct s as [|c1 [|c2 s2]]; [done | done |]. rewrite is_ascii_cons. intros [Hc Hs].
  cbn [sharp_kelvin_capitalize capitalize].
  by rewrite is_sharp_s_ascii, (sharp_kelvin_lower_ascii _ Hs).
Qed.

(** The methods on ASCII characters, sharp s and Kelvin signs are as
    [PyStr] has them on ASCII text. *)
Lemma sharp_kelvin_agrees : agrees_on_ascii sharp_kelvin_methods.
Proof.
  split.
  - intros s Hs. cbn. split_and!.
    + by apply sharp_kelvin_lower_ascii.
    + by apply sharp_kelvin_upper_ascii.
    + by apply sharp_kelvin_capitalize_ascii.
    + done.
  - intros c Hc. cbn [str_isupper sharp_kelvin_methods]. unfold sharp_kelvin_isupper.
    cbn [isupper_one].
    assert (String.eqb (String c EmptyString) kelvin_sign = false) as ->; [|apply orb_false_r].
    unfold kelvin_sign. cbn [String.eqb]. by destruct (Ascii.eqb c (ascii_of_nat 226)).
Qed.

Lemma ascii_methods_agree : agrees_on_ascii ascii_methods.
Proof. split; [by intros s _ | by intros c _]. Qed.

(** C7, as the code has it. For every document and vocabulary, no two
    entries of the skills result are equal; and when the vocabulary terms
    are made of ASCII characters, no two entries are equal when letter
    case is ignored: for any term, at most one entry of the result is a
    rendering of it, however many times and in whatever casing the
    vocabulary lists the term. *)
Theorem extract_skills_dedup (t : StrMethods) (doc : Doc) (skill_list : list string) :
  agrees_on_ascii t ->
  NoDup (extract_skills_with t doc skill_list)
  /\ (Forall (fun skill => is_ascii skill = true) skill_list ->
      NoDup (str_lower t <$> extract_skills_with t doc skill_list)
      /\ forall term : string,
           length (filter (fun x => str_lower t x = str_lower t term)
                          (extract_skills_with t doc skill_list)) <= 1).
Proof.
  intros Ht. split; [apply NoDup_elements|]. intros Hv. rewrite Forall_forall in Hv.
  assert (NoDup (str_lower t <$> extract_skills_with t doc skill_list)) as Hnd.
  { apply NoDup_fmap_2_strong; [|apply NoDup_elements].
    intros x y Hx Hy.
    apply elem_of_extract_skills_with in Hx as (a & Ha & _ & ->).
    apply elem_of_extract_skills_with in Hy as (b & Hb & _ & ->).
    destruct (rendering_ascii t a Ht (Hv a Ha)) as [-> ->].
    destruct (rendering_ascii t b Ht (Hv b Hb)) as [-> ->].
    apply capitalize_lower_eq. }
  split; [exact Hnd|]. intros term. by apply NoDup_filter_le_1.
Qed.

Lemma extract_skills_dedup_witness :
  agrees_on_ascii sharp_kelvin_methods
  /\ NoDup (extract_skills_with sharp_kelvin_methods javascript_doc
              ["JavaScript"; "javascript"; "MATLAB"])
  /\ (Forall (fun skill => is_ascii skill = true) ["JavaScript"; "javascript"; "MATLAB"] ->
      NoDup (str_lower sharp_kelvin_methods <$>
               extract_skills_with sharp_kelvin_methods javascript_doc
                 ["JavaScript"; "javascript"; "MATLAB"])
      /\ forall term : string,
           length (filter (fun x => str_lower sharp_kelvin_methods x
                                    = str_lower sharp_kelvin_methods term)
                          (extract_skills_with sharp_kelvin_methods javascript_doc
                             ["JavaScript"; "javascript"; "MATLAB"])) <= 1).
Proof.
  split; [exact sharp_kelvin_agrees|].
  exact (extract_skills_dedup sharp_kelvin_methods javascript_doc
           ["JavaScript"; "javascript"; "MATLAB"] sharp_kelvin_agrees).
Defined.

(** C7 as stated fails. The document holds the word kelvin and the
    vocabulary lists Kelvin twice, once with the letter K and once with
    the Kelvin sign: both terms match, their renderings differ, and the
    two entries of the result are equal when letter case is ignored. *)
Lemma extract_skills_kelvin :
  extract_skills_with sharp_kelvin_methods kelvin_doc kelvin_vocabulary
    ≡ₚ ["Kelvin"; kelvin_sign +:+ "elvin"]
  /\ str_lower sharp_kelvin_methods "Kelvin" = "kelvin"
  /\ str_lower sharp_kelvin_methods (kelvin_sign +:+ "elvin") = "kelvin"
  /\ ~ NoDup (str_lower sharp_kelvin_methods <$>
                extract_skills_with sharp_kelvin_methods kelvin_doc kelvin_vocabulary)
  /\ length (filter (fun x => str_lower sharp_kelvin_methods x
                              = str_lower sharp_kelvin_methods "kelvin")
                    (extract_skills_with sharp_kelvin_methods kelvin_doc kelvin_vocabulary))
     = 2.
Proof.
  split_and!.
  - vm_compute. reflexivity.
  - reflexivity.
  - reflexivity.
  - vm_compute. intros H. apply NoDup_cons in H as [H _]. apply H. left.
  - vm_compute. reflexivity.
Qed.

(** C10, as the code has it. Every entry of the skills result is
    [capitalize()] of a matched vocabulary term; for a term made of ASCII
    characters that is the term with its first character upper-cased and
    all the others lower-cased.  The capitals inside a term are lost:
    "JavaScript" is rendered "Javascript" and "MATLAB" is rendered
    "Matlab". *)
Theorem extract_skills_rendering (t : StrMethods) (doc : Doc) (skill_list : list string) :
  agrees_on_ascii t ->
  Forall (fun x =>
            exists skill,
              skill ∈ skill_list /\ skill_matches_with t doc skill = true
              /\ x = str_capitalize t skill
              /\ (is_ascii skill = true ->
                  x = upper_first_lower_rest t skill
                  /\ x = match skill with
                         | EmptyString => EmptyString
                         | String c rest => String (upper_char c) (lower rest)
                         end))
         (extract_skills_with t doc skill_list)
  /\ extract_skills_with t javascript_doc ["JavaScript"; "MATLAB"; "Rocq"]
     ≡ₚ ["Javascript"; "Matlab"].
Proof.
  intros Ht. split.
  - rewrite Forall_forall. intros x Hx.
    apply elem_of_extract_skills_with in Hx as (skill & Hin & Hm & ->).
    exists skill. split_and!; [done | done | done |]. intros Hs.
    rewrite (upper_first_lower_rest_ascii t skill Ht Hs).
    by destruct (rendering_ascii t skill Ht Hs) as [-> _].
  - rewrite (extract_skills_with_ascii t javascript_doc);
      [|done|vm_compute; repeat constructor..].
    vm_compute. apply perm_swap.
Qed.

Lemma extract_skills_rendering_witness :
  agrees_on_ascii ascii_methods
  /\ Forall (fun x =>
               exists skill,
                 skill ∈ ["JavaScript"; "MATLAB"; "Rocq"]
                 /\ skill_matches_with ascii_methods javascript_doc skill = true
                 /\ x = str_capitalize ascii_methods skill
                 /\ (is_ascii skill = true ->
                     x = upper_first_lower_rest ascii_methods skill
                     /\ x = match skill with
                            | EmptyString => EmptyString
                            | String c rest => String (upper_char c) (lower rest)
                            end))
            (extract_skills_with ascii_methods javascript_doc ["JavaScript"; "MATLAB"; "Rocq"])
  /\ extract_skills_with ascii_methods javascript_doc ["JavaScript"; "MATLAB"; "Rocq"]
     ≡ₚ ["Javascript"; "Matlab"].
Proof.
  split; [exact ascii_methods_agree|].
  exact (extract_skills_rendering ascii_methods javascript_doc
           ["JavaScript"; "MATLAB"; "Rocq"] ascii_methods_agree).
Defined.

(** C10 as stated fails. The one term of the vocabulary starts with a
    sharp s, whose upper-case form is SS: with its first character
    upper-cased and the others lower-cased the term reads SStrasse, and the
    result holds Sstrasse. *)
Lemma extract_skills_sharp_s :
  extract_skills_with sharp_kelvin_methods strasse_doc [strasse] = ["Sstrasse"]
  /\ upper_first_lower_rest sharp_kelvin_methods strasse = "SStrasse"
  /\ ~ Forall (fun x =>
                 exists skill,
                   skill ∈ [strasse]
                   /\ skill_matches_with sharp_kelvin_methods strasse_doc skill = true
                   /\ x = upper_first_lower_rest sharp_kelvin_methods skill)
              (extract_skills_with sharp_kelvin_methods strasse_doc [strasse]).
Proof.
  assert (extract_skills_with sharp_kelvin_methods strasse_doc [strasse] = ["Sstrasse"]) as H
    by (vm_compute; reflexivity).
  split; [exact H|]. split; [reflexivity|].
  rewrite H. intros HF. apply Forall_cons in HF as [(skill & Hin & _ & Heq) _].
  apply list_elem_of_singleton in Hin. subst skill. vm_compute in Heq. congruence.
Qed.

(** ** Education *)

(** C1. On the education header followed by "Bachelor of Science",
    "in Computer Science", "MIT", "Cambridge, MA", "2015-2019" the degree is
    "Bachelor of Science in Computer Science" and the dates are "2015-2019",
    but the line joined to the degree by the lookahead is read again: it
    becomes the institution, "MIT" becomes the location and "Cambridge, MA"
    goes to the additional information. *)
Theorem extract_education_field_order :
  extract_education
    (InStr (unlines ["Education"; "Bachelor of Science"; "in Computer Science"; "MIT";
                     "Cambridge, MA"; "2015-2019"]))
  = Ok [ {[ "degree" := VStr "Bachelor of Science in Computer Science";
            "institution" := VStr "in Computer Science";
            "location" := VStr "MIT";
            "dates" := VStr "2015-2019";
            "additional_info" := VList ["Cambridge, MA"] ]} ].
Proof. vm_compute. reflexivity. Qed.

Lemma dict_truthy_true {V : Type} (d : gmap string V) : dict_truthy d = true <-> d <> ∅.
Proof.
  unfold dict_truthy. rewrite negb_true_iff, Nat.eqb_neq. by rewrite map_size_empty_iff.
Qed.

Lemma dict_truthy_false {V : Type} (d : gmap string V) : dict_truthy d = false <-> d = ∅.
Proof.
  unfold dict_truthy. rewrite negb_false_iff, Nat.eqb_eq. apply map_size_empty_iff.
Qed.

Lemma flush_nonempty (education : list (gmap string pyval)) (d : gmap string pyval) :
  d <> ∅ -> flush education d = (education ++ [d], ∅).
Proof. intros H. unfold flush. by rewrite (proj2 (dict_truthy_true d) H). Qed.

Lemma flush_empty (education : list (gmap string pyval)) :
  flush education ∅ = (education, ∅).
Proof. reflexivity. Qed.

(** C3, as the code has it. When a line inside the section matches the
    degree pattern (and is neither a header nor an end-of-section line), the
    accumulator is flushed as a completed entry exactly when it is
    non-empty, whichever fields it holds; the new accumulator holds only the
    degree. *)
Theorem degree_line_flushes_nonempty
    (lines : list string) (i : nat) (line : string) (st : edu_state) :
  in_section st = true ->
  not_education_header line ->
  existsb (fun keyword => contains keyword (lower line)) education_end_keywords = false ->
  degree_match (lower line) = true ->
  exists st',
    edu_step lines i line st = Ok st'
    /\ in_section st' = true
    /\ current_edu st' =
         {[ "degree" := VStr match lines !! (i + 1) with
                             | Some next => line +:+ " " +:+ next
                             | None => line
                             end ]}
    /\ (current_edu st <> ∅ -> education st' = education st ++ [current_edu st])
    /\ (current_edu st = ∅ -> education st' = education st).
Proof.
  intros Hin Hh He Hd. unfold edu_step. unfold not_education_header in Hh.
  rewrite Hh, Hin, He, Hd. cbn [andb].
  destruct (decide (current_edu st = ∅)) as [Hemp|Hne].
  - rewrite Hemp, flush_empty. eexists. split; [reflexivity|]. cbn.
    rewrite insert_empty. split_and!; [done | done | done | by intros _].
  - rewrite (flush_nonempty _ _ Hne). eexists. split; [reflexivity|]. cbn.
    rewrite insert_empty. split_and!; [done | done | by intros _ | done].
Qed.

Lemma degree_line_flushes_nonempty_witness :
  exists st',
    edu_step ["Education"; "2015-2019"; "Bachelor of Science"] 2 "Bachelor of Science"
      (mkEdu true [] {[ "dates" := VStr "2015-2019" ]}) = Ok st'
    /\ in_section st' = true
    /\ current_edu st' = {[ "degree" := VStr "Bachelor of Science" ]}
    /\ (({[ "dates" := VStr "2015-2019" ]} : gmap string pyval) <> ∅ ->
        education st' = [] ++ [ {[ "dates" := VStr "2015-2019" ]} ])
    /\ (({[ "dates" := VStr "2015-2019" ]} : gmap string pyval) = ∅ -> education st' = []).
Proof.
  exact (degree_line_flushes_nonempty
           ["Education"; "2015-2019"; "Bachelor of Science"] 2 "Bachelor of Science"
           (mkEdu true [] {[ "dates" := VStr "2015-2019" ]})
           eq_refl eq_refl eq_refl eq_refl).
Defined.

(** C3 as stated fails: an accumulator that holds only [dates], and no
    [degree], is flushed by a degree line. *)
Lemma degree_line_flushes_without_degree :
  has_key "degree" ({[ "dates" := VStr "2015-2019" ]} : gmap string pyval) = false
  /\ degree_match (lower "Bachelor of Science") = true
  /\ edu_step ["Education"; "2015-2019"; "Bachelor of Science"] 2 "Bachelor of Science"
       (mkEdu true [] {[ "dates" := VStr "2015-2019" ]})
     = Ok (mkEdu true [ {[ "dates" := VStr "2015-2019" ]} ]
                 {[ "degree" := VStr "Bachelor of Science" ]})
  /\ extract_education (InStr (unlines ["Education"; "2015-2019"; "Bachelor of Science"]))
     = Ok [ {[ "dates" := VStr "2015-2019" ]}; {[ "degree" := VStr "Bachelor of Science" ]} ].
Proof. repeat split; vm_compute; reflexivity. Qed.

(** *** The extractor raises on a wrong input type only *)

Section EducationTotal.

Lemma info_is_list_empty : info_is_list ∅.
Proof. intros s. by rewrite lookup_empty. Qed.

Lemma info_is_list_insert (k : string) (v : pyval) (d : gmap string pyval) :
  k <> "additional_info" -> info_is_list d -> info_is_list (<[k := v]> d).
Proof. intros Hk Hd s. rewrite lookup_insert_ne by done. apply Hd. Qed.

Lemma info_is_list_flush (education : list (gmap string pyval)) (d : gmap string pyval) :
  info_is_list d -> info_is_list (flush education d).2.
Proof.
  intros Hd. unfold flush. destruct (dict_truthy d); simpl; [apply info_is_list_empty | done].
Qed.

Lemma add_additional_info_ok (line : string) (d : gmap string pyval) :
  info_is_list d ->
  exists d', add_additional_info line d = Ok d' /\ info_is_list d'.
Proof.
  intros Hd. unfold add_additional_info.
  destruct (d !! "additional_info") as [[s|l]|] eqn:Hl.
  - by destruct (Hd s).
  - eexists. split; [reflexivity|]. intros s. by rewrite lookup_insert_eq.
  - eexists. split; [reflexivity|]. intros s. by rewrite lookup_insert_eq.
Qed.

Create HintDb edu.
Local Hint Resolve info_is_list_empty info_is_list_insert info_is_list_flush : edu.

Lemma edu_step_ok (lines : list string) (i : nat) (line : string) (st : edu_state) :
  info_is_list (current_edu st) ->
  exists st', edu_step lines i line st = Ok st' /\ info_is_list (current_edu st').
Proof.
  intros Hd. unfold edu_step.
  destruct (existsb _ education_section_keywords); [by eexists|].
  destruct (in_section st && existsb _ education_end_keywords).
  { pose proof (info_is_list_flush (education st) _ Hd) as Hf.
    destruct (flush (education st) (current_edu st)) as [e c]. by eexists. }
  destruct (in_section st); [|by eexists].
  destruct (degree_match _).
  { pose proof (info_is_list_flush (education st) _ Hd) as Hf.
    destruct (flush (education st) (current_edu st)) as [e c].
    eexists. split; [reflexivity|]. simpl in *. auto with edu. }
  destruct (negb (has_key "institution" _) && _).
  { eexists. split; [reflexivity|]. simpl. auto with edu. }
  destruct (negb (has_key "location" _) && _).
  { eexists. split; [reflexivity|]. simpl. auto with edu. }
  destruct (add_additional_info_ok line _ Hd) as (d' & Hadd & Hd').
  destruct (date_search line) as [m|].
  - destruct (negb (has_key "dates" _)).
    + eexists. split; [reflexivity|]. simpl. auto with edu.
    + rewrite Hadd. by eexists.
  - rewrite Hadd. by eexists.
Qed.

Lemma edu_loop_ok (lines todo : list string) :
  forall (i : nat) (st : edu_state),
    info_is_list (current_edu st) ->
    exists st', edu_loop lines i todo st = Ok st'.
Proof.
  induction todo as [|line todo IH]; intros i st Hd; simpl; [by eexists|].
  destruct (edu_step_ok lines i line st Hd) as (st1 & -> & Hd1). simpl. by apply IH.
Qed.

Lemma extract_education_lines_ok (lines : list string) :
  exists entries, extract_education_lines lines = Ok entries.
Proof.
  unfold extract_education_lines.
  destruct (edu_loop_ok lines lines 0 (mkEdu false [] ∅)) as (st & ->);
    [apply info_is_list_empty|].
  by eexists.
Qed.

(** Outside the section a line without a header keyword changes nothing. *)
Lemma edu_loop_outside (lines todo : list string) :
  forall (i : nat) (st : edu_state),
    in_section st = false ->
    Forall not_education_header todo ->
    edu_loop lines i todo st = Ok st.
Proof.
  induction todo as [|line todo IH]; intros i st Hin Hall; simpl; [done|].
  apply Forall_cons in Hall as [Hh Hall]. unfold edu_step.
  unfold not_education_header in Hh. rewrite Hh, Hin. simpl. by apply IH.
Qed.

End EducationTotal.

(** C8. The education extractor raises exactly when its input is neither a
    document nor a string; on a document or a string it returns a list of
    entries, the empty list when no line opens an education section. *)
Theorem extract_education_raises_iff (input_data : edu_input) :
  ((exists e, extract_education input_data = Raise e) <-> input_data = InOther)
  /\ (input_data <> InOther -> exists entries, extract_education input_data = Ok entries)
  /\ (forall lines,
        education_lines input_data = Ok lines ->
        Forall not_education_header lines ->
        extract_education input_data = Ok []).
Proof.
  assert (input_data <> InOther -> exists entries, extract_education input_data = Ok entries)
    as Hok.
  { intros Hne. unfold extract_education.
    destruct input_data as [doc|s|]; [| |done]; simpl; apply extract_education_lines_ok. }
  split_and!.
  - split.
    + intros [e He]. destruct input_data as [doc|s|]; [| |done];
        destruct Hok as [entries Hentries]; congruence.
    + intros ->. by eexists.
  - exact Hok.
  - intros lines Hl Hall. unfold extract_education. rewrite Hl. simpl.
    unfold extract_education_lines. by rewrite edu_loop_outside.
Qed.

Lemma extract_education_raises_iff_witness :
  (InStr (unlines ["Jane Doe"; EmptyString; "Rocq developer"]) <> InOther
   /\ exists entries,
        extract_education (InStr (unlines ["Jane Doe"; EmptyString; "Rocq developer"]))
        = Ok entries)
  /\ (education_lines (InStr (unlines ["Jane Doe"; EmptyString; "Rocq developer"]))
        = Ok ["Jane Doe"; "Rocq developer"]
      /\ Forall not_education_header ["Jane Doe"; "Rocq developer"]
      /\ extract_education (InStr (unlines ["Jane Doe"; EmptyString; "Rocq developer"])) = Ok []).
Proof.
  pose proof (extract_education_raises_iff
                (InStr (unlines ["Jane Doe"; EmptyString; "Rocq developer"]))) as (_ & H2 & H3).
  assert (InStr (unlines ["Jane Doe"; EmptyString; "Rocq developer"]) <> InOther) as Hne
    by discriminate.
  assert (Forall not_education_header ["Jane Doe"; "Rocq developer"]) as Hall
    by (repeat constructor).
  split; [split; [exact Hne | exact (H2 Hne)]|].
  split; [reflexivity|]. split; [exact Hall|].
  exact (H3 ["Jane Doe"; "Rocq developer"] eq_refl Hall).
Defined.

(** ** Work experience *)

Section WorkExperience.

Variable doc : Doc.

Lemma size_company_dates (c d : string) :
  size (<["dates" := d]> ({[ "company" := c ]} : gmap string string)) = 2.
Proof. rewrite map_size_insert_None by done. by rewrite map_size_singleton. Qed.

Lemma size_dates_company (c d : string) :
  size (<["company" := c]> ({[ "dates" := d ]} : gmap string string)) = 2.
Proof. rewrite map_size_insert_None by done. by rewrite map_size_singleton. Qed.






End WorkExperience.

Section NextSentence.

Variable doc : Doc.


End NextSentence.




(** * Further properties of the extractors *)

(** [Forall P l] for a closed list [l] and a property decided by
    computation. *)
Ltac forall_by_compute :=
  match goal with
  | |- Forall ?P ?l => let l' := eval vm_compute in l in change (Forall P l')
  end;
  repeat (apply Forall_cons; split; [vm_compute; reflexivity|]);
  constructor.

(** ** More facts about strings and lists *)

Section StripFacts.

Lemma rstrip_idemp (s : string) : rstrip (rstrip s) = rstrip s.
Proof.
  induction s as [|c s IH]; [done|]. cbn [rstrip].
  destruct (rstrip s) as [|d r] eqn:Hr.
  - destruct (isspace c) eqn:Hc; [done|]. cbn. by rewrite Hc.
  - cbn [rstrip] in *. by rewrite IH.
Qed.

Lemma lstrip_cases (s : string) :
  lstrip s = EmptyString \/ exists c t, lstrip s = String c t /\ isspace c = false.
Proof.
  induction s as [|c s IH]; [by left|]. cbn.
  destruct (isspace c) eqn:Hc; [done|]. right. by exists c, s.
Qed.

Lemma rstrip_cons_nonspace (c : ascii) (t : string) :
  isspace c = false -> exists t', rstrip (String c t) = String c t'.
Proof.
  intros Hc. cbn [rstrip]. destruct (rstrip t) as [|d r].
  - rewrite Hc. by eexists.
  - by eexists.
Qed.

Lemma strip_idemp (s : string) : strip (strip s) = strip s.
Proof.
  unfold strip. destruct (lstrip_cases s) as [->|(c & t & -> & Hc)]; [done|].
  destruct (rstrip_cons_nonspace c t Hc) as [t' Ht'].
  rewrite <- (rstrip_idemp (String c t)) at 2. f_equal.
  rewrite Ht'. cbn. by rewrite Hc.
Qed.

Lemma split_nonempty (sep : ascii) (s : string) : split sep s <> [].
Proof.
  induction s as [|c s IH]; cbn [split]; [done|].
  destruct (Ascii.eqb c sep); [done|]. by destruct (split sep s).
Qed.

Lemma append_nil_l (s : string) : EmptyString +:+ s = s.
Proof. reflexivity. Qed.

Lemma append_cons (c : ascii) (s t : string) : String c s +:+ t = String c (s +:+ t).
Proof. reflexivity. Qed.

Lemma split_app (sep : ascii) (a b : string) :
  split sep (a +:+ String sep b) = split sep a ++ split sep b.
Proof.
  induction a as [|c a IH]; rewrite ?append_nil_l, ?append_cons; cbn [split].
  - by rewrite Ascii.eqb_refl.
  - destruct (Ascii.eqb c sep); [by rewrite IH|].
    rewrite IH. pose proof (split_nonempty sep a). by destruct (split sep a).
Qed.

End StripFacts.

Section FirstFacts.

Context {A : Type} (p : A -> bool).

Lemma after_first_none (l : list A) :
  Forall (fun x => p x = false) l -> after_first p l = [].
Proof. induction 1 as [|x l Hx _ IH]; cbn; [done|]. by rewrite Hx. Qed.

Lemma after_first_app_none (pre l : list A) :
  Forall (fun x => p x = false) pre -> after_first p (pre ++ l) = after_first p l.
Proof. induction 1 as [|x pre Hx _ IH]; cbn; [done|]. by rewrite Hx. Qed.

Lemma after_first_app_some (l k : list A) :
  Exists (fun x => p x = true) l -> after_first p (l ++ k) = after_first p l ++ k.
Proof.
  induction l as [|x l IH]; intros H; [by apply Exists_nil in H|]. cbn.
  destruct (p x) eqn:Hx; [done|].
  apply Exists_cons in H as [H|H]; [congruence | by apply IH].
Qed.

Lemma before_first_app_hit (l k : list A) (x : A) :
  p x = true -> before_first p (l ++ x :: k) = before_first p l.
Proof.
  intros Hx. induction l as [|y l IH]; cbn; [by rewrite Hx|].
  destruct (p y); [done | by rewrite IH].
Qed.

Lemma after_first_sublist (l : list A) : after_first p l `sublist_of` l.
Proof.
  induction l as [|x l IH]; cbn; [done|].
  destruct (p x); by apply sublist_cons.
Qed.

Lemma before_first_sublist (l : list A) : before_first p l `sublist_of` l.
Proof.
  induction l as [|x l IH]; cbn; [done|].
  destruct (p x); [apply sublist_nil_l | by apply sublist_skip].
Qed.

End FirstFacts.

(** ** The section scanner as a pipeline *)

Section SectionPipeline.

Variable section_header : string.
Variable stop_headers : list string.

Lemma section_loop_inside (lines content : list string) :
  section_loop section_header stop_headers true content lines
  = content ++
    (strip <$> filter (fun line => is_header_line section_header line = false)
                      (before_first (is_break_line section_header stop_headers) lines)).
Proof.
  revert content. induction lines as [|line rest IH]; intros content; cbn [section_loop].
  - cbn. by rewrite app_nil_r.
  - cbn [before_first]. unfold is_break_line at 1.
    change (contains (lower section_header) (lower (strip line)))
      with (is_header_line section_header line).
    destruct (is_header_line section_header line) eqn:Hh; cbn [negb andb].
    + rewrite IH, filter_cons_False; [done|]. by rewrite Hh.
    + destruct (is_stop_line stop_headers (strip line)) eqn:Hs; cbn [andb].
      * by rewrite filter_nil, fmap_nil, app_nil_r.
      * rewrite IH, filter_cons_True by done. rewrite fmap_cons.
        by rewrite <- app_assoc.
Qed.

Lemma section_loop_from_outside (lines content : list string) :
  section_loop section_header stop_headers false content lines
  = section_loop section_header stop_headers true content
      (after_first (is_header_line section_header) lines).
Proof.
  induction lines as [|line rest IH]; cbn [section_loop after_first]; [done|].
  change (contains (lower section_header) (lower (strip line)))
    with (is_header_line section_header line).
  destruct (is_header_line section_header line); cbn [andb]; [done | apply IH].
Qed.

End SectionPipeline.

(** The lines [extract_section] returns, computed without the loop. *)
Lemma extract_section_pipeline (text section_header : string) (stop_headers : list string) :
  extract_section text section_header stop_headers
  = filter (fun line => truthy line = true)
      (strip <$>
         filter (fun line => is_header_line section_header line = false)
           (before_first (is_break_line section_header stop_headers)
              (after_first (is_header_line section_header) (split LF text)))).
Proof.
  unfold extract_section. by rewrite section_loop_from_outside, section_loop_inside.
Qed.

Section BeforeFirstFacts.

Context {A : Type} (p : A -> bool).

Lemma before_first_app_none (l k : list A) :
  Forall (fun x => p x = false) l -> before_first p (l ++ k) = l ++ before_first p k.
Proof. induction 1 as [|x l Hx _ IH]; cbn; [done|]. by rewrite Hx, IH. Qed.

Lemma before_first_none (l : list A) :
  Forall (fun x => p x = false) l -> before_first p l = l.
Proof. induction 1 as [|x l Hx _ IH]; cbn; [done|]. by rewrite Hx, IH. Qed.

End BeforeFirstFacts.

(** A line with the header keyword does not end the scan, whatever stop
    keywords it holds. *)
Lemma header_line_no_break (section_header : string) (stop_headers : list string)
    (line : string) :
  is_header_line section_header line = true ->
  is_break_line section_header stop_headers line = false.
Proof. unfold is_break_line. by intros ->. Qed.

(** C9. In [extract_section] a line whose lower-cased form contains the
    header keyword is never emitted, and the header test comes before the
    stop test: whatever stop keywords such a line holds, it does not end
    the scan.  At the head of a text it opens the section, and what
    follows it is returned up to the first line with a stop keyword and no
    header keyword; met inside the section, it is dropped and the scan
    goes on after it as after a header line. *)
Theorem extract_section_header_precedence
    (pre line post section_header : string) (stop_headers : list string) :
  split LF line = [line] ->
  is_header_line section_header line = true ->
  Forall (fun x => contains (lower section_header) (lower x) = false)
         (extract_section (pre +:+ String LF (line +:+ String LF post))
                          section_header stop_headers)
  /\ ~ (strip line ∈ extract_section (pre +:+ String LF (line +:+ String LF post))
                                     section_header stop_headers)
  /\ extract_section (line +:+ String LF post) section_header stop_headers
     = filter (fun x => truthy x = true)
         (strip <$>
            filter (fun l => is_header_line section_header l = false)
              (before_first (is_break_line section_header stop_headers) (split LF post)))
  /\ (Exists (fun l => is_header_line section_header l = true) (split LF pre) ->
      Forall (fun l => is_break_line section_header stop_headers l = false)
             (after_first (is_header_line section_header) (split LF pre)) ->
      extract_section (pre +:+ String LF (line +:+ String LF post))
                      section_header stop_headers
      = extract_section pre section_header stop_headers
        ++ extract_section (line +:+ String LF post) section_header stop_headers).
Proof.
  intros Hone Hh.
  assert (Forall (fun x => contains (lower section_header) (lower x) = false)
                 (extract_section (pre +:+ String LF (line +:+ String LF post))
                                  section_header stop_headers)) as Hclean.
  { eapply Forall_impl.
    - apply filter_kept, section_loop_kept. constructor.
    - by intros x [H _]. }
  assert (extract_section (line +:+ String LF post) section_header stop_headers
          = filter (fun x => truthy x = true)
              (strip <$>
                 filter (fun l => is_header_line section_header l = false)
                   (before_first (is_break_line section_header stop_headers) (split LF post))))
    as Hhead.
  { rewrite extract_section_pipeline, split_app, Hone. cbn [app after_first].
    by rewrite Hh. }
  split_and!.
  - exact Hclean.
  - intros Hin. rewrite Forall_forall in Hclean. specialize (Hclean _ Hin).
    unfold is_header_line in Hh. congruence.
  - exact Hhead.
  - intros Hex Hnb. rewrite Hhead.
    rewrite !extract_section_pipeline, !split_app, Hone.
    rewrite after_first_app_some by done.
    rewrite before_first_app_none by done.
    rewrite (before_first_none _ _ Hnb).
    cbn [app before_first]. rewrite (header_line_no_break _ stop_headers _ Hh).
    rewrite filter_app, filter_cons_False by (by rewrite Hh).
    by rewrite fmap_app, filter_app.
Qed.

Lemma extract_section_header_precedence_witness :
  split LF "Projects and Skills" = ["Projects and Skills"]
  /\ is_header_line "projects" "Projects and Skills" = true
  /\ is_stop_line ["skills"] (strip "Projects and Skills") = true
  /\ extract_section (unlines ["Jane Doe"; "Projects"; "Parser"]) "projects" ["skills"]
     = ["Parser"]
  /\ extract_section ("Projects and Skills" +:+ String LF (unlines ["Compiler"; "Skills"; "Rocq"]))
                     "projects" ["skills"]
     = ["Compiler"]
  /\ extract_section
       (unlines ["Jane Doe"; "Projects"; "Parser"]
        +:+ String LF ("Projects and Skills"
                       +:+ String LF (unlines ["Compiler"; "Skills"; "Rocq"])))
       "projects" ["skills"]
     = ["Parser"; "Compiler"].
Proof.
  split; [reflexivity|]. split; [reflexivity|]. split; [reflexivity|].
  split; [reflexivity|]. split; [reflexivity|].
  destruct (extract_section_header_precedence
              (unlines ["Jane Doe"; "Projects"; "Parser"]) "Projects and Skills"
              (unlines ["Compiler"; "Skills"; "Rocq"]) "projects" ["skills"]
              eq_refl eq_refl) as (_ & _ & _ & H).
  rewrite H.
  - reflexivity.
  - right; left; reflexivity.
  - repeat constructor.
Defined.

(** X1. [extract_section] is a pipeline: skip to the line after the first
    header line, cut at the first later line that holds a stop keyword and
    no header keyword, drop the header lines in between, strip each line
    and drop the ones left empty. *)
Theorem extract_section_is_pipeline (text section_header : string) (stop_headers : list string) :
  extract_section text section_header stop_headers
  = filter (fun line => truthy line = true)
      (strip <$>
         filter (fun line => is_header_line section_header line = false)
           (before_first (is_break_line section_header stop_headers)
              (after_first (is_header_line section_header) (split LF text)))).
Proof. apply extract_section_pipeline. Qed.

(** X2. The lines [extract_section] returns are non-empty, carry no
    leading or trailing whitespace, and are stripped lines of the text in
    the order of the text: nothing is invented, repeated or reordered. *)
Theorem extract_section_sublist (text section_header : string) (stop_headers : list string) :
  Forall (fun x => x <> EmptyString /\ strip x = x)
         (extract_section text section_header stop_headers)
  /\ extract_section text section_header stop_headers
       `sublist_of` (strip <$> split LF text).
Proof.
  rewrite extract_section_pipeline. split.
  - rewrite Forall_forall. intros x Hx.
    apply list_elem_of_filter in Hx as [Hne Hx].
    apply list_elem_of_fmap in Hx as (line & -> & _).
    split; [by apply truthy_true | apply strip_idemp].
  - etrans; [apply sublist_filter|]. apply fmap_sublist.
    etrans; [apply sublist_filter|].
    etrans; [apply before_first_sublist | apply after_first_sublist].
Qed.

(** X3. Whatever precedes the first header line is ignored: a text put in
    front of another one, none of whose lines contains the header keyword,
    does not change the result. *)
Theorem extract_section_prefix_ignored
    (pre text section_header : string) (stop_headers : list string) :
  Forall (fun line => is_header_line section_header line = false) (split LF pre) ->
  extract_section (pre +:+ String LF text) section_header stop_headers
  = extract_section text section_header stop_headers.
Proof.
  intros H. rewrite !extract_section_pipeline, split_app.
  by rewrite after_first_app_none.
Qed.

Lemma extract_section_prefix_ignored_witness :
  Forall (fun line => is_header_line "projects" line = false)
         (split LF (unlines ["Jane Doe"; "Skills: Rocq"]))
  /\ extract_section
       (unlines ["Jane Doe"; "Skills: Rocq"] +:+ String LF (unlines ["Projects"; "Parser"]))
       "projects" ["skills"]
     = extract_section (unlines ["Projects"; "Parser"]) "projects" ["skills"].
Proof.
  assert (Forall (fun line => is_header_line "projects" line = false)
                 (split LF (unlines ["Jane Doe"; "Skills: Rocq"]))) as H
    by (repeat constructor).
  split; [exact H|].
  exact (extract_section_prefix_ignored
           (unlines ["Jane Doe"; "Skills: Rocq"]) (unlines ["Projects"; "Parser"])
           "projects" ["skills"] H).
Defined.

(** X4. Whatever follows the first stop line of the section is ignored:
    when a text contains a header line, a line put after it that holds a
    stop keyword and no header keyword ends the scan, and neither that line
    nor anything after it changes the result. *)
Theorem extract_section_suffix_ignored
    (text stop_line rest section_header : string) (stop_headers : list string) :
  Exists (fun line => is_header_line section_header line = true) (split LF text) ->
  split LF stop_line = [stop_line] ->
  is_break_line section_header stop_headers stop_line = true ->
  extract_section (text +:+ String LF (stop_line +:+ String LF rest))
                  section_header stop_headers
  = extract_section text section_header stop_headers.
Proof.
  intros Hh Hone Hb. rewrite !extract_section_pipeline, !split_app, Hone.
  rewrite after_first_app_some by done. cbn [app].
  by rewrite before_first_app_hit.
Qed.

Lemma extract_section_suffix_ignored_witness :
  Exists (fun line => is_header_line "projects" line = true)
         (split LF (unlines ["Projects"; "Parser"]))
  /\ split LF "Technical Skills" = ["Technical Skills"]
  /\ is_break_line "projects" ["skills"] "Technical Skills" = true
  /\ extract_section
       (unlines ["Projects"; "Parser"]
        +:+ String LF ("Technical Skills" +:+ String LF (unlines ["Rocq"; "Projects"; "Prover"])))
       "projects" ["skills"]
     = extract_section (unlines ["Projects"; "Parser"]) "projects" ["skills"].
Proof.
  assert (Exists (fun line => is_header_line "projects" line = true)
                 (split LF (unlines ["Projects"; "Parser"]))) as H
    by (left; reflexivity).
  split; [exact H|]. split; [reflexivity|]. split; [reflexivity|].
  exact (extract_section_suffix_ignored
           (unlines ["Projects"; "Parser"]) "Technical Skills"
           (unlines ["Rocq"; "Projects"; "Prover"]) "projects" ["skills"]
           H eq_refl eq_refl).
Defined.

Lemma contains_empty (s : string) : contains EmptyString s = true.
Proof. by destruct s. Qed.

(** X5. With the empty string as header keyword every line counts as a
    header line, so [extract_section] returns nothing, whatever the text
    and the stop keywords. *)
Theorem extract_section_empty_header (text : string) (stop_headers : list string) :
  extract_section text EmptyString stop_headers = [].
Proof.
  rewrite extract_section_pipeline.
  assert (forall l : list string,
            filter (fun line => is_header_line EmptyString line = false) l = []) as H.
  { induction l as [|x l IH]; [done|]. rewrite filter_cons_False; [done|].
    unfold is_header_line. cbn [lower]. by rewrite contains_empty. }
  by rewrite H.
Qed.

(** ** Awards and certifications: the section never closes *)

Section AwardsFacts.

Lemma awards_loop_step (line : string) (rest acc : list string) :
  awards_loop true acc (line :: rest)
  = awards_loop true match awards_keep line with
                     | Some x => acc ++ [x]
                     | None => acc
                     end rest.
Proof.
  cbn [awards_loop]. unfold awards_keep.
  change (existsb (fun keyword => contains keyword (lower (strip line)))
                  awards_section_keywords)
    with (is_awards_keyword_line line).
  destruct (is_awards_keyword_line line); [done|].
  rewrite awards_exit_test_lower. cbn [andb].
  destruct (truthy (lower (strip line))); [|done].
  by destruct (truthy (strip (remove_parenthesized false line))).
Qed.

Lemma omap_cons_match {A B : Type} (f : A -> option B) (x : A) (l : list A) :
  omap f (x :: l) = match f x with Some y => y :: omap f l | None => omap f l end.
Proof. reflexivity. Qed.

Lemma awards_loop_inside (lines acc : list string) :
  awards_loop true acc lines = acc ++ omap awards_keep lines.
Proof.
  revert acc. induction lines as [|line rest IH]; intros acc.
  - cbn. by rewrite app_nil_r.
  - rewrite awards_loop_step, IH, omap_cons_match.
    destruct (awards_keep line); [by rewrite <- app_assoc | done].
Qed.

Lemma awards_loop_outside (lines acc : list string) :
  awards_loop false acc lines
  = awards_loop true acc (after_first is_awards_keyword_line lines).
Proof.
  induction lines as [|line rest IH]; cbn [awards_loop after_first]; [done|].
  change (existsb (fun keyword => contains keyword (lower (strip line)))
                  awards_section_keywords)
    with (is_awards_keyword_line line).
  destruct (is_awards_keyword_line line); [done|]. cbn [andb]. apply IH.
Qed.

Lemma extract_awards_pipeline (text : string) :
  extract_awards_and_certifications text
  = omap awards_keep (after_first is_awards_keyword_line (split LF text)).
Proof.
  unfold extract_awards_and_certifications.
  by rewrite awards_loop_outside, awards_loop_inside.
Qed.

Lemma contains_close_cons (a : ascii) (s : string) :
  contains ")" (String a s) = Ascii.eqb ")" a || contains ")" s.
Proof. cbn [contains startswith]. by destruct (Ascii.eqb ")" a). Qed.

(** Removing bracketed parts adds no closing bracket. *)
Lemma remove_parenthesized_close (s : string) :
  forall inside,
    contains ")" s = false -> contains ")" (remove_parenthesized inside s) = false.
Proof.
  induction s as [|a s IH]; intros inside H; [by destruct inside|].
  rewrite contains_close_cons in H. apply orb_false_iff in H as [Ha Hs].
  cbn [remove_parenthesized]. destruct inside.
  - rewrite Ascii.eqb_sym, Ha. by apply IH.
  - rewrite Hs, andb_false_r. rewrite contains_close_cons, Ha. by apply IH.
Qed.

Lemma remove_parenthesized_no_group (s : string) :
  forall inside, has_parenthesized (remove_parenthesized inside s) = false.
Proof.
  induction s as [|a s IH]; intros inside; [by destruct inside|].
  cbn [remove_parenthesized]. destruct inside.
  - destruct (Ascii.eqb a ")"); apply IH.
  - destruct (Ascii.eqb a "(" && contains ")" s) eqn:Hc; [apply IH|].
    cbn [has_parenthesized]. rewrite IH, orb_false_r.
    destruct (Ascii.eqb a "("); [|done]. cbn in Hc |- *.
    by apply remove_parenthesized_close.
Qed.

Lemma lstrip_no_group (s : string) :
  has_parenthesized s = false -> has_parenthesized (lstrip s) = false.
Proof.
  induction s as [|a s IH]; [done|]. intros H. cbn [lstrip].
  destruct (isspace a); [|done]. apply IH.
  cbn [has_parenthesized] in H. by apply orb_false_iff in H as [_ H].
Qed.

Lemma rstrip_close (s : string) :
  contains ")" s = false -> contains ")" (rstrip s) = false.
Proof.
  induction s as [|a s IH]; [done|]. rewrite contains_close_cons.
  intros H. apply orb_false_iff in H as [Ha Hs]. cbn [rstrip].
  specialize (IH Hs). destruct (rstrip s) as [|b r].
  - destruct (isspace a); [done|]. rewrite contains_close_cons, Ha. done.
  - by rewrite contains_close_cons, Ha, IH.
Qed.

Lemma rstrip_no_group (s : string) :
  has_parenthesized s = false -> has_parenthesized (rstrip s) = false.
Proof.
  induction s as [|a s IH]; [done|]. cbn [has_parenthesized].
  intros H. apply orb_false_iff in H as [Ha Hs]. cbn [rstrip].
  specialize (IH Hs). destruct (rstrip s) as [|b r] eqn:Hr.
  - destruct (isspace a); [done|]. cbn. by rewrite andb_false_r.
  - cbn [has_parenthesized] in *. rewrite IH, orb_false_r.
    destruct (Ascii.eqb a "("); [|done]. cbn [andb] in *.
    rewrite <- Hr. by apply rstrip_close.
Qed.

End AwardsFacts.

(** *** Awards over the methods of [str] *)

Lemma lstrip_is_ascii (s : string) : is_ascii s = true -> is_ascii (lstrip s) = true.
Proof.
  induction s as [|c s IH]; [done|]. intros H. cbn [lstrip].
  destruct (isspace c); [|done]. apply IH. by apply is_ascii_cons in H as [_ H].
Qed.

Lemma rstrip_is_ascii (s : string) : is_ascii s = true -> is_ascii (rstrip s) = true.
Proof.
  induction s as [|c s IH]; [done|]. rewrite is_ascii_cons. intros [Hc Hs].
  specialize (IH Hs). cbn [rstrip]. destruct (rstrip s) as [|b r].
  - destruct (isspace c); [done|]. by apply is_ascii_cons.
  - by apply is_ascii_cons.
Qed.

Lemma strip_is_ascii (s : string) : is_ascii s = true -> is_ascii (strip s) = true.
Proof. intros H. by apply rstrip_is_ascii, lstrip_is_ascii. Qed.

Lemma remove_parenthesized_is_ascii (s : string) :
  forall inside, is_ascii s = true -> is_ascii (remove_parenthesized inside s) = true.
Proof.
  induction s as [|c s IH]; intros inside; [by destruct inside|].
  rewrite is_ascii_cons. intros [Hc Hs]. cbn [remove_parenthesized].
  destruct inside.
  - destruct (Ascii.eqb c ")"); by apply IH.
  - destruct (Ascii.eqb c "(" && contains ")" s); [by apply IH|].
    apply is_ascii_cons. split; [done | by apply IH].
Qed.

Lemma split_is_ascii (sep : ascii) (s : string) :
  is_ascii s = true -> Forall (fun line => is_ascii line = true) (split sep s).
Proof.
  induction s as [|c s IH]; [by repeat constructor|].
  rewrite is_ascii_cons. intros [Hc Hs]. specialize (IH Hs). cbn [split].
  destruct (Ascii.eqb c sep); [by constructor|].
  destruct (split sep s) as [|w ws].
  - repeat constructor. by apply is_ascii_cons.
  - apply Forall_cons in IH as [Hw Hws]. constructor; [by apply is_ascii_cons | done].
Qed.

Lemma is_ascii_app (a b : string) :
  is_ascii a = true -> is_ascii b = true -> is_ascii (a +:+ b) = true.
Proof.
  intros Ha Hb. induction a as [|c a IH]; [done|]. rewrite append_cons.
  apply is_ascii_cons in Ha as [Hc Ha]. apply is_ascii_cons. auto.
Qed.

Lemma awards_exit_test_with_ascii (t : StrMethods) (clean_line : string) :
  agrees_on_ascii t -> is_ascii clean_line = true ->
  awards_exit_test_with t clean_line = awards_exit_test clean_line.
Proof.
  intros [_ Ht] H. unfold awards_exit_test_with, awards_exit_test.
  destruct clean_line as [|c0 rest]; [done|].
  apply is_ascii_cons in H as [Hc _].
  cbn [truthy andb first_char]. rewrite (utf8_width_ascii c0 Hc). cbn [str_take].
  by rewrite Ht.
Qed.

(** On ASCII lines the loop over any methods is the loop over the methods
    of [PyStr]. *)
Lemma awards_loop_with_ascii (t : StrMethods) (lines : list string) :
  agrees_on_ascii t ->
  Forall (fun line => is_ascii line = true) lines ->
  forall in_section awards_and_certs,
    awards_loop_with t in_section awards_and_certs lines
    = awards_loop in_section awards_and_certs lines.
Proof.
  intros Ht Hlines.
  induction Hlines as [|line rest Hline _ IH]; intros in_section acc; [done|].
  cbn [awards_loop_with awards_loop].
  pose proof Ht as [Hs _].
  destruct (Hs line Hline) as (_ & _ & _ & ->).
  destruct (Hs (strip line) (strip_is_ascii _ Hline)) as (-> & _).
  destruct (Hs (remove_parenthesized false line)
               (remove_parenthesized_is_ascii _ false Hline)) as (_ & _ & _ & ->).
  rewrite (awards_exit_test_with_ascii t (lower (strip line)) Ht)
    by (by apply lower_is_ascii, strip_is_ascii).
  destruct (existsb _ awards_section_keywords); [apply IH|].
  destruct (in_section && awards_exit_test (lower (strip line))); cbn [andb].
  - apply IH.
  - destruct (in_section && truthy (lower (strip line))); [|apply IH].
    destruct (truthy (strip (remove_parenthesized false line))); apply IH.
Qed.

Lemma extract_awards_with_ascii (t : StrMethods) (text : string) :
  agrees_on_ascii t -> is_ascii text = true ->
  extract_awards_with t text = extract_awards_and_certifications text.
Proof.
  intros Ht H. unfold extract_awards_with, extract_awards_and_certifications.
  apply awards_loop_with_ascii; [done | by apply split_is_ascii].
Qed.

(** X6. On ASCII text the awards section never closes.
    [extract_awards_and_certifications] skips to the line after the first
    keyword line and from there on keeps every line (its bracketed parts
    removed, stripped) to the end of the text, except keyword lines and
    lines that are blank or become blank. *)
Theorem extract_awards_never_closes (t : StrMethods) (text : string) :
  agrees_on_ascii t ->
  is_ascii text = true ->
  extract_awards_with t text
  = omap awards_keep (after_first is_awards_keyword_line (split LF text)).
Proof.
  intros Ht H. rewrite (extract_awards_with_ascii t text Ht H).
  apply extract_awards_pipeline.
Qed.

Lemma extract_awards_never_closes_witness :
  agrees_on_ascii sharp_kelvin_methods
  /\ is_ascii (unlines ["Jane Doe"; "Awards"; "Best Paper (2020)"; "Education:"; "MIT"]) = true
  /\ extract_awards_with sharp_kelvin_methods
       (unlines ["Jane Doe"; "Awards"; "Best Paper (2020)"; "Education:"; "MIT"])
     = omap awards_keep
         (after_first is_awards_keyword_line
            (split LF (unlines ["Jane Doe"; "Awards"; "Best Paper (2020)"; "Education:"; "MIT"]))).
Proof.
  split; [exact sharp_kelvin_agrees|]. split; [reflexivity|].
  exact (extract_awards_never_closes sharp_kelvin_methods
           (unlines ["Jane Doe"; "Awards"; "Best Paper (2020)"; "Education:"; "MIT"])
           sharp_kelvin_agrees eq_refl).
Defined.

(** X7. Every line returned by [extract_awards_and_certifications] is
    non-empty, has no leading or trailing whitespace, and holds no opening
    bracket with a closing bracket after it. *)
Theorem extract_awards_lines_clean (text : string) :
  Forall (fun x => x <> EmptyString /\ strip x = x /\ has_parenthesized x = false)
         (extract_awards_and_certifications text).
Proof.
  rewrite extract_awards_pipeline, Forall_forall. intros x Hx.
  apply list_elem_of_omap in Hx as (line & _ & Hk). unfold awards_keep in Hk.
  destruct (is_awards_keyword_line line); [done|].
  destruct (truthy (lower (strip line))); [|done].
  destruct (truthy (strip (remove_parenthesized false line))) eqn:Ht; [|done].
  injection Hk as <-. split_and!.
  - by apply truthy_true.
  - apply strip_idemp.
  - apply rstrip_no_group, lstrip_no_group, remove_parenthesized_no_group.
Qed.

(** X8. On ASCII text: a text none of whose lines contains an award
    keyword has no awards; and what follows a text that has a keyword line
    only adds to its awards, one kept line after the other. *)
Theorem extract_awards_append (t : StrMethods) (text more : string) :
  agrees_on_ascii t ->
  is_ascii text = true ->
  is_ascii more = true ->
  (Forall (fun line => is_awards_keyword_line line = false) (split LF text) ->
   extract_awards_with t text = [])
  /\ (Exists (fun line => is_awards_keyword_line line = true) (split LF text) ->
      extract_awards_with t (text +:+ String LF more)
      = extract_awards_with t text ++ omap awards_keep (split LF more)).
Proof.
  intros Ht Htext Hmore.
  assert (is_ascii (text +:+ String LF more) = true) as Hall.
  { apply is_ascii_app; [done|]. by apply is_ascii_cons. }
  rewrite !extract_awards_with_ascii by done.
  rewrite !extract_awards_pipeline. split.
  - intros H. by rewrite after_first_none.
  - intros H. by rewrite split_app, after_first_app_some, omap_app.
Qed.

Lemma extract_awards_append_witness :
  agrees_on_ascii ascii_methods
  /\ is_ascii (unlines ["Awards"; "Best Paper (2020)"]) = true
  /\ is_ascii (unlines ["Education:"; "MIT"]) = true
  /\ Exists (fun line => is_awards_keyword_line line = true)
            (split LF (unlines ["Awards"; "Best Paper (2020)"]))
  /\ extract_awards_with ascii_methods
       (unlines ["Awards"; "Best Paper (2020)"] +:+ String LF (unlines ["Education:"; "MIT"]))
     = extract_awards_with ascii_methods (unlines ["Awards"; "Best Paper (2020)"])
       ++ omap awards_keep (split LF (unlines ["Education:"; "MIT"])).
Proof.
  assert (Exists (fun line => is_awards_keyword_line line = true)
                 (split LF (unlines ["Awards"; "Best Paper (2020)"]))) as H
    by (left; reflexivity).
  split; [exact ascii_methods_agree|]. split; [reflexivity|]. split; [reflexivity|].
  split; [exact H|].
  exact (proj2 (extract_awards_append ascii_methods (unlines ["Awards"; "Best Paper (2020)"])
                  (unlines ["Education:"; "MIT"]) ascii_methods_agree eq_refl eq_refl) H).
Defined.

(** ** The summary as a pipeline *)

Section SummaryFacts.

Lemma summary_loop_inside (sentences : list Span) (summary : list string) :
  summary_loop true summary sentences
  = summary ++ ((fun sent => strip (text sent)) <$> before_first is_summary_end sentences).
Proof.
  revert summary.
  induction sentences as [|sent rest IH]; intros summary; cbn [summary_loop before_first].
  - by rewrite fmap_nil, app_nil_r.
  - unfold is_summary_end at 1.
    change (existsb (fun keyword => contains keyword (lower (strip (text sent))))
                    summary_keywords)
      with (is_summary_trigger sent).
    destruct (is_summary_trigger sent); cbn [negb andb].
    + rewrite IH, fmap_cons. by rewrite <- app_assoc.
    + destruct (contains "experience" (lower (strip (text sent)))).
      * by rewrite fmap_nil, app_nil_r.
      * rewrite IH, fmap_cons. by rewrite <- app_assoc.
Qed.

Lemma summary_loop_from_outside (sentences : list Span) (summary : list string) :
  summary_loop false summary sentences
  = summary_loop true summary (from_first is_summary_trigger sentences).
Proof.
  induction sentences as [|sent rest IH]; [done|].
  cbn [from_first]. destruct (is_summary_trigger sent) eqn:Ht.
  - cbn [summary_loop].
    change (existsb (fun keyword => contains keyword (lower (strip (text sent))))
                    summary_keywords)
      with (is_summary_trigger sent).
    by rewrite Ht.
  - rewrite <- IH. cbn [summary_loop].
    change (existsb (fun keyword => contains keyword (lower (strip (text sent))))
                    summary_keywords)
      with (is_summary_trigger sent).
    by rewrite Ht.
Qed.

End SummaryFacts.

(** X9. The summary is a pipeline: start at the first sentence that holds
    a trigger keyword (that sentence included), stop before the first later
    sentence that holds "experience" and no trigger keyword, strip each
    sentence, join them with single blanks and strip the result. A trigger
    keyword takes precedence over "experience": a sentence with both is
    kept. The summary has no leading or trailing whitespace. *)
Theorem extract_summary_is_pipeline (doc : Doc) :
  extract_summary doc
  = strip (join " " ((fun sent => strip (text sent)) <$>
                       before_first is_summary_end
                         (from_first is_summary_trigger (sents doc))))
  /\ strip (extract_summary doc) = extract_summary doc.
Proof.
  split.
  - unfold extract_summary. by rewrite summary_loop_from_outside, summary_loop_inside.
  - apply strip_idemp.
Qed.

(** ** Skills: completeness and independence of the vocabulary's form *)

(** X10. A string is in the skills result exactly when it is the rendering
    of a vocabulary term whose lower-cased form is the lower-cased text of a
    token that is no stop word, or of a noun chunk: every matching term is
    reported, and nothing else is. *)
Theorem extract_skills_complete (doc : Doc) (skill_list : list string) (x : string) :
  x ∈ extract_skills doc skill_list <->
  exists skill,
    skill ∈ skill_list
    /\ x = capitalize skill
    /\ ((exists token, token ∈ tokens doc /\ is_stop token = false
                       /\ lower (tok_text token) = lower skill)
        \/ (exists chunk, chunk ∈ noun_chunks doc /\ lower (text chunk) = lower skill)).
Proof.
  rewrite elem_of_extract_skills.
  assert (forall skill,
            skill_matches doc skill = true <->
            ((exists token, token ∈ tokens doc /\ is_stop token = false
                            /\ lower (tok_text token) = lower skill)
             \/ (exists chunk, chunk ∈ noun_chunks doc /\ lower (text chunk) = lower skill)))
    as Hm.
  { intros skill. unfold skill_matches, str_in, skill_tokens, skill_noun_chunks.
    rewrite orb_true_iff, !existsb_exists. split.
    - intros [(t & Hin & Heq)|(t & Hin & Heq)];
        apply String.eqb_eq in Heq; subst t;
        apply list_elem_of_In, list_elem_of_fmap in Hin as (y & Hy & Hin).
      + apply list_elem_of_filter in Hin as [Hs Hin]. left. by exists y.
      + right. by exists y.
    - intros [(token & Hin & Hs & Heq)|(chunk & Hin & Heq)].
      + left. exists (lower skill). split; [|apply String.eqb_refl].
        apply list_elem_of_In, list_elem_of_fmap. exists token. split; [done|].
        by apply list_elem_of_filter.
      + right. exists (lower skill). split; [|apply String.eqb_refl].
        apply list_elem_of_In, list_elem_of_fmap. by exists chunk. }
  split.
  - intros (skill & Hin & Hs & ->). exists skill. split_and!; [done | done | by apply Hm].
  - intros (skill & Hin & -> & Hs). exists skill. split_and!; [done | by apply Hm | done].
Qed.

(** X11. For vocabularies of ASCII terms the skills result depends only on
    the set of lower-cased vocabulary terms: the order of the vocabulary,
    repeated terms and the letter case in which the terms are written do
    not change which skills are returned. *)
Theorem extract_skills_vocabulary_form (t : StrMethods) (doc : Doc) (v1 v2 : list string) :
  agrees_on_ascii t ->
  Forall (fun skill => is_ascii skill = true) v1 ->
  Forall (fun skill => is_ascii skill = true) v2 ->
  list_to_set (lower <$> v1) =@{gset string} list_to_set (lower <$> v2) ->
  extract_skills_with t doc v1 ≡ₚ extract_skills_with t doc v2.
Proof.
  intros Ht H1 H2 Hset.
  assert (forall a b : list string,
            Forall (fun skill => is_ascii skill = true) a ->
            Forall (fun skill => is_ascii skill = true) b ->
            list_to_set (lower <$> a) =@{gset string} list_to_set (lower <$> b) ->
            forall x, x ∈ extract_skills_with t doc a -> x ∈ extract_skills_with t doc b)
    as Hsub.
  { intros a b Ha Hb Hab x. rewrite !elem_of_extract_skills_with.
    intros (skill & Hin & Hs & ->).
    rewrite Forall_forall in Ha. rewrite Forall_forall in Hb.
    assert (lower skill ∈ (list_to_set (lower <$> a) : gset string)) as Hl
      by (apply elem_of_list_to_set, list_elem_of_fmap; eauto).
    rewrite Hab in Hl.
    apply elem_of_list_to_set, list_elem_of_fmap in Hl as (skill' & Heq & Hin').
    destruct Ht as [Ht _].
    destruct (Ht skill (Ha skill Hin)) as (Hlo & _ & Hcap & _).
    destruct (Ht skill' (Hb skill' Hin')) as (Hlo' & _ & Hcap' & _).
    exists skill'. split_and!; [done | |].
    - unfold skill_matches_with in Hs |- *. by rewrite Hlo', <- Heq, <- Hlo.
    - rewrite Hcap, Hcap'. by apply capitalize_lower_eq. }
  apply NoDup_Permutation; [apply NoDup_elements | apply NoDup_elements |].
  intros x. split; by apply Hsub.
Qed.

Lemma extract_skills_vocabulary_form_witness :
  agrees_on_ascii sharp_kelvin_methods
  /\ Forall (fun skill => is_ascii skill = true) ["JavaScript"; "rocq"; "javascript"]
  /\ Forall (fun skill => is_ascii skill = true) ["ROCQ"; "JAVASCRIPT"]
  /\ list_to_set (lower <$> ["JavaScript"; "rocq"; "javascript"])
       =@{gset string} list_to_set (lower <$> ["ROCQ"; "JAVASCRIPT"])
  /\ extract_skills_with sharp_kelvin_methods javascript_doc ["JavaScript"; "rocq"; "javascript"]
     ≡ₚ extract_skills_with sharp_kelvin_methods javascript_doc ["ROCQ"; "JAVASCRIPT"].
Proof.
  assert (Forall (fun skill => is_ascii skill = true) ["JavaScript"; "rocq"; "javascript"])
    as H1 by (repeat constructor).
  assert (Forall (fun skill => is_ascii skill = true) ["ROCQ"; "JAVASCRIPT"])
    as H2 by (repeat constructor).
  assert (list_to_set (lower <$> ["JavaScript"; "rocq"; "javascript"])
            =@{gset string} list_to_set (lower <$> ["ROCQ"; "JAVASCRIPT"])) as H
    by (vm_compute; reflexivity).
  split; [exact sharp_kelvin_agrees|]. split; [exact H1|]. split; [exact H2|].
  split; [exact H|].
  exact (extract_skills_vocabulary_form sharp_kelvin_methods javascript_doc _ _
           sharp_kelvin_agrees H1 H2 H).
Defined.

(** ** Work experience: pairing and counting *)

Section WorkCounting.

Variable doc : Doc.

Lemma bound_empty (k : string) : bound k ∅ = 0.
Proof. unfold bound. by rewrite lookup_empty. Qed.

(** One pass of the loop body: the accumulator keeps its shape, an entry
    uses up one ORG and one DATE entity, and an entity of another label
    changes nothing. *)
Lemma work_step_count (ent : Span) (experience : list (gmap string string))
    (current_job : gmap string string) :
  one_field current_job ->
  one_field (work_step doc (experience, current_job) ent).2
  /\ length (work_step doc (experience, current_job) ent).1
       + bound "company" (work_step doc (experience, current_job) ent).2
     <= length experience + bound "company" current_job
        + (if String.eqb (label_ ent) "ORG" then 1 else 0)
  /\ length (work_step doc (experience, current_job) ent).1
       + bound "dates" (work_step doc (experience, current_job) ent).2
     <= length experience + bound "dates" current_job
        + (if String.eqb (label_ ent) "DATE" then 1 else 0)
  /\ (label_ ent <> "ORG" -> label_ ent <> "DATE" ->
      work_step doc (experience, current_job) ent = (experience, current_job)).
Proof.
  intros Hshape. unfold work_step.
  destruct (String.eqb_spec (label_ ent) "ORG") as [Horg|Hnorg];
    [rewrite Horg; cbn [String.eqb Ascii.eqb Bool.eqb]
    |destruct (String.eqb_spec (label_ ent) "DATE") as [Hdate|Hndate]];
    destruct Hshape as [->|[(c & ->)|(t & ->)]]; cbn [andb]; unfold get_falsy.
  - rewrite lookup_empty, insert_empty, map_size_singleton. cbn [Nat.eqb fst snd].
    split_and!; [right; left; eauto | | | done];
      unfold bound; rewrite ?lookup_empty; simplify_map_eq; lia.
  - rewrite lookup_singleton_eq. destruct (truthy c); cbn [negb].
    + rewrite map_size_singleton. cbn [Nat.eqb fst snd].
      split_and!; [right; left; eauto | lia | lia | done].
    + rewrite insert_singleton_eq, map_size_singleton. cbn [Nat.eqb fst snd].
      split_and!; [right; left; eauto | | | done];
        unfold bound; simplify_map_eq; lia.
  - rewrite lookup_singleton_ne by done. rewrite size_dates_company.
    cbn [Nat.eqb fst snd]. rewrite length_app. cbn [length].
    split_and!; [by left | | | done]; unfold bound; simplify_map_eq; lia.
  - rewrite lookup_empty, insert_empty, map_size_singleton. cbn [Nat.eqb fst snd].
    split_and!; [right; right; eauto | | | done];
      unfold bound; rewrite ?lookup_empty; simplify_map_eq; lia.
  - rewrite lookup_singleton_ne by done. rewrite size_company_dates.
    cbn [Nat.eqb fst snd]. rewrite length_app. cbn [length].
    split_and!; [by left | | | done]; unfold bound; simplify_map_eq; lia.
  - rewrite lookup_singleton_eq. destruct (truthy t); cbn [negb].
    + rewrite map_size_singleton. cbn [Nat.eqb fst snd].
      split_and!; [right; right; eauto | lia | lia | done].
    + rewrite insert_singleton_eq, map_size_singleton. cbn [Nat.eqb fst snd].
      split_and!; [right; right; eauto | | | done];
        unfold bound; simplify_map_eq; lia.
  - rewrite map_size_empty. cbn [Nat.eqb fst snd].
    split_and!; [by left | lia | lia | done].
  - rewrite map_size_singleton. cbn [Nat.eqb fst snd].
    split_and!; [right; left; eauto | lia | lia | done].
  - rewrite map_size_singleton. cbn [Nat.eqb fst snd].
    split_and!; [right; right; eauto | lia | lia | done].
Qed.

End WorkCounting.

Section WorkLoopFacts.

Variable doc : Doc.

Lemma count_label_cons (l : string) (ent : Span) (entities : list Span) :
  count_label l (ent :: entities)
  = (if String.eqb (label_ ent) l then 1 else 0) + count_label l entities.
Proof.
  unfold count_label. rewrite filter_cons.
  destruct (String.eqb_spec (label_ ent) l) as [Heq|Hne].
  - by rewrite decide_True.
  - by rewrite decide_False.
Qed.

Lemma work_loop_count (entities : list Span) :
  forall (experience : list (gmap string string)) (current_job : gmap string string),
    one_field current_job ->
    length (work_loop doc entities (experience, current_job)).1
      + bound "company" (work_loop doc entities (experience, current_job)).2
    <= length experience + bound "company" current_job + count_label "ORG" entities
    /\ length (work_loop doc entities (experience, current_job)).1
         + bound "dates" (work_loop doc entities (experience, current_job)).2
       <= length experience + bound "dates" current_job + count_label "DATE" entities.
Proof.
  induction entities as [|ent rest IH]; intros experience current_job Hshape.
  - cbn. unfold count_label. cbn. lia.
  - unfold work_loop. cbn [fold_left]. rewrite !count_label_cons.
    destruct (work_step_count doc ent experience current_job Hshape)
      as (Hshape' & Hc & Hd & _).
    destruct (work_step doc (experience, current_job) ent) as [experience' current_job'].
    destruct (IH experience' current_job' Hshape') as [IHc IHd].
    unfold work_loop in IHc, IHd. cbn [fst snd] in *. lia.
Qed.

Lemma work_loop_filter (entities : list Span) :
  forall (experience : list (gmap string string)) (current_job : gmap string string),
    one_field current_job ->
    work_loop doc (filter (fun ent => label_ ent = "ORG" \/ label_ ent = "DATE") entities)
              (experience, current_job)
    = work_loop doc entities (experience, current_job).
Proof.
  induction entities as [|ent rest IH]; intros experience current_job Hshape; [done|].
  destruct (work_step_count doc ent experience current_job Hshape)
    as (Hshape' & _ & _ & Hother).
  rewrite filter_cons. case_decide as Hl.
  - unfold work_loop. cbn [fold_left].
    destruct (work_step doc (experience, current_job) ent) as [experience' current_job'].
    by apply IH.
  - unfold work_loop at 2. cbn [fold_left]. rewrite Hother by tauto. by apply IH.
Qed.

End WorkLoopFacts.

(** X12. The work-experience extractor returns at most as many entries as
    the document has ORG entities, and at most as many as it has DATE
    entities: each entry uses up one of each. *)
Theorem work_experience_count (doc : Doc) :
  length (extract_work_experience doc) <= count_label "ORG" (ents doc)
  /\ length (extract_work_experience doc) <= count_label "DATE" (ents doc).
Proof.
  unfold extract_work_experience.
  destruct (work_loop_count doc (ents doc) [] ∅) as [Hc Hd]; [by left|].
  rewrite bound_empty in Hc, Hd. cbn [length] in *. lia.
Qed.

(** X13. Entities whose label is neither ORG nor DATE are ignored by the
    work-experience extractor: removing them from the document does not
    change the result. *)
Theorem work_experience_other_labels (doc : Doc) :
  extract_work_experience (org_date_only doc) = extract_work_experience doc.
Proof.
  unfold extract_work_experience.
  rewrite <- (work_loop_filter doc (ents doc) [] ∅) by (by left).
  reflexivity.
Qed.

(** ** Education: shape of the entries *)

Section EducationShape.

Lemma has_key_insert_eq (k : string) (v : pyval) (d : gmap string pyval) :
  has_key k (<[k := v]> d) = true.
Proof. unfold has_key. by rewrite lookup_insert_eq. Qed.

Lemma has_key_insert_ne (k k' : string) (v : pyval) (d : gmap string pyval) :
  k <> k' -> has_key k' (<[k := v]> d) = has_key k' d.
Proof. intros H. unfold has_key. by rewrite lookup_insert_ne. Qed.

Lemma has_key_empty (k : string) : has_key k (∅ : gmap string pyval) = false.
Proof. unfold has_key. by rewrite lookup_empty. Qed.

Lemma fields_ok_empty : fields_ok ∅.
Proof. intros k v. by rewrite lookup_empty. Qed.

Lemma fields_ok_insert (k : string) (v : pyval) (d : gmap string pyval) :
  field_ok k v -> fields_ok d -> fields_ok (<[k := v]> d).
Proof.
  intros Hkv Hd k' v'. destruct (decide (k = k')) as [<-|Hne].
  - rewrite lookup_insert_eq. by intros [= <-].
  - rewrite lookup_insert_ne by done. apply Hd.
Qed.

Lemma order_ok_empty : order_ok ∅.
Proof. split; by rewrite has_key_empty. Qed.

Lemma field_ok_str (k s : string) :
  k = "degree" \/ k = "institution" \/ k = "location" \/ k = "dates" ->
  field_ok k (VStr s).
Proof. intros H. left. eauto. Qed.

Lemma flush_inv (education : list (gmap string pyval)) (d : gmap string pyval) :
  fields_ok d -> order_ok d ->
  Forall (fun e => e <> ∅ /\ fields_ok e /\ order_ok e) education ->
  (flush education d).2 = ∅
  /\ Forall (fun e => e <> ∅ /\ fields_ok e /\ order_ok e) (flush education d).1.
Proof.
  intros Hf Ho He. unfold flush. destruct (dict_truthy d) eqn:Ht; cbn [fst snd].
  - split; [done|]. apply Forall_app. split; [done|].
    constructor; [|done]. split_and!; [by apply dict_truthy_true | done | done].
  - split; [by apply dict_truthy_false | done].
Qed.

Lemma add_additional_info_inv (line : string) (d d' : gmap string pyval) :
  fields_ok d -> order_ok d ->
  add_additional_info line d = Ok d' -> fields_ok d' /\ order_ok d'.
Proof.
  intros Hf [Ho1 Ho2]. unfold add_additional_info.
  assert (forall l, l <> [] ->
            fields_ok (<["additional_info" := VList l]> d)
            /\ order_ok (<["additional_info" := VList l]> d)) as Hins.
  { intros l Hl. split.
    - apply fields_ok_insert; [|done]. right. eauto.
    - unfold order_ok. by rewrite !has_key_insert_ne. }
  destruct (d !! "additional_info") as [[s|l]|]; [done| |].
  - intros [= <-]. apply Hins. by destruct l.
  - intros [= <-]. by apply Hins.
Qed.

Lemma edu_step_inv (lines : list string) (i : nat) (line : string) (st st' : edu_state) :
  edu_inv st -> edu_step lines i line st = Ok st' -> edu_inv st'.
Proof.
  intros (Hf & Ho & He). unfold edu_step.
  destruct (existsb _ education_section_keywords); [by intros [= <-]|].
  destruct (in_section st && existsb _ education_end_keywords).
  { destruct (flush_inv (education st) (current_edu st) Hf Ho He) as [Hc He'].
    destruct (flush (education st) (current_edu st)) as [e c]. cbn [fst snd] in *.
    intros [= <-]. subst c. split_and!; [apply fields_ok_empty | apply order_ok_empty | done]. }
  destruct (in_section st); [|by intros [= <-]].
  destruct (degree_match _).
  { destruct (flush_inv (education st) (current_edu st) Hf Ho He) as [Hc He'].
    destruct (flush (education st) (current_edu st)) as [e c]. cbn [fst snd] in *.
    intros [= <-]. subst c. unfold edu_inv. cbn [current_edu education].
    split_and!; [| |done].
    - apply fields_ok_insert; [apply field_ok_str; tauto | apply fields_ok_empty].
    - unfold order_ok. rewrite has_key_insert_eq, !has_key_insert_ne, !has_key_empty by done.
      done. }
  destruct (negb (has_key "institution" _) && _) eqn:Hi.
  { intros [= <-]. unfold edu_inv. cbn [current_edu education].
    apply andb_true_iff in Hi as [_ Hdeg]. destruct Ho as [Ho1 Ho2].
    split_and!; [| |done].
    - apply fields_ok_insert; [apply field_ok_str; tauto | done].
    - unfold order_ok. rewrite has_key_insert_eq, !has_key_insert_ne by done. tauto. }
  destruct (negb (has_key "location" _) && _) eqn:Hl.
  { intros [= <-]. unfold edu_inv. cbn [current_edu education].
    apply andb_true_iff in Hl as [_ Hinst]. destruct Ho as [Ho1 Ho2].
    split_and!; [| |done].
    - apply fields_ok_insert; [apply field_ok_str; tauto | done].
    - unfold order_ok. rewrite has_key_insert_eq, !has_key_insert_ne by done. tauto. }
  assert (forall st0,
            bind (add_additional_info line (current_edu st))
                 (fun current_edu => Ok (mkEdu true (education st) current_edu)) = Ok st0 ->
            edu_inv st0) as Hadd.
  { intros st0. destruct (add_additional_info line (current_edu st)) as [d'|] eqn:Hd';
      [|done].
    intros [= <-]. destruct (add_additional_info_inv line _ _ Hf Ho Hd').
    by split_and!. }
  destruct (date_search line) as [m|]; [|apply Hadd].
  destruct (negb (has_key "dates" _)); [|apply Hadd].
  intros [= <-]. unfold edu_inv. cbn [current_edu education]. destruct Ho as [Ho1 Ho2].
  split_and!; [| |done].
  - apply fields_ok_insert; [apply field_ok_str; tauto | done].
  - unfold order_ok. by rewrite !has_key_insert_ne.
Qed.

Lemma edu_loop_inv (lines todo : list string) :
  forall (i : nat) (st st' : edu_state),
    edu_inv st -> edu_loop lines i todo st = Ok st' -> edu_inv st'.
Proof.
  induction todo as [|line todo IH]; intros i st st' Hinv; cbn [edu_loop].
  - by intros [= <-].
  - destruct (edu_step lines i line st) as [st1|] eqn:Hs; [|done]. cbn [bind].
    apply IH. by eapply edu_step_inv.
Qed.

Lemma extract_education_entries_ok (input_data : edu_input)
    (entries : list (gmap string pyval)) :
  extract_education input_data = Ok entries ->
  Forall (fun e => e <> ∅ /\ fields_ok e /\ order_ok e) entries.
Proof.
  unfold extract_education.
  destruct (education_lines input_data) as [lines|]; [|done]. cbn [bind].
  unfold extract_education_lines.
  destruct (edu_loop lines 0 lines (mkEdu false [] ∅)) as [st|] eqn:Hl; [|done].
  cbn [bind]. intros [= <-].
  destruct (edu_loop_inv lines lines 0 (mkEdu false [] ∅) st) as (Hf & Ho & He); [|done|].
  - split_and!; [apply fields_ok_empty | apply order_ok_empty | constructor].
  - by apply flush_inv.
Qed.

End EducationShape.

(** X14. Every education entry returned is non-empty and binds only the
    keys degree, institution, location, dates (each to a string) and
    additional_info (to a non-empty list of lines). *)
Theorem extract_education_fields (input_data : edu_input)
    (entries : list (gmap string pyval)) :
  extract_education input_data = Ok entries ->
  Forall (fun e => e <> ∅ /\ forall k v, e !! k = Some v -> field_ok k v) entries.
Proof.
  intros H. eapply Forall_impl; [by apply (extract_education_entries_ok input_data)|].
  by intros e (Hne & Hf & _).
Qed.

(** X15. In every education entry returned the fields come in order: an
    entry with an institution has a degree, and an entry with a location
    has an institution. *)
Theorem extract_education_order (input_data : edu_input)
    (entries : list (gmap string pyval)) :
  extract_education input_data = Ok entries ->
  Forall (fun e => (is_Some (e !! "institution") -> is_Some (e !! "degree"))
                   /\ (is_Some (e !! "location") -> is_Some (e !! "institution")))
         entries.
Proof.
  intros H. eapply Forall_impl; [by apply (extract_education_entries_ok input_data)|].
  intros e (_ & _ & Ho1 & Ho2). unfold has_key in *.
  split; intros [v Hv]; rewrite Hv in *.
  - destruct (e !! "degree"); [eauto | by specialize (Ho1 eq_refl)].
  - destruct (e !! "institution"); [eauto | by specialize (Ho2 eq_refl)].
Qed.

Lemma extract_education_fields_witness :
  extract_education
    (InStr (unlines ["Education"; "2015-2019"; "Dean's list"; "BSc"; "MIT"]))
  = Ok [ {[ "dates" := VStr "2015-2019"; "additional_info" := VList ["Dean's list"] ]};
         {[ "degree" := VStr "BSc MIT"; "institution" := VStr "MIT" ]} ]
  /\ Forall (fun e : gmap string pyval =>
               e <> ∅ /\ forall k v, e !! k = Some v -> field_ok k v)
            [ {[ "dates" := VStr "2015-2019"; "additional_info" := VList ["Dean's list"] ]};
              {[ "degree" := VStr "BSc MIT"; "institution" := VStr "MIT" ]} ].
Proof.
  assert (extract_education
            (InStr (unlines ["Education"; "2015-2019"; "Dean's list"; "BSc"; "MIT"]))
          = Ok [ {[ "dates" := VStr "2015-2019"; "additional_info" := VList ["Dean's list"] ]};
                 {[ "degree" := VStr "BSc MIT"; "institution" := VStr "MIT" ]} ]) as H
    by (vm_compute; reflexivity).
  split; [exact H|].
  exact (extract_education_fields _ _ H).
Defined.

Lemma extract_education_order_witness :
  extract_education
    (InStr (unlines ["Education"; "BSc"; "MIT"; "Cambridge"; "Skills"]))
  = Ok [ {[ "degree" := VStr "BSc MIT"; "institution" := VStr "MIT";
            "location" := VStr "Cambridge" ]} ]
  /\ Forall (fun e : gmap string pyval =>
               (is_Some (e !! "institution") -> is_Some (e !! "degree"))
               /\ (is_Some (e !! "location") -> is_Some (e !! "institution")))
            [ {[ "degree" := VStr "BSc MIT"; "institution" := VStr "MIT";
                 "location" := VStr "Cambridge" ]} ].
Proof.
  assert (extract_education
            (InStr (unlines ["Education"; "BSc"; "MIT"; "Cambridge"; "Skills"]))
          = Ok [ {[ "degree" := VStr "BSc MIT"; "institution" := VStr "MIT";
                    "location" := VStr "Cambridge" ]} ]) as H
    by (vm_compute; reflexivity).
  split; [exact H|].
  exact (extract_education_order _ _ H).
Defined.

(** ** Education: the lookahead and the lines before the section *)

Lemma flush_snd_empty (education : list (gmap string pyval)) (d : gmap string pyval) :
  (flush education d).2 = ∅.
Proof.
  unfold flush. destruct (dict_truthy d) eqn:Ht; [done|]. by apply dict_truthy_false.
Qed.

(** X16. The line that the lookahead joins to the degree is not consumed:
    when a degree line inside the section is followed by a plain line that
    is no degree line, the two passes of the loop leave an accumulator whose
    degree is both lines joined by a blank and whose institution is the
    second line again. *)
Theorem degree_lookahead_reused
    (lines : list string) (i : nat) (line next : string) (st : edu_state) :
  in_section st = true ->
  is_plain_line line -> degree_match (lower line) = true ->
  lines !! (i + 1) = Some next ->
  is_plain_line next -> degree_match (lower next) = false ->
  exists st1 st2,
    edu_step lines i line st = Ok st1
    /\ edu_step lines (i + 1) next st1 = Ok st2
    /\ in_section st2 = true
    /\ current_edu st2
       = {[ "degree" := VStr (line +:+ " " +:+ next); "institution" := VStr next ]}.
Proof.
  intros Hin [Hh He] Hd Hnext [Hh' He'] Hd'.
  unfold not_education_header in Hh, Hh'.
  pose proof (flush_snd_empty (education st) (current_edu st)) as Hc.
  destruct (flush (education st) (current_edu st)) as [e c] eqn:Hf. cbn [snd] in Hc.
  subst c. eexists _, _. split_and!.
  - unfold edu_step. rewrite Hh, Hin, He, Hd, Hf, Hnext. cbn [andb]. reflexivity.
  - unfold edu_step. cbn [in_section current_edu education].
    rewrite Hh', He', Hd'. cbn [andb].
    rewrite has_key_insert_ne, has_key_empty, has_key_insert_eq by done.
    cbn [negb andb]. reflexivity.
  - done.
  - cbn [current_edu]. rewrite <- !insert_empty. by rewrite insert_insert_ne.
Qed.

Lemma degree_lookahead_reused_witness :
  exists st1 st2,
    edu_step ["Education"; "BSc Mathematics"; "ETH Zurich"; "Zurich"] 1 "BSc Mathematics"
      (mkEdu true [] ∅) = Ok st1
    /\ edu_step ["Education"; "BSc Mathematics"; "ETH Zurich"; "Zurich"] (1 + 1) "ETH Zurich"
         st1 = Ok st2
    /\ in_section st2 = true
    /\ current_edu st2
       = {[ "degree" := VStr ("BSc Mathematics" +:+ " " +:+ "ETH Zurich");
            "institution" := VStr "ETH Zurich" ]}.
Proof.
  exact (degree_lookahead_reused
           ["Education"; "BSc Mathematics"; "ETH Zurich"; "Zurich"] 1
           "BSc Mathematics" "ETH Zurich" (mkEdu true [] ∅)
           eq_refl (conj eq_refl eq_refl) eq_refl eq_refl (conj eq_refl eq_refl) eq_refl).
Defined.

Section EducationPrefix.

Variables pre lines : list string.

Lemma edu_step_shift (i : nat) (line : string) (st : edu_state) :
  edu_step (pre ++ lines) (length pre + i) line st = edu_step lines i line st.
Proof.
  unfold edu_step. rewrite lookup_app_r by lia.
  by replace (length pre + i + 1 - length pre) with (i + 1) by lia.
Qed.

Lemma edu_loop_shift (todo : list string) :
  forall (i : nat) (st : edu_state),
    edu_loop (pre ++ lines) (length pre + i) todo st = edu_loop lines i todo st.
Proof.
  induction todo as [|line todo IH]; intros i st; cbn [edu_loop]; [done|].
  rewrite edu_step_shift.
  destruct (edu_step lines i line st) as [st1|]; [|done]. cbn [bind].
  replace (S (length pre + i)) with (length pre + S i) by lia. apply IH.
Qed.

Lemma edu_loop_skip (all skipped todo : list string) :
  forall (i : nat) (st : edu_state),
    in_section st = false ->
    Forall not_education_header skipped ->
    edu_loop all i (skipped ++ todo) st = edu_loop all (i + length skipped) todo st.
Proof.
  induction skipped as [|line skipped IH]; intros i st Hin Hall.
  - cbn. by rewrite Nat.add_0_r.
  - apply Forall_cons in Hall as [Hh Hall]. cbn [app edu_loop length].
    unfold edu_step at 1. unfold not_education_header in Hh. rewrite Hh, Hin.
    cbn [andb bind]. rewrite IH by done. f_equal. lia.
Qed.

Lemma extract_education_lines_prefix :
  Forall not_education_header pre ->
  extract_education_lines (pre ++ lines) = extract_education_lines lines.
Proof.
  intros H. unfold extract_education_lines.
  rewrite edu_loop_skip by done. cbn [Nat.add].
  by rewrite <- (Nat.add_0_r (length pre)), edu_loop_shift.
Qed.

End EducationPrefix.

(** X17. What precedes the education header is ignored: a text put in
    front of another one, none of whose lines holds an education header
    keyword, does not change the education entries. *)
Theorem extract_education_prefix_ignored (pre text : string) :
  Forall (fun line => not_education_header (strip line)) (split LF pre) ->
  extract_education (InStr (pre +:+ String LF text)) = extract_education (InStr text).
Proof.
  intros H. unfold extract_education. cbn [education_lines bind].
  rewrite split_app, filter_app, fmap_app.
  apply extract_education_lines_prefix.
  apply Forall_fmap. rewrite Forall_forall in H |- *.
  intros line Hl. apply list_elem_of_filter in Hl as [_ Hl]. by apply H.
Qed.

Lemma extract_education_prefix_ignored_witness :
  Forall (fun line => not_education_header (strip line))
         (split LF (unlines ["Jane Doe"; "Skills: Rocq, BSc-level maths"]))
  /\ extract_education
       (InStr (unlines ["Jane Doe"; "Skills: Rocq, BSc-level maths"]
               +:+ String LF (unlines ["Education"; "BSc"; "MIT"])))
     = extract_education (InStr (unlines ["Education"; "BSc"; "MIT"])).
Proof.
  assert (Forall (fun line => not_education_header (strip line))
                 (split LF (unlines ["Jane Doe"; "Skills: Rocq, BSc-level maths"]))) as H
    by forall_by_compute.
  split; [exact H|].
  exact (extract_education_prefix_ignored _ _ H).
Defined.

(** ** Contact channels and the name: examples *)

Example contact_info_ex :
  extract_contact_info
    "Reach me at jane.doe@example.com or (415) 555-1234, linkedin.com/in/janedoe"
  = {[ "email" := "jane.doe@example.com"; "phone" := "(415) 555-1234";
       "linkedin" := "linkedin.com/in/janedoe" ]}.
Proof. vm_compute. reflexivity. Qed.

Example contact_info_github_ex :
  extract_contact_info "Medium.com/@j.doe GitHub.com/jdoe-x" !! "github" = Some "jdoe-x"
  /\ extract_contact_info "Medium.com/@j.doe GitHub.com/jdoe-x" !! "medium"
     = Some "Medium.com/@j.doe"
  /\ extract_contact_info "see GitHub: jdoe, 4155551234x" !! "github" = Some "GitHub: jdoe"
  /\ extract_contact_info "see GitHub: jdoe, 4155551234x" !! "phone" = Some "4155551234"
  /\ extract_contact_info "a@b.c x@y.zz!" !! "email" = Some "x@y.zz".
Proof. repeat split; vm_compute; reflexivity. Qed.

Example full_name_ex :
  extract_full_name
    (mkDoc [] [mkSpan "2020" "DATE" 0 1;
               mkSpan "  Jane   Doe jane@doe.org @x a@ " "PERSON" 1 5;
               mkSpan "John" "PERSON" 6 7] [] [])
  = "Jane Doe @x a@".
Proof. vm_compute. reflexivity. Qed.

(** ** The matcher finds matches of the pattern only *)

Section MatcherSound.

Lemma append_assoc (a b c : string) : (a +:+ b) +:+ c = a +:+ (b +:+ c).
Proof. induction a as [|x a IH]; [done|]. by rewrite !append_cons, IH. Qed.

Lemma append_nil_r (a : string) : a +:+ EmptyString = a.
Proof. induction a as [|x a IH]; [done|]. by rewrite append_cons, IH. Qed.

Lemma length_append (a b : string) :
  String.length (a +:+ b) = String.length a + String.length b.
Proof. induction a as [|x a IH]; [done|]. rewrite append_cons. cbn. by rewrite IH. Qed.

Lemma take_chars_app (w rest : string) :
  take_chars (String.length w) (w +:+ rest) = w.
Proof.
  induction w as [|x w IH]; [by destruct rest|]. rewrite append_cons. cbn. by rewrite IH.
Qed.

Lemma matched_text_app (w rest : string) : matched_text (w +:+ rest) rest = w.
Proof.
  unfold matched_text. rewrite length_append.
  replace (String.length w + String.length rest - String.length rest)
    with (String.length w) by lia.
  apply take_chars_app.
Qed.

Variable ic : bool.

Lemma many_from_sound (p : ascii -> bool) (s : string) :
  forall (before : option ascii) (pos : position),
    pos ∈ many_from ic p before s ->
    exists w, s = w +:+ pos.2
              /\ forallb (cls_matches ic p) (list_ascii_of_string w) = true.
Proof.
  induction s as [|a s IH]; intros before pos; cbn [many_from].
  - intros ->%list_elem_of_singleton. by exists EmptyString.
  - destruct (cls_matches ic p a) eqn:Ha.
    + intros [Hin| ->%list_elem_of_singleton]%elem_of_app.
      * destruct (IH _ _ Hin) as (w & -> & Hw). exists (String a w). split; [done|].
        cbn. by rewrite Ha.
      * by exists EmptyString.
    + intros ->%list_elem_of_singleton. by exists EmptyString.
Qed.

Lemma rep_from_sound (p : ascii -> bool) (n : nat) :
  forall (s : string) (before : option ascii) (pos : position),
    pos ∈ rep_from ic n p before s ->
    exists w, s = w +:+ pos.2 /\ String.length w = n
              /\ forallb (cls_matches ic p) (list_ascii_of_string w) = true.
Proof.
  induction n as [|n IH]; intros s before pos; cbn [rep_from].
  - intros ->%list_elem_of_singleton. by exists EmptyString.
  - destruct s as [|a s]; [by intros ?%elem_of_nil|].
    destruct (cls_matches ic p a) eqn:Ha; [|by intros ?%elem_of_nil].
    intros Hin. destruct (IH _ _ _ Hin) as (w & -> & Hl & Hw).
    exists (String a w). split_and!; [done | by cbn; rewrite Hl | by cbn; rewrite Ha].
Qed.

Lemma matches_from_sound (r : regex) :
  forall pos pos' : position,
    pos' ∈ matches_from ic r pos ->
    exists w, pos.2 = w +:+ pos'.2 /\ lang ic r w.
Proof.
  induction r as [|c|p|r1 IH1 r2 IH2|r1 IH1 r2 IH2|r IH|p|n p|];
    intros [before s] pos'; cbn [matches_from fst snd].
  - intros ->%list_elem_of_singleton. exists EmptyString. split; [done | constructor].
  - destruct s as [|a s]; [by intros ?%elem_of_nil|].
    destruct (chr_matches ic c a) eqn:Ha; [|by intros ?%elem_of_nil].
    intros ->%list_elem_of_singleton. exists (String a EmptyString).
    split; [done | by constructor].
  - destruct s as [|a s]; [by intros ?%elem_of_nil|].
    destruct (cls_matches ic p a) eqn:Ha; [|by intros ?%elem_of_nil].
    intros ->%list_elem_of_singleton. exists (String a EmptyString).
    split; [done | by constructor].
  - intros Hin. apply list_elem_of_In, in_flat_map in Hin as (mid & Hmid & Hin).
    apply list_elem_of_In in Hmid, Hin.
    destruct (IH1 _ _ Hmid) as (w1 & Hs1 & Hw1).
    destruct (IH2 _ _ Hin) as (w2 & Hs2 & Hw2). cbn [snd] in Hs1.
    exists (w1 +:+ w2). split; [|by constructor].
    by rewrite Hs1, Hs2, append_assoc.
  - intros [Hin|Hin]%elem_of_app.
    + destruct (IH1 _ _ Hin) as (w & Hs & Hw). exists w. split; [done | by apply lang_alt_l].
    + destruct (IH2 _ _ Hin) as (w & Hs & Hw). exists w. split; [done | by apply lang_alt_r].
  - intros [Hin| ->%list_elem_of_singleton]%elem_of_app.
    + destruct (IH _ _ Hin) as (w & Hs & Hw). exists w. split; [done | by apply lang_opt_some].
    + exists EmptyString. split; [done | apply lang_opt_none].
  - intros Hin. destruct (many_from_sound _ _ _ _ Hin) as (w & Hs & Hw).
    exists w. split; [done | by constructor].
  - intros Hin. destruct (rep_from_sound _ _ _ _ _ Hin) as (w & Hs & Hl & Hw).
    exists w. split; [done | by constructor].
  - destruct (at_word_boundary (before, s)); [|by intros ?%elem_of_nil].
    intros ->%list_elem_of_singleton. exists EmptyString. split; [done | constructor].
Qed.

Lemma first_match_sound (r : regex) (before b : option ascii) (s rest : string)
    (l : list position) :
  matches_from ic r (before, s) = (b, rest) :: l ->
  exists post, s = matched_text s rest +:+ post /\ lang ic r (matched_text s rest).
Proof.
  intros Hm.
  destruct (matches_from_sound r (before, s) (b, rest)) as (w & Hs & Hw);
    [rewrite Hm; left|]. cbn [snd] in Hs. subst s.
  exists rest. by rewrite matched_text_app.
Qed.

Lemma search_from_sound (r : regex) (s : string) :
  forall (before : option ascii) (m : string),
    search_from ic r before s = Some m ->
    exists pre post, s = pre +:+ m +:+ post /\ lang ic r m.
Proof.
  induction s as [|a s IH]; intros before m; cbn [search_from].
  - destruct (matches_from ic r (before, EmptyString)) as [|[b rest] l] eqn:Hm; [done|].
    intros [= <-]. destruct (first_match_sound _ _ _ _ _ _ Hm) as (post & Hs & Hw).
    by exists EmptyString, post.
  - destruct (matches_from ic r (before, String a s)) as [|[b rest] l] eqn:Hm.
    + intros H. destruct (IH _ _ H) as (pre & post & -> & Hw).
      exists (String a pre), post. by rewrite append_cons.
    + intros [= <-]. destruct (first_match_sound _ _ _ _ _ _ Hm) as (post & Hs & Hw).
      by exists EmptyString, post.
Qed.

End MatcherSound.

Lemma re_search_sound (ic : bool) (r : regex) (text m : string) :
  re_search ic r text = Some m ->
  exists pre post, text = pre +:+ m +:+ post /\ lang ic r m.
Proof. apply search_from_sound. Qed.

(** ** Contact channels *)

Section LangInversion.

Variable ic : bool.

Lemma lang_cat_inv (r1 r2 : regex) (w : string) :
  lang ic (Cat r1 r2) w ->
  exists w1 w2, w = w1 +:+ w2 /\ lang ic r1 w1 /\ lang ic r2 w2.
Proof. inversion 1; subst. eauto. Qed.

Lemma lang_chr_inv (c : ascii) (w : string) :
  lang ic (Chr c) w -> exists a, w = String a EmptyString /\ chr_matches ic c a = true.
Proof. inversion 1; subst. eauto. Qed.

Lemma lang_cls_inv (p : ascii -> bool) (w : string) :
  lang ic (Cls p) w -> exists a, w = String a EmptyString /\ cls_matches ic p a = true.
Proof. inversion 1; subst. eauto. Qed.

Lemma lang_opt_inv (r : regex) (w : string) :
  lang ic (Opt r) w -> w = EmptyString \/ lang ic r w.
Proof. inversion 1; subst; eauto. Qed.

Lemma lang_alt_inv (r1 r2 : regex) (w : string) :
  lang ic (Alt r1 r2) w -> lang ic r1 w \/ lang ic r2 w.
Proof. inversion 1; subst; eauto. Qed.

Lemma forallb_all_chars (p : ascii -> bool) (w : string) :
  forallb p (list_ascii_of_string w) = all_chars p w.
Proof. induction w as [|a w IH]; [done|]. cbn. by rewrite IH. Qed.

Lemma lang_many_inv (p : ascii -> bool) (w : string) :
  lang ic (Many p) w -> all_chars (cls_matches ic p) w = true.
Proof. inversion 1; subst. by rewrite <- forallb_all_chars. Qed.

Lemma lang_rep_inv (n : nat) (p : ascii -> bool) (w : string) :
  lang ic (Rep n p) w -> String.length w = n /\ all_chars (cls_matches ic p) w = true.
Proof. inversion 1; subst. by rewrite <- forallb_all_chars. Qed.

Lemma lang_one_or_more_inv (p : ascii -> bool) (w : string) :
  lang ic (one_or_more p) w -> w <> EmptyString /\ all_chars (cls_matches ic p) w = true.
Proof.
  intros (w1 & w2 & -> & (a & -> & Ha)%lang_cls_inv & Hw2%lang_many_inv)%lang_cat_inv.
  split; [done|]. rewrite append_cons, append_nil_l. cbn. by rewrite Ha.
Qed.

Lemma lang_at_least_inv (n : nat) (p : ascii -> bool) (w : string) :
  lang ic (at_least n p) w -> n <= String.length w /\ all_chars (cls_matches ic p) w = true.
Proof.
  intros (w1 & w2 & -> & [Hl Hw1]%lang_rep_inv & Hw2%lang_many_inv)%lang_cat_inv.
  rewrite length_append. split; [lia|].
  clear Hl. induction w1 as [|a w1 IH]; [done|]. rewrite append_cons. cbn in *.
  apply andb_true_iff in Hw1 as [-> Hw1]. by apply IH.
Qed.

Lemma lang_word_boundary_inv (w : string) : lang ic WordBoundary w -> w = EmptyString.
Proof. by inversion 1. Qed.

End LangInversion.

Section StringContents.

Lemma all_chars_app (p : ascii -> bool) (a b : string) :
  all_chars p (a +:+ b) = all_chars p a && all_chars p b.
Proof.
  induction a as [|x a IH]; [done|]. rewrite append_cons. cbn.
  by rewrite IH, andb_assoc.
Qed.

Lemma all_chars_impl (p q : ascii -> bool) (s : string) :
  (forall c, p c = true -> q c = true) -> all_chars p s = true -> all_chars q s = true.
Proof.
  intros Hpq. induction s as [|x s IH]; [done|]. cbn.
  intros [Hx Hs]%andb_true_iff. by rewrite (Hpq _ Hx), IH.
Qed.

Lemma count_digits_app (a b : string) :
  count_digits (a +:+ b) = count_digits a + count_digits b.
Proof.
  induction a as [|x a IH]; [done|]. rewrite append_cons. cbn. rewrite IH. lia.
Qed.

Lemma count_digits_all (s : string) :
  all_chars isdigit s = true -> count_digits s = String.length s.
Proof.
  induction s as [|x s IH]; [done|]. cbn.
  intros [-> Hs]%andb_true_iff. by rewrite IH.
Qed.

Lemma count_digits_none (s : string) :
  all_chars (fun c => negb (isdigit c)) s = true -> count_digits s = 0.
Proof.
  induction s as [|x s IH]; [done|]. cbn.
  intros [Hx Hs]%andb_true_iff. apply negb_true_iff in Hx. by rewrite Hx, IH.
Qed.

Lemma startswith_app (m post : string) : startswith m (m +:+ post) = true.
Proof.
  induction m as [|x m IH]; [done|]. rewrite append_cons. cbn. by rewrite Ascii.eqb_refl.
Qed.

Lemma contains_app (pre m post : string) : contains m (pre +:+ m +:+ post) = true.
Proof.
  induction pre as [|x pre IH].
  - rewrite append_nil_l. destruct (m +:+ post) eqn:Heq.
    + cbn. rewrite <- Heq. by rewrite startswith_app.
    + cbn [contains]. rewrite <- Heq. by rewrite startswith_app.
  - rewrite append_cons. cbn [contains]. rewrite IH. apply orb_true_r.
Qed.

End StringContents.

Section ContactLookup.

Lemma lookup_set_if_match_ne (k k' : string) (m : option string) (d : gmap string string) :
  k <> k' -> set_if_match k m d !! k' = d !! k'.
Proof. intros H. destruct m; cbn; [by rewrite lookup_insert_ne | done]. Qed.

Lemma lookup_set_if_match_eq (k : string) (m : option string) (d : gmap string string) :
  d !! k = None -> set_if_match k m d !! k = m.
Proof. intros H. destruct m; cbn; [by rewrite lookup_insert_eq | done]. Qed.

Variable text : string.

Lemma contact_email : extract_contact_info text !! "email" = re_search false email_re text.
Proof.
  unfold extract_contact_info.
  rewrite !lookup_set_if_match_ne by done. by apply lookup_set_if_match_eq.
Qed.

Lemma contact_phone : extract_contact_info text !! "phone" = re_search false phone_re text.
Proof.
  unfold extract_contact_info.
  rewrite !lookup_set_if_match_ne by done. apply lookup_set_if_match_eq.
  by rewrite lookup_set_if_match_ne.
Qed.

Lemma contact_linkedin :
  extract_contact_info text !! "linkedin" = re_search false linkedin_re text.
Proof.
  unfold extract_contact_info.
  rewrite !lookup_set_if_match_ne by done. apply lookup_set_if_match_eq.
  by rewrite !lookup_set_if_match_ne.
Qed.

Lemma contact_medium : extract_contact_info text !! "medium" = re_search true medium_re text.
Proof.
  unfold extract_contact_info.
  rewrite !lookup_set_if_match_ne by done. apply lookup_set_if_match_eq.
  by rewrite !lookup_set_if_match_ne.
Qed.

Lemma contact_github :
  extract_contact_info text !! "github"
  = (fun m => strip (last_item (split "/" m))) <$> re_search true github_re text.
Proof.
  unfold extract_contact_info. apply lookup_set_if_match_eq.
  by rewrite !lookup_set_if_match_ne.
Qed.

End ContactLookup.

(** X18. The email, phone, linkedin and medium values are copied from the
    text as they stand: each is a run of consecutive characters of the
    text. *)
Theorem contact_values_verbatim (text key value : string) :
  key ∈ ["email"; "phone"; "linkedin"; "medium"] ->
  extract_contact_info text !! key = Some value ->
  exists pre post, text = pre +:+ value +:+ post.
Proof.
  intros Hkey Hv.
  assert (exists ic r, re_search ic r text = Some value) as (ic & r & Hs).
  { repeat (apply elem_of_cons in Hkey as [->|Hkey]); [| | | |by apply elem_of_nil in Hkey].
    - rewrite contact_email in Hv. eauto.
    - rewrite contact_phone in Hv. eauto.
    - rewrite contact_linkedin in Hv. eauto.
    - rewrite contact_medium in Hv. eauto. }
  apply re_search_sound in Hs as (pre & post & Ht & _). eauto.
Qed.

Lemma contact_values_verbatim_witness :
  "phone" ∈ ["email"; "phone"; "linkedin"; "medium"]
  /\ extract_contact_info "call 415-555-1234 now" !! "phone" = Some "415-555-1234"
  /\ exists pre post, "call 415-555-1234 now" = pre +:+ "415-555-1234" +:+ post.
Proof.
  assert ("phone" ∈ ["email"; "phone"; "linkedin"; "medium"]) as Hk
    by (right; left).
  assert (extract_contact_info "call 415-555-1234 now" !! "phone" = Some "415-555-1234")
    as Hv by (vm_compute; reflexivity).
  split; [exact Hk|]. split; [exact Hv|].
  exact (contact_values_verbatim _ _ _ Hk Hv).
Defined.

Section PhoneShape.

Lemma not_digit_open (a : ascii) : chr_matches false "(" a = true -> isdigit a = false.
Proof. unfold chr_matches. by intros <-%Ascii.eqb_eq. Qed.

Lemma not_digit_close (a : ascii) : chr_matches false ")" a = true -> isdigit a = false.
Proof. unfold chr_matches. by intros <-%Ascii.eqb_eq. Qed.

Lemma not_digit_separator (a : ascii) :
  in_chars "-." a || isspace a = true -> isdigit a = false.
Proof. destruct a as [[] [] [] [] [] [] [] []]; vm_compute; congruence. Qed.

(** An optional single character that is no digit: no digit, at most one
    character. *)
Lemma optional_nondigit (r : regex) (w : string) :
  (forall v, lang false r v -> exists a, v = String a EmptyString /\ isdigit a = false) ->
  lang false (Opt r) w -> count_digits w = 0 /\ String.length w <= 1.
Proof.
  intros Hr [->|Hw]%lang_opt_inv; [cbn; lia|].
  destruct (Hr _ Hw) as (a & -> & Ha). cbn. rewrite Ha. lia.
Qed.

Lemma digit_run (n : nat) (w : string) :
  lang false (Rep n isdigit) w -> count_digits w = n /\ String.length w = n.
Proof.
  intros [Hl Hw]%lang_rep_inv. split; [|done]. rewrite <- Hl.
  by apply count_digits_all.
Qed.

Lemma phone_shape (m : string) :
  lang false phone_re m -> count_digits m = 10 /\ 10 <= String.length m <= 14.
Proof.
  unfold phone_re.
  intros (w1 & ? & -> & H1 & (w2 & ? & -> & H2 & (w3 & ? & -> & H3 & (w4 & ? & -> & H4 &
          (w5 & ? & -> & H5 & (w6 & w7 & -> & H6 & H7)%lang_cat_inv)%lang_cat_inv
          )%lang_cat_inv)%lang_cat_inv)%lang_cat_inv)%lang_cat_inv.
  apply optional_nondigit in H1 as [? ?];
    [|intros v (a & -> & Ha)%lang_chr_inv; eauto using not_digit_open].
  apply optional_nondigit in H3 as [? ?];
    [|intros v (a & -> & Ha)%lang_chr_inv; eauto using not_digit_close].
  apply optional_nondigit in H4 as [? ?];
    [|intros v (a & -> & Ha)%lang_cls_inv; eauto using not_digit_separator].
  apply optional_nondigit in H6 as [? ?];
    [|intros v (a & -> & Ha)%lang_cls_inv; eauto using not_digit_separator].
  apply digit_run in H2 as [? ?]. apply digit_run in H5 as [? ?].
  apply digit_run in H7 as [? ?].
  rewrite !count_digits_app, !length_append. lia.
Qed.

End PhoneShape.

(** X19. A phone value holds exactly ten digits in ten to fourteen
    characters; a text with fewer than ten digits has no phone value. *)
Theorem contact_phone_digits (text : string) :
  (forall value,
     extract_contact_info text !! "phone" = Some value ->
     count_digits value = 10 /\ 10 <= String.length value <= 14)
  /\ (count_digits text < 10 -> extract_contact_info text !! "phone" = None).
Proof.
  assert (forall value,
            extract_contact_info text !! "phone" = Some value ->
            (count_digits value = 10 /\ 10 <= String.length value <= 14)
            /\ 10 <= count_digits text) as H.
  { intros value Hv. rewrite contact_phone in Hv.
    apply re_search_sound in Hv as (pre & post & -> & Hm).
    apply phone_shape in Hm as [Hd Hl]. split; [done|].
    rewrite !count_digits_app. lia. }
  split.
  - intros value Hv. by apply H.
  - intros Hlt. destruct (extract_contact_info text !! "phone") as [value|] eqn:Hv; [|done].
    destruct (H value eq_refl) as [_ Hge]. lia.
Qed.

Lemma contact_phone_digits_witness :
  (extract_contact_info "Tel. (415) 555-1234" !! "phone" = Some "(415) 555-1234"
   /\ count_digits "(415) 555-1234" = 10 /\ 10 <= String.length "(415) 555-1234" <= 14)
  /\ (count_digits "born 1990, room 12" < 10
      /\ extract_contact_info "born 1990, room 12" !! "phone" = None).
Proof.
  assert (extract_contact_info "Tel. (415) 555-1234" !! "phone" = Some "(415) 555-1234")
    as Hv by (vm_compute; reflexivity).
  assert (count_digits "born 1990, room 12" < 10) as Hlt by (vm_compute; lia).
  split; (split; [done|]).
  - exact (proj1 (contact_phone_digits "Tel. (415) 555-1234") _ Hv).
  - exact (proj2 (contact_phone_digits "born 1990, room 12") Hlt).
Defined.

Section ChannelShapes.

Lemma lower_char_is (a : ascii) (c : ascii) :
  chr_matches true c a = true -> lower_char a = lower_char c.
Proof. unfold chr_matches. by intros ->%Ascii.eqb_eq. Qed.

(** What a literal matches: itself, or itself up to letter case. *)
Lemma lang_literal (ic : bool) (s w : string) :
  lang ic (literal s) w -> if ic then lower w = lower s else w = s.
Proof.
  revert w. induction s as [|c s IH]; intros w; cbn [literal].
  - inversion 1. by destruct ic.
  - intros (w1 & w2 & -> & (a & -> & Ha)%lang_chr_inv & Hw2%IH)%lang_cat_inv.
    rewrite append_cons, append_nil_l. destruct ic.
    + cbn. by rewrite (lower_char_is _ _ Ha), Hw2.
    + unfold chr_matches in Ha. apply Ascii.eqb_eq in Ha. by subst.
Qed.

Lemma handle_char_ic (a : ascii) :
  cls_matches true (fun c => is_word c || Ascii.eqb c "-") a = is_handle_char a.
Proof. destruct a as [[] [] [] [] [] [] [] []]; reflexivity. Qed.

Lemma medium_char_ic (a : ascii) :
  cls_matches true (fun c => is_word c || in_chars ".-" c) a
  = (is_word a || in_chars ".-" a).
Proof. destruct a as [[] [] [] [] [] [] [] []]; reflexivity. Qed.

Lemma all_chars_ext (p q : ascii -> bool) (s : string) :
  (forall c, p c = q c) -> all_chars p s = all_chars q s.
Proof. intros H. induction s as [|x s IH]; [done|]. cbn. by rewrite H, IH. Qed.

Lemma local_char_nonspace (a : ascii) :
  cls_matches false (fun c => is_alnum c || in_chars "._%+-" c) a = true ->
  is_nonspace a = true.
Proof. destruct a as [[] [] [] [] [] [] [] []]; vm_compute; congruence. Qed.

Lemma domain_char_nonspace (a : ascii) :
  cls_matches false (fun c => is_alnum c || in_chars ".-" c) a = true ->
  is_nonspace a = true.
Proof. destruct a as [[] [] [] [] [] [] [] []]; vm_compute; congruence. Qed.

Lemma tld_char_nonspace (a : ascii) :
  cls_matches false (fun c => isupper c || islower c || Ascii.eqb c "|") a = true ->
  is_nonspace a = true.
Proof. destruct a as [[] [] [] [] [] [] [] []]; vm_compute; congruence. Qed.

Lemma email_shape (m : string) :
  lang false email_re m ->
  exists local domain tld,
    m = local +:+ "@" +:+ domain +:+ "." +:+ tld
    /\ local <> EmptyString /\ domain <> EmptyString /\ 2 <= String.length tld
    /\ all_chars is_nonspace m = true.
Proof.
  unfold email_re.
  intros (? & ? & -> & ->%lang_word_boundary_inv &
          (local & ? & -> & [Hl1 Hl2]%lang_one_or_more_inv &
           (? & ? & -> & (a & -> & Ha)%lang_chr_inv &
            (domain & ? & -> & [Hd1 Hd2]%lang_one_or_more_inv &
             (? & ? & -> & (b & -> & Hb)%lang_chr_inv &
              (tld & ? & -> & [Ht1 Ht2]%lang_at_least_inv & ->%lang_word_boundary_inv
              )%lang_cat_inv)%lang_cat_inv)%lang_cat_inv)%lang_cat_inv)%lang_cat_inv
         )%lang_cat_inv.
  unfold chr_matches in Ha, Hb. apply Ascii.eqb_eq in Ha, Hb. subst a b.
  exists local, domain, tld. rewrite append_nil_l, append_nil_r.
  split_and!; try done.
  apply (all_chars_impl _ is_nonspace) in Hl2; [|exact local_char_nonspace].
  apply (all_chars_impl _ is_nonspace) in Hd2; [|exact domain_char_nonspace].
  apply (all_chars_impl _ is_nonspace) in Ht2; [|exact tld_char_nonspace].
  rewrite !all_chars_app. cbn [all_chars andb]. by rewrite Hl2, Hd2, Ht2.
Qed.

Lemma linkedin_shape (m : string) :
  lang false linkedin_re m ->
  exists handle,
    m = "linkedin.com/in/" +:+ handle
    /\ handle <> EmptyString /\ all_chars is_handle_char handle = true.
Proof.
  unfold linkedin_re.
  intros (p & handle & -> & Hp%lang_literal & [Hh1 Hh2]%lang_one_or_more_inv)%lang_cat_inv.
  subst p. by exists handle.
Qed.

Lemma medium_shape (m : string) :
  lang true medium_re m ->
  exists prefix handle,
    m = prefix +:+ handle /\ lower prefix = "medium.com/@"
    /\ handle <> EmptyString
    /\ all_chars (fun c => is_word c || in_chars ".-" c) handle = true.
Proof.
  unfold medium_re.
  intros (p & handle & -> & Hp%lang_literal & [Hh1 Hh2]%lang_one_or_more_inv)%lang_cat_inv.
  exists p, handle. split_and!; [done | done | done |].
  by rewrite <- (all_chars_ext _ _ _ medium_char_ic).
Qed.

Lemma github_shape (m : string) :
  lang true github_re m ->
  exists prefix handle,
    m = prefix +:+ handle
    /\ (lower prefix = "github.com/" \/ lower prefix = "github: ")
    /\ handle <> EmptyString /\ all_chars is_handle_char handle = true.
Proof.
  unfold github_re.
  intros (p & handle & -> & [Hp%lang_literal|Hp%lang_literal]%lang_alt_inv
          & [Hh1 Hh2]%lang_one_or_more_inv)%lang_cat_inv;
    exists p, handle; (split_and!; [done | by auto | done |]);
    by rewrite <- (all_chars_ext _ _ _ handle_char_ic).
Qed.

End ChannelShapes.

Section SubstringFacts.

Lemma contains_inner (pre a m b post : string) :
  contains m (pre +:+ (a +:+ m +:+ b) +:+ post) = true.
Proof.
  replace (pre +:+ (a +:+ m +:+ b) +:+ post) with ((pre +:+ a) +:+ m +:+ (b +:+ post))
    by (by rewrite !append_assoc).
  apply contains_app.
Qed.

Lemma lower_snoc (s : string) (c : ascii) :
  forall w, lower w = s +:+ String c EmptyString ->
            exists w' a, w = w' +:+ String a EmptyString /\ lower w' = s /\ lower_char a = c.
Proof.
  induction s as [|x s IH]; intros w.
  - rewrite append_nil_l. destruct w as [|a [|b w]]; cbn; try done.
    intros [= Ha]. by exists EmptyString, a.
  - rewrite append_cons. destruct w as [|a w]; cbn [lower]; [done|].
    intros [= Ha Hw]. destruct (IH _ Hw) as (w' & b & -> & Hw' & Hb).
    exists (String a w'), b. rewrite append_cons. cbn [lower]. by rewrite Ha, Hw'.
Qed.

Lemma lower_char_at (a : ascii) : lower_char a = "@"%char -> a = "@"%char.
Proof. destruct a as [[] [] [] [] [] [] [] []]; vm_compute; congruence. Qed.

Lemma lower_char_slash (a : ascii) : lower_char a = "/"%char -> a = "/"%char.
Proof. destruct a as [[] [] [] [] [] [] [] []]; vm_compute; congruence. Qed.

Lemma lower_char_not_slash (a : ascii) :
  negb (Ascii.eqb (lower_char a) "/") = true -> negb (Ascii.eqb a "/") = true.
Proof. destruct a as [[] [] [] [] [] [] [] []]; vm_compute; congruence. Qed.

Lemma lower_no_slash (w : string) :
  all_chars (fun c => negb (Ascii.eqb c "/")) (lower w) = true ->
  all_chars (fun c => negb (Ascii.eqb c "/")) w = true.
Proof.
  induction w as [|a w IH]; [done|]. cbn.
  intros [Ha Hw]%andb_true_iff. by rewrite (lower_char_not_slash _ Ha), IH.
Qed.

Lemma handle_char_plain (a : ascii) :
  is_handle_char a = true -> negb (Ascii.eqb a "/") = true /\ is_nonspace a = true.
Proof. destruct a as [[] [] [] [] [] [] [] []]; vm_compute; split; congruence. Qed.

Lemma split_no_sep (sep : ascii) (s : string) :
  all_chars (fun c => negb (Ascii.eqb c sep)) s = true -> split sep s = [s].
Proof.
  induction s as [|a s IH]; [done|]. cbn [all_chars split].
  intros [Ha Hs]%andb_true_iff. apply negb_true_iff in Ha. by rewrite Ha, IH.
Qed.

Lemma rstrip_all_nonspace (s : string) :
  all_chars is_nonspace s = true -> rstrip s = s.
Proof.
  induction s as [|a s IH]; [done|]. cbn [all_chars rstrip].
  intros [Ha Hs]%andb_true_iff. rewrite IH by done.
  unfold is_nonspace in Ha. apply negb_true_iff in Ha. rewrite Ha. by destruct s.
Qed.

Lemma rstrip_app_nonspace (a b : string) :
  b <> EmptyString -> all_chars is_nonspace b = true -> rstrip (a +:+ b) = a +:+ b.
Proof.
  intros Hb Hn. induction a as [|x a IH].
  - rewrite append_nil_l. by apply rstrip_all_nonspace.
  - rewrite append_cons. cbn [rstrip]. rewrite IH.
    destruct (a +:+ b) eqn:Hab; [|done].
    destruct a; [by rewrite append_nil_l in Hab | done].
Qed.

Lemma strip_all_nonspace (s : string) : all_chars is_nonspace s = true -> strip s = s.
Proof.
  intros H. unfold strip.
  assert (lstrip s = s) as ->; [|by apply rstrip_all_nonspace].
  destruct s as [|a s]; [done|]. cbn in *.
  apply andb_true_iff in H as [Ha _]. unfold is_nonspace in Ha.
  apply negb_true_iff in Ha. by rewrite Ha.
Qed.

End SubstringFacts.

(** X20. An email value has the form local@domain.tld with a non-empty
    local part and domain and a last part of at least two characters, and
    holds no whitespace; a text without the character @ has neither an
    email nor a medium value. *)
Theorem contact_email_shape (text : string) :
  (forall value,
     extract_contact_info text !! "email" = Some value ->
     exists local domain tld,
       value = local +:+ "@" +:+ domain +:+ "." +:+ tld
       /\ local <> EmptyString /\ domain <> EmptyString /\ 2 <= String.length tld
       /\ all_chars is_nonspace value = true)
  /\ (contains "@" text = false ->
      extract_contact_info text !! "email" = None
      /\ extract_contact_info text !! "medium" = None).
Proof.
  split.
  - intros value Hv. rewrite contact_email in Hv.
    apply re_search_sound in Hv as (pre & post & _ & Hm). by apply email_shape.
  - intros Hno. split.
    + destruct (extract_contact_info text !! "email") as [value|] eqn:Hv; [|done].
      rewrite contact_email in Hv.
      apply re_search_sound in Hv as (pre & post & -> & Hm).
      apply email_shape in Hm as (l & d & t & -> & _).
      by rewrite (contains_inner pre l "@" (d +:+ "." +:+ t) post) in Hno.
    + destruct (extract_contact_info text !! "medium") as [value|] eqn:Hv; [|done].
      rewrite contact_medium in Hv.
      apply re_search_sound in Hv as (pre & post & -> & Hm).
      apply medium_shape in Hm as (p & h & -> & Hp & _).
      apply (lower_snoc "medium.com/" "@") in Hp as (p' & a & -> & _ & ->%lower_char_at).
      rewrite (append_assoc p' "@" h) in Hno.
      by rewrite (contains_inner pre p' "@" h post) in Hno.
Qed.

Lemma contact_email_shape_witness :
  (extract_contact_info "Mail jane.doe@example.com." !! "email" = Some "jane.doe@example.com"
   /\ exists local domain tld,
        "jane.doe@example.com" = local +:+ "@" +:+ domain +:+ "." +:+ tld
        /\ local <> EmptyString /\ domain <> EmptyString /\ 2 <= String.length tld
        /\ all_chars is_nonspace "jane.doe@example.com" = true)
  /\ (contains "@" "medium.com/jane, jane.doe at example.com" = false
      /\ extract_contact_info "medium.com/jane, jane.doe at example.com" !! "email" = None
      /\ extract_contact_info "medium.com/jane, jane.doe at example.com" !! "medium" = None).
Proof.
  assert (extract_contact_info "Mail jane.doe@example.com." !! "email"
          = Some "jane.doe@example.com") as Hv by (vm_compute; reflexivity).
  assert (contains "@" "medium.com/jane, jane.doe at example.com" = false) as Hno
    by (vm_compute; reflexivity).
  split; (split; [done|]).
  - exact (proj1 (contact_email_shape "Mail jane.doe@example.com.") _ Hv).
  - exact (proj2 (contact_email_shape "medium.com/jane, jane.doe at example.com") Hno).
Defined.

(** X21. A github value is the handle alone when the text has the form
    github.com/handle, but the whole match, marker included, when the text
    has the form "github: handle": without a slash in the match, the split
    of line 59 returns the match itself. The marker is found whatever its
    letter case, and the handle is a non-empty run of word characters and
    hyphens. *)
Theorem contact_github_value (text value : string) :
  extract_contact_info text !! "github" = Some value ->
  exists prefix handle pre post,
    text = pre +:+ (prefix +:+ handle) +:+ post
    /\ handle <> EmptyString /\ all_chars is_handle_char handle = true
    /\ ((lower prefix = "github.com/" /\ value = handle)
        \/ (lower prefix = "github: " /\ value = prefix +:+ handle)).
Proof.
  rewrite contact_github.
  destruct (re_search true github_re text) as [m|] eqn:Hs; [|done].
  cbn. intros [= <-].
  apply re_search_sound in Hs as (pre & post & -> & Hm).
  apply github_shape in Hm as (p & h & -> & Hp & Hh1 & Hh2).
  exists p, h, pre, post. split_and!; [done | done | done |].
  assert (all_chars (fun c => negb (Ascii.eqb c "/")) h = true) as Hslash
    by (eapply all_chars_impl; [|exact Hh2]; intros c Hc; by apply handle_char_plain).
  assert (all_chars is_nonspace h = true) as Hspace
    by (eapply all_chars_impl; [|exact Hh2]; intros c Hc; by apply handle_char_plain).
  destruct Hp as [Hp|Hp]; [left | right]; (split; [done|]).
  - apply (lower_snoc "github.com" "/") in Hp as (p' & a & -> & Hp' & ->%lower_char_slash).
    rewrite (append_assoc p' "/" h), append_cons, append_nil_l, split_app.
    rewrite (split_no_sep _ p'), (split_no_sep _ h)
      by (done || by apply lower_no_slash; rewrite Hp').
    cbn. by apply strip_all_nonspace.
  - assert (all_chars (fun c => negb (Ascii.eqb c "/")) p = true) as Hps
      by (by apply lower_no_slash; rewrite Hp).
    rewrite split_no_sep by (by rewrite all_chars_app, Hps, Hslash).
    cbn [last_item last]. unfold strip.
    destruct p as [|a p]; [done|]. cbn [lower] in Hp. injection Hp as Ha Hp.
    rewrite append_cons. cbn [lstrip].
    assert (isspace a = false) as ->.
    { destruct a as [[] [] [] [] [] [] [] []]; vm_compute in Ha |- *; congruence. }
    rewrite <- append_cons. by apply rstrip_app_nonspace.
Qed.

Lemma contact_github_value_witness :
  extract_contact_info "Code: GitHub: jdoe-x (see also github.com/other)" !! "github"
    = Some "GitHub: jdoe-x"
  /\ exists prefix handle pre post,
       "Code: GitHub: jdoe-x (see also github.com/other)"
         = pre +:+ (prefix +:+ handle) +:+ post
       /\ handle <> EmptyString /\ all_chars is_handle_char handle = true
       /\ ((lower prefix = "github.com/" /\ "GitHub: jdoe-x" = handle)
           \/ (lower prefix = "github: " /\ "GitHub: jdoe-x" = prefix +:+ handle)).
Proof.
  assert (extract_contact_info "Code: GitHub: jdoe-x (see also github.com/other)" !! "github"
          = Some "GitHub: jdoe-x") as Hv by (vm_compute; reflexivity).
  split; [exact Hv|].
  exact (contact_github_value _ _ Hv).
Defined.

Section SearchComplete.

Lemma many_from_nonempty (ic : bool) (p : ascii -> bool) (before : option ascii) (s : string) :
  many_from ic p before s <> [].
Proof.
  destruct s as [|a s]; cbn; [done|].
  destruct (cls_matches ic p a); [|done]. by destruct (many_from ic p (Some a) s).
Qed.

Lemma matches_literal (s t : string) :
  forall before, exists before', matches_from false (literal s) (before, s +:+ t) = [(before', t)].
Proof.
  induction s as [|c s IH]; intros before.
  - by exists before.
  - rewrite append_cons. cbn [literal matches_from snd].
    unfold chr_matches. rewrite Ascii.eqb_refl. cbn [flat_map].
    destruct (IH (Some c)) as [b' ->]. by exists b'.
Qed.

Lemma search_from_complete (ic : bool) (r : regex) (t : string) :
  (forall before, matches_from ic r (before, t) <> []) ->
  forall pre before, search_from ic r before (pre +:+ t) <> None.
Proof.
  intros Ht. induction pre as [|a pre IH]; intros before.
  - rewrite append_nil_l. specialize (Ht before).
    destruct t; cbn [search_from];
      by destruct (matches_from ic r _) as [|[b rest] l].
  - rewrite append_cons. cbn [search_from].
    destruct (matches_from ic r _) as [|[b rest] l]; [apply IH | done].
Qed.

Lemma linkedin_matches_here (c : ascii) (post : string) (before : option ascii) :
  is_handle_char c = true ->
  matches_from false linkedin_re (before, "linkedin.com/in/" +:+ String c post) <> [].
Proof.
  intros Hc. unfold linkedin_re. cbn [matches_from].
  destruct (matches_literal "linkedin.com/in/" (String c post) before) as [b' ->].
  cbn [flat_map one_or_more matches_from snd]. unfold cls_matches.
  unfold is_handle_char in Hc. rewrite Hc. cbn [flat_map fst snd].
  rewrite !app_nil_r. apply many_from_nonempty.
Qed.

End SearchComplete.

(** X22. The linkedin marker is matched in lower case only. A linkedin
    value is "linkedin.com/in/" followed by a non-empty handle of word
    characters and hyphens, and the text has one exactly when it holds that
    marker, so spelled, followed by a word character or a hyphen. *)
Theorem contact_linkedin_iff (text : string) :
  (forall value,
     extract_contact_info text !! "linkedin" = Some value ->
     exists handle,
       value = "linkedin.com/in/" +:+ handle
       /\ handle <> EmptyString /\ all_chars is_handle_char handle = true)
  /\ (is_Some (extract_contact_info text !! "linkedin") <->
      exists pre c post,
        text = pre +:+ "linkedin.com/in/" +:+ String c post /\ is_handle_char c = true).
Proof.
  rewrite contact_linkedin. split; [|split].
  - intros value Hv. apply re_search_sound in Hv as (pre & post & _ & Hm).
    by apply linkedin_shape.
  - intros [value Hv]. apply re_search_sound in Hv as (pre & post & -> & Hm).
    apply linkedin_shape in Hm as (h & -> & Hh1 & Hh2).
    destruct h as [|c h]; [done|]. cbn in Hh2. apply andb_true_iff in Hh2 as [Hc _].
    exists pre, c, (h +:+ post). split; [|done].
    by rewrite (append_assoc "linkedin.com/in/"), append_cons.
  - intros (pre & c & post & -> & Hc).
    pose proof (search_from_complete false linkedin_re
                  ("linkedin.com/in/" +:+ String c post)
                  (fun before => linkedin_matches_here c post before Hc) pre None) as H.
    unfold re_search. by destruct (search_from _ _ _ _).
Qed.

Lemma contact_linkedin_iff_witness :
  extract_contact_info "See LinkedIn.com/in/jane or linkedin.com/in/j-doe." !! "linkedin"
    = Some "linkedin.com/in/j-doe"
  /\ exists handle,
       "linkedin.com/in/j-doe" = "linkedin.com/in/" +:+ handle
       /\ handle <> EmptyString /\ all_chars is_handle_char handle = true.
Proof.
  assert (extract_contact_info "See LinkedIn.com/in/jane or linkedin.com/in/j-doe."
            !! "linkedin" = Some "linkedin.com/in/j-doe") as Hv
    by (vm_compute; reflexivity).
  split; [exact Hv|].
  exact (proj1 (contact_linkedin_iff _) _ Hv).
Defined.

(** ** The full name *)

Section FullName.

Lemma find_person_none (entities : list Span) :
  Forall (fun ent => label_ ent <> "PERSON") entities ->
  find (fun ent => String.eqb (label_ ent) "PERSON") entities = None.
Proof.
  induction 1 as [|ent rest Hl _ IH]; [done|]. cbn.
  by destruct (String.eqb_spec (label_ ent) "PERSON").
Qed.

Lemma find_person_first (pre post : list Span) (person : Span) :
  Forall (fun ent => label_ ent <> "PERSON") pre ->
  label_ person = "PERSON" ->
  find (fun ent => String.eqb (label_ ent) "PERSON") (pre ++ person :: post) = Some person.
Proof.
  intros Hpre Hp. induction Hpre as [|ent rest Hl _ IH]; cbn.
  - by rewrite Hp.
  - by destruct (String.eqb_spec (label_ ent) "PERSON").
Qed.

Lemma words_from_ok (s : string) :
  all_chars is_nonspace (words_from s).1 = true
  /\ Forall (fun w => w <> EmptyString /\ all_chars is_nonspace w = true) (words_from s).2.
Proof.
  induction s as [|c s [IHw IHws]]; [by split|]. cbn [words_from].
  destruct (words_from s) as [w ws]. cbn [fst snd] in *.
  destruct (isspace c) eqn:Hc; cbn [fst snd].
  - split; [done|]. destruct w as [|a w]; cbn [truthy]; [done|].
    by constructor.
  - split; [|done]. cbn. unfold is_nonspace at 1. by rewrite Hc.
Qed.

Lemma words_ok (s : string) :
  Forall (fun w => w <> EmptyString /\ all_chars is_nonspace w = true) (words s).
Proof.
  unfold words. destruct (words_from_ok s) as [Hw Hws].
  destruct (words_from s) as [w ws]. cbn [fst snd] in *.
  destruct w as [|a w]; cbn [truthy]; [done|]. by constructor.
Qed.

(** Without the character @ there is nothing to delete. *)
Lemma sub_from_no_at (s : string) :
  forall before,
    contains "@" s = false -> sub_from false email_like_re 0 before s = s.
Proof.
  induction s as [|a s IH]; intros before Hno; [done|]. cbn [sub_from].
  destruct (matches_from false email_like_re (before, String a s)) as [|[b rest] l] eqn:Hm.
  - rewrite IH; [done|]. cbn [contains] in Hno. by apply orb_false_iff in Hno as [_ Hno].
  - destruct (first_match_sound false _ _ _ _ _ _ Hm) as (post & Hs & Hw).
    unfold email_like_re in Hw.
    apply lang_cat_inv in Hw as (l1 & ? & Hmt & _ & (? & r1 & -> & (c & -> & Hc)%lang_chr_inv
                               & _)%lang_cat_inv).
    unfold chr_matches in Hc. apply Ascii.eqb_eq in Hc. subst c.
    rewrite Hmt in Hs. rewrite Hs in Hno.
    assert (contains "@" ((l1 +:+ "@" +:+ r1) +:+ post) = true) as Hyes
      by exact (contains_inner EmptyString l1 "@" r1 post).
    congruence.
Qed.

End FullName.

(** X23. The full name is "Unknown" when the document has no PERSON
    entity; otherwise it is read from the first PERSON entity alone, whatever
    entities come before or after it. *)
Theorem full_name_first_person (doc : Doc) :
  (Forall (fun ent => label_ ent <> "PERSON") (ents doc) ->
   extract_full_name doc = "Unknown")
  /\ (forall pre person post,
        ents doc = pre ++ person :: post ->
        Forall (fun ent => label_ ent <> "PERSON") pre ->
        label_ person = "PERSON" ->
        extract_full_name doc
        = join " " (words (re_sub_delete false email_like_re (text person)))).
Proof.
  unfold extract_full_name. split.
  - intros H. by rewrite find_person_none.
  - intros pre person post -> Hpre Hp. by rewrite find_person_first.
Qed.

Lemma full_name_first_person_witness :
  (Forall (fun ent => label_ ent <> "PERSON") (ents acme_doc)
   /\ extract_full_name acme_doc = "Unknown")
  /\ (ents (mkDoc [] [mkSpan "2020" "DATE" 0 1; mkSpan "Jane  Doe" "PERSON" 1 3;
                      mkSpan "John Roe" "PERSON" 5 7] [] [])
        = [mkSpan "2020" "DATE" 0 1] ++ mkSpan "Jane  Doe" "PERSON" 1 3
          :: [mkSpan "John Roe" "PERSON" 5 7]
      /\ extract_full_name
           (mkDoc [] [mkSpan "2020" "DATE" 0 1; mkSpan "Jane  Doe" "PERSON" 1 3;
                      mkSpan "John Roe" "PERSON" 5 7] [] [])
         = join " " (words (re_sub_delete false email_like_re "Jane  Doe"))).
Proof.
  assert (Forall (fun ent => label_ ent <> "PERSON") (ents acme_doc)) as H1
    by (repeat constructor; discriminate).
  split; (split; [done|]).
  - exact (proj1 (full_name_first_person acme_doc) H1).
  - apply (proj2 (full_name_first_person _) [mkSpan "2020" "DATE" 0 1]
                 (mkSpan "Jane  Doe" "PERSON" 1 3) [mkSpan "John Roe" "PERSON" 5 7]).
    + reflexivity.
    + repeat constructor; discriminate.
    + reflexivity.
Defined.

(** X24. The full name is always a sequence of non-empty words without
    whitespace, joined by single blanks: it has no leading, trailing or
    doubled blank, and no tab or line break. *)
Theorem full_name_normalised (doc : Doc) :
  exists ws,
    extract_full_name doc = join " " ws
    /\ Forall (fun w => w <> EmptyString /\ all_chars is_nonspace w = true) ws.
Proof.
  unfold extract_full_name.
  destruct (find _ (ents doc)) as [person|].
  - eexists. split; [reflexivity | apply words_ok].
  - exists ["Unknown"]. split; [done|]. by repeat constructor.
Qed.

(** X25. When the text of the first PERSON entity holds no @, nothing is
    removed from it: the full name is its words joined by single blanks. *)
Theorem full_name_without_at (doc : Doc) (pre post : list Span) (person : Span) :
  ents doc = pre ++ person :: post ->
  Forall (fun ent => label_ ent <> "PERSON") pre ->
  label_ person = "PERSON" ->
  contains "@" (text person) = false ->
  extract_full_name doc = join " " (words (text person)).
Proof.
  intros Hents Hpre Hp Hno. unfold extract_full_name.
  rewrite Hents, find_person_first by done.
  unfold re_sub_delete. by rewrite sub_from_no_at.
Qed.

Lemma full_name_without_at_witness :
  extract_full_name (mkDoc [] [mkSpan "2020" "DATE" 0 1; mkSpan " Jane   Doe " "PERSON" 1 3]
                           [] [])
  = join " " (words " Jane   Doe ").
Proof.
  apply (full_name_without_at _ [mkSpan "2020" "DATE" 0 1] []
                              (mkSpan " Jane   Doe " "PERSON" 1 3)).
  - reflexivity.
  - repeat constructor; discriminate.
  - reflexivity.
  - reflexivity.
Defined.

(** ** The assembled record *)

(** X26. Assembling the record never raises: the education extractor is
    given the document, and its lines are then the texts of the tokens that
    are no whitespace tokens. With no PERSON entity and no line or sentence
    that opens a section, the record holds the defaults of each extractor
    next to the contact channels and the skills. *)
Theorem parse_resume_returns (text : string) (doc : Doc) (skills_list : list string) :
  (exists record,
     parse_resume text doc skills_list = Ok record
     /\ extract_education_lines
          (tok_text <$> filter (fun token => is_space token = false) (tokens doc))
        = Ok (education_entries record))
  /\ (Forall (fun ent => label_ ent <> "PERSON" /\ label_ ent <> "ORG") (ents doc) ->
      Forall (fun sent => is_summary_trigger sent = false) (sents doc) ->
      Forall (fun token => not_education_header (tok_text token)) (tokens doc) ->
      Forall (fun line => is_awards_keyword_line line = false
                          /\ is_header_line "projects" line = false) (split LF text) ->
      parse_resume text doc skills_list
      = Ok (mkResume "Unknown" (extract_contact_info text) EmptyString
                     (extract_skills doc skills_list) [] [] [] [])).
Proof.
  split.
  - unfold parse_resume, extract_education. cbn [education_lines bind].
    destruct (extract_education_lines_ok
                (tok_text <$> filter (fun token => is_space token = false) (tokens doc)))
      as [entries ->].
    cbn [bind]. by eexists.
  - intros Hents Hsents Htok Hlines. unfold parse_resume.
    assert (extract_full_name doc = "Unknown") as ->.
    { unfold extract_full_name. rewrite find_person_none; [done|].
      eapply Forall_impl; [exact Hents|]. by intros ent [? _]. }
    assert (extract_summary doc = EmptyString) as ->.
    { unfold extract_summary. by rewrite summary_loop_outside. }
    assert (extract_work_experience doc = []) as ->.
    { pose proof (work_loop_count doc (ents doc) [] ∅ (or_introl eq_refl)) as [Hc _].
      unfold extract_work_experience.
      assert (count_label "ORG" (ents doc) = 0) as H0.
      { unfold count_label. rewrite (filter_none label_ "ORG"); [done|].
        rewrite Forall_forall in Hents. intros ent Hin. by apply Hents. }
      rewrite H0, bound_empty in Hc. cbn [length] in Hc.
      destruct (work_loop doc (ents doc) ([], ∅)).1 as [|e l]; [done|]. cbn in Hc. lia. }
    assert (extract_education (InDoc doc) = Ok []) as ->.
    { unfold extract_education. cbn [education_lines bind].
      unfold extract_education_lines. rewrite edu_loop_outside; [done | done |].
      apply Forall_fmap. rewrite Forall_forall in Htok |- *.
      intros token Hin. apply list_elem_of_filter in Hin as [_ Hin]. by apply Htok. }
    cbn [bind].
    assert (extract_awards_and_certifications text = []) as ->.
    { rewrite extract_awards_pipeline, after_first_none; [done|].
      eapply Forall_impl; [exact Hlines|]. by intros line [? _]. }
    assert (extract_projects text = []) as ->; [|done].
    unfold extract_projects. rewrite extract_section_pipeline, after_first_none; [done|].
    eapply Forall_impl; [exact Hlines|]. by intros line [_ ?].
Qed.

Lemma parse_resume_returns_witness :
  Forall (fun ent => label_ ent <> "PERSON" /\ label_ ent <> "ORG") (ents javascript_doc)
  /\ Forall (fun sent => is_summary_trigger sent = false) (sents javascript_doc)
  /\ Forall (fun token => not_education_header (tok_text token)) (tokens javascript_doc)
  /\ Forall (fun line => is_awards_keyword_line line = false
                         /\ is_header_line "projects" line = false)
            (split LF (unlines ["JavaScript and MATLAB"; "call 415-555-1234"]))
  /\ parse_resume (unlines ["JavaScript and MATLAB"; "call 415-555-1234"]) javascript_doc
                  ["MATLAB"; "Rocq"]
     = Ok (mkResume "Unknown"
             (extract_contact_info (unlines ["JavaScript and MATLAB"; "call 415-555-1234"]))
             EmptyString (extract_skills javascript_doc ["MATLAB"; "Rocq"]) [] [] [] []).
Proof.
  assert (Forall (fun ent => label_ ent <> "PERSON" /\ label_ ent <> "ORG")
                 (ents javascript_doc)) as H1 by constructor.
  assert (Forall (fun sent => is_summary_trigger sent = false) (sents javascript_doc))
    as H2 by constructor.
  assert (Forall (fun token => not_education_header (tok_text token))
                 (tokens javascript_doc)) as H3 by forall_by_compute.
  assert (Forall (fun line => is_awards_keyword_line line = false
                              /\ is_header_line "projects" line = false)
                 (split LF (unlines ["JavaScript and MATLAB"; "call 415-555-1234"])))
    as H4.
  { change (split LF (unlines ["JavaScript and MATLAB"; "call 415-555-1234"]))
      with ["JavaScript and MATLAB"; "call 415-555-1234"].
    repeat (apply Forall_cons; split; [split; vm_compute; reflexivity|]). constructor. }
  split_and!; [exact H1 | exact H2 | exact H3 | exact H4 |].
  exact (proj2 (parse_resume_returns _ javascript_doc ["MATLAB"; "Rocq"]) H1 H2 H3 H4).
Defined.

(** ** The full name: which words are removed *)

Section EmailLikeMatches.

(** The matches of [@\S+] from the positions where a run [\S*] can end. *)
Local Abbreviation tails before s :=
  (flat_map (matches_from false (Cat (Chr "@") (one_or_more is_nonspace)))
            (many_from false is_nonspace before s)).

Lemma many_from_head (s : string) :
  forall before, exists b l, many_from false is_nonspace before s = (b, after_word s) :: l.
Proof.
  induction s as [|a s IH]; intros before; cbn [many_from after_word cls_matches].
  - by eexists _, _.
  - destruct (is_nonspace a); [|by eexists _, _].
    destruct (IH (Some a)) as (b & l & ->). by eexists _, _.
Qed.

Lemma space_not_at (a : ascii) : is_nonspace a = false -> Ascii.eqb "@" a = false.
Proof. destruct a as [[] [] [] [] [] [] [] []]; vm_compute; congruence. Qed.

Lemma at_gap_after_word (s : string) : at_gap (after_word s) = true.
Proof.
  induction s as [|a s IH]; [done|]. cbn [after_word]. unfold is_nonspace.
  destruct (isspace a) eqn:Ha; cbn [negb]; [by cbn; rewrite Ha | done].
Qed.

Lemma has_inner_at_gap (s : string) : at_gap s = true -> has_inner_at (head_word s) = false.
Proof.
  destruct s as [|a s]; [done|]. cbn. unfold is_nonspace. by intros ->.
Qed.

Lemma head_word_truthy (s : string) : truthy (head_word s) = negb (at_gap s).
Proof.
  destruct s as [|a s]; [done|]. cbn. unfold is_nonspace. by destruct (isspace a).
Qed.

Lemma one_or_more_from (before : option ascii) (s : string) :
  matches_from false (one_or_more is_nonspace) (before, s)
  = match s with
    | String d s' => if is_nonspace d then many_from false is_nonspace (Some d) s' else []
    | EmptyString => []
    end.
Proof.
  cbn [matches_from one_or_more snd]. destruct s as [|d s]; [done|].
  cbn [cls_matches]. destruct (is_nonspace d); [|done].
  cbn [flat_map matches_from fst snd]. by rewrite app_nil_r.
Qed.

Lemma at_then_word_from (before : option ascii) (a : ascii) (s : string) :
  matches_from false (Cat (Chr "@") (one_or_more is_nonspace)) (before, String a s)
  = if Ascii.eqb "@" a
    then matches_from false (one_or_more is_nonspace) (Some a, s)
    else [].
Proof.
  cbn [matches_from snd chr_matches]. destruct (Ascii.eqb "@" a); [|done].
  cbn [flat_map]. by rewrite app_nil_r.
Qed.

Lemma flat_map_one {A B : Type} (f : A -> list B) (x : A) : flat_map f [x] = f x.
Proof. cbn. by rewrite app_nil_r. Qed.

Lemma tails_spec (s : string) :
  forall before,
    if has_inner_at (head_word s)
    then exists b l, tails before s = (b, after_word s) :: l
    else tails before s = [].
Proof.
  induction s as [|a s IH]; intros before; [done|].
  cbn [many_from head_word after_word cls_matches].
  destruct (is_nonspace a) eqn:Ha.
  - rewrite flat_map_app, flat_map_one, at_then_word_from, one_or_more_from.
    cbn [has_inner_at]. specialize (IH (Some a)).
    rewrite head_word_truthy, Ascii.eqb_sym.
    destruct (has_inner_at (head_word s)) eqn:Hin.
    + destruct IH as (b & l & ->). rewrite orb_true_r. by eexists _, _.
    + rewrite IH, orb_false_r. cbn [app].
      destruct (Ascii.eqb "@" a); cbn [andb]; [|done].
      destruct s as [|d s]; [done|]. cbn [at_gap after_word].
      change (negb (isspace d)) with (is_nonspace d).
      destruct (is_nonspace d); [apply many_from_head | done].
  - rewrite flat_map_one, at_then_word_from. by rewrite (space_not_at _ Ha).
Qed.

(** Where the first match of [\S+@\S+] from a position ends: after the
    word at that position, when that word is email-like; no match
    otherwise. *)
Lemma email_like_match (s : string) (before : option ascii) :
  if is_email_like (head_word s)
  then exists b l, matches_from false email_like_re (before, s) = (b, after_word s) :: l
  else matches_from false email_like_re (before, s) = [].
Proof.
  unfold email_like_re. cbn [matches_from]. rewrite one_or_more_from.
  destruct s as [|c s]; [done|]. cbn [head_word after_word].
  destruct (is_nonspace c); [|done]. cbn [is_email_like].
  apply tails_spec.
Qed.

End EmailLikeMatches.

Section EmailLikeRemoval.

Lemma head_after_word (s : string) : s = head_word s +:+ after_word s.
Proof.
  induction s as [|a s IH]; [done|]. cbn [head_word after_word].
  destruct (is_nonspace a); [|done]. by rewrite append_cons, <- IH.
Qed.

Lemma head_word_nonspace (s : string) : all_chars is_nonspace (head_word s) = true.
Proof.
  induction s as [|a s IH]; [done|]. cbn [head_word].
  destruct (is_nonspace a) eqn:Ha; [|done]. cbn. by rewrite Ha.
Qed.

Lemma length_head_after (s : string) :
  String.length s = String.length (head_word s) + String.length (after_word s).
Proof. rewrite (head_after_word s) at 1. apply length_append. Qed.

Lemma sub_skip (u rest : string) :
  forall before,
    exists b, sub_from false email_like_re (String.length u) before (u +:+ rest)
              = sub_from false email_like_re 0 b rest.
Proof.
  induction u as [|c u IH]; intros before; [by exists before|].
  rewrite append_cons. cbn [String.length sub_from]. apply IH.
Qed.

Lemma sub_at_space (a : ascii) (r : string) (before : option ascii) :
  isspace a = true ->
  sub_from false email_like_re 0 before (String a r)
  = String a (sub_from false email_like_re 0 (Some a) r).
Proof.
  intros Ha. cbn [sub_from].
  pose proof (email_like_match (String a r) before) as Hm.
  cbn [head_word] in Hm. unfold is_nonspace in Hm. rewrite Ha in Hm.
  cbn [negb is_email_like] in Hm. by rewrite Hm.
Qed.

(** Inside a word without an inner @ nothing matches: the rest of the
    word is copied. *)
Lemma sub_keep_tail (s : string) :
  forall before,
    has_inner_at (head_word s) = false ->
    exists b, sub_from false email_like_re 0 before s
              = head_word s +:+ sub_from false email_like_re 0 b (after_word s).
Proof.
  induction s as [|c s IH]; intros before Hin; [by exists before|].
  pose proof (email_like_match (String c s) before) as Hm.
  cbn [head_word after_word] in *. destruct (is_nonspace c) eqn:Hc; [|by exists before].
  cbn [has_inner_at is_email_like] in *. apply orb_false_iff in Hin as [_ Hin].
  rewrite Hin in Hm. cbn [sub_from]. rewrite Hm.
  destruct (IH (Some c) Hin) as [b ->]. by eexists.
Qed.

Lemma sub_at_word_keep (s : string) (before : option ascii) :
  is_email_like (head_word s) = false ->
  exists b, sub_from false email_like_re 0 before s
            = head_word s +:+ sub_from false email_like_re 0 b (after_word s).
Proof.
  intros Hw. pose proof (email_like_match s before) as Hm. rewrite Hw in Hm.
  destruct s as [|c s]; [by exists before|].
  cbn [head_word after_word] in *. destruct (is_nonspace c) eqn:Hc; [|by exists before].
  cbn [is_email_like] in Hw. cbn [sub_from]. rewrite Hm.
  destruct (sub_keep_tail s (Some c) Hw) as [b ->]. by eexists.
Qed.

Lemma sub_at_word_delete (s : string) (before : option ascii) :
  is_email_like (head_word s) = true ->
  exists b, sub_from false email_like_re 0 before s
            = sub_from false email_like_re 0 b (after_word s).
Proof.
  intros Hw. pose proof (email_like_match s before) as Hm. rewrite Hw in Hm.
  destruct Hm as (b' & l & Hm).
  destruct s as [|c s]; [done|].
  cbn [sub_from]. rewrite Hm.
  cbn [head_word after_word] in *. destruct (is_nonspace c) eqn:Hc; [|done].
  replace (String.length (String c s) - String.length (after_word s))
    with (S (String.length (head_word s)))
    by (cbn [String.length]; rewrite (length_head_after s); lia).
  destruct (sub_skip (head_word s) (after_word s) (Some c)) as [b Hb].
  rewrite <- head_after_word in Hb. by exists b.
Qed.

Lemma sub_gap (s : string) (before : option ascii) :
  at_gap s = true -> at_gap (sub_from false email_like_re 0 before s) = true.
Proof.
  destruct s as [|a r]; [done|]. cbn [at_gap]. intros Ha.
  by rewrite sub_at_space.
Qed.

Lemma words_from_word (u rest : string) :
  all_chars is_nonspace u = true ->
  words_from (u +:+ rest) = (u +:+ (words_from rest).1, (words_from rest).2).
Proof.
  induction u as [|c u IH]; intros Hu.
  - rewrite !append_nil_l. by destruct (words_from rest).
  - cbn [all_chars] in Hu. apply andb_true_iff in Hu as [Hc Hu].
    rewrite !append_cons. cbn [words_from]. rewrite (IH Hu).
    unfold is_nonspace in Hc. apply negb_true_iff in Hc. by rewrite Hc.
Qed.

Lemma words_from_gap (s : string) : at_gap s = true -> (words_from s).1 = EmptyString.
Proof.
  destruct s as [|a r]; [done|]. cbn [at_gap words_from]. intros ->.
  by destruct (words_from r).
Qed.

Lemma words_at_gap (s : string) : at_gap s = true -> words s = (words_from s).2.
Proof.
  intros H. unfold words. pose proof (words_from_gap s H) as Hw.
  destruct (words_from s) as [w ws]. cbn [fst snd] in *. by subst w.
Qed.

Lemma words_word (u rest : string) :
  all_chars is_nonspace u = true -> u <> EmptyString -> at_gap rest = true ->
  words (u +:+ rest) = u :: words rest.
Proof.
  intros Hu Hne Hg. rewrite (words_at_gap rest Hg). unfold words.
  rewrite (words_from_word u rest Hu), (words_from_gap rest Hg), append_nil_r.
  by destruct u.
Qed.

Lemma words_space (a : ascii) (r : string) :
  isspace a = true -> words (String a r) = words r.
Proof.
  intros Ha. unfold words. cbn [words_from]. rewrite Ha.
  by destruct (words_from r) as [w ws].
Qed.

Lemma words_sub (n : nat) :
  forall (s : string) (before : option ascii),
    String.length s <= n ->
    words (sub_from false email_like_re 0 before s)
    = filter (fun w => is_email_like w = false) (words s).
Proof.
  induction n as [|n IH]; intros s before Hlen.
  - destruct s; [done | cbn in Hlen; lia].
  - destruct s as [|a r]; [done|]. destruct (isspace a) eqn:Ha.
    + rewrite sub_at_space, !words_space by done. apply IH. cbn in Hlen. lia.
    + assert (is_nonspace a = true) as Hns by (unfold is_nonspace; by rewrite Ha).
      assert (head_word (String a r) <> EmptyString) as Hne by (cbn; by rewrite Hns).
      assert (String.length (after_word (String a r)) <= n) as Hlt.
      { pose proof (length_head_after (String a r)) as Hl.
        cbn [head_word String.length] in Hl. rewrite Hns in Hl.
        cbn [String.length] in Hl, Hlen. cbn [after_word]. rewrite Hns.
        cbn [after_word] in Hl. rewrite Hns in Hl. lia. }
      rewrite (head_after_word (String a r)) at 2.
      rewrite (words_word _ _ (head_word_nonspace _) Hne (at_gap_after_word _)).
      destruct (is_email_like (head_word (String a r))) eqn:Hw.
      * destruct (sub_at_word_delete _ before Hw) as [b ->].
        rewrite filter_cons_False by (by rewrite Hw). by apply IH.
      * destruct (sub_at_word_keep _ before Hw) as [b ->].
        rewrite filter_cons_True by done.
        rewrite words_word;
          [|apply head_word_nonspace | done | apply sub_gap, at_gap_after_word].
        f_equal. by apply IH.
Qed.

End EmailLikeRemoval.

(** X27. The full name is the words of the first PERSON entity's text,
    without the words that hold an @ with a character before it and one
    after it, joined by single blanks: such a word is removed as a whole,
    and every other word is kept as it is. *)
Theorem full_name_words (doc : Doc) (pre post : list Span) (person : Span) :
  ents doc = pre ++ person :: post ->
  Forall (fun ent => label_ ent <> "PERSON") pre ->
  label_ person = "PERSON" ->
  extract_full_name doc
  = join " " (filter (fun w => is_email_like w = false) (words (text person))).
Proof.
  intros Hents Hpre Hp. unfold extract_full_name.
  rewrite Hents, find_person_first by done.
  unfold re_sub_delete. by rewrite (words_sub (String.length (text person))).
Qed.

Lemma full_name_words_witness :
  extract_full_name
    (mkDoc [] [mkSpan "2020" "DATE" 0 1;
               mkSpan "Jane Doe <jane@doe.org> @home a@" "PERSON" 1 5] [] [])
  = join " " (filter (fun w => is_email_like w = false)
                     (words "Jane Doe <jane@doe.org> @home a@")).
Proof.
  apply (full_name_words _ [mkSpan "2020" "DATE" 0 1] []
                         (mkSpan "Jane Doe <jane@doe.org> @home a@" "PERSON" 1 5)).
  - reflexivity.
  - repeat constructor; discriminate.
  - reflexivity.
Defined.

(** ** Education: where the values come from *)

Section EducationProvenance.

Variable lines : list string.

Lemma fields_from_empty : fields_from lines ∅.
Proof. intros k v. by rewrite lookup_empty. Qed.

Lemma fields_from_insert (k : string) (v : pyval) (d : gmap string pyval) :
  field_from lines k v -> fields_from lines d -> fields_from lines (<[k := v]> d).
Proof.
  intros Hkv Hd k' v'. destruct (decide (k = k')) as [<-|Hne].
  - rewrite lookup_insert_eq. by intros [= <-].
  - rewrite lookup_insert_ne by done. apply Hd.
Qed.

Lemma flush_from (education : list (gmap string pyval)) (d : gmap string pyval) :
  fields_from lines d -> Forall (fields_from lines) education ->
  Forall (fields_from lines) (flush education d).1.
Proof.
  intros Hd He. unfold flush. destruct (dict_truthy d); cbn [fst]; [|done].
  apply Forall_app. split; [done|]. by constructor.
Qed.

Lemma add_additional_info_from (line : string) (d d' : gmap string pyval) :
  line ∈ lines -> fields_from lines d ->
  add_additional_info line d = Ok d' -> fields_from lines d'.
Proof.
  intros Hl Hd. unfold add_additional_info.
  destruct (d !! "additional_info") as [[s|l]|] eqn:Hk; [done| |].
  - intros [= <-]. apply fields_from_insert; [|done].
    repeat right. split; [done|]. eexists. split; [done|].
    apply Forall_app. split; [|by constructor].
    destruct (Hd _ _ Hk) as [[? _]|[[[?|?] _]|[[? _]|[_ (l' & [= <-] & Hl')]]]]; done.
  - intros [= <-]. apply fields_from_insert; [|done].
    repeat right. split; [done|]. eexists. split; [done|]. by constructor.
Qed.

Lemma edu_step_from (i : nat) (line : string) (st st' : edu_state) :
  line ∈ lines ->
  fields_from lines (current_edu st) -> Forall (fields_from lines) (education st) ->
  edu_step lines i line st = Ok st' ->
  fields_from lines (current_edu st') /\ Forall (fields_from lines) (education st').
Proof.
  intros Hl Hd He. unfold edu_step.
  destruct (existsb _ education_section_keywords); [by intros [= <-]|].
  destruct (in_section st && existsb _ education_end_keywords).
  { pose proof (flush_from _ _ Hd He) as He'.
    pose proof (flush_snd_empty (education st) (current_edu st)) as Hc.
    destruct (flush (education st) (current_edu st)) as [e c]. cbn [fst snd] in *.
    intros [= <-]. subst c. split; [apply fields_from_empty | done]. }
  destruct (in_section st); [|by intros [= <-]].
  destruct (degree_match _).
  { pose proof (flush_from _ _ Hd He) as He'.
    pose proof (flush_snd_empty (education st) (current_edu st)) as Hc.
    destruct (flush (education st) (current_edu st)) as [e c]. cbn [fst snd] in *.
    intros [= <-]. subst c. cbn [current_edu education]. split; [|done].
    apply fields_from_insert; [|apply fields_from_empty].
    left. split; [done|]. exists line. split; [done|].
    destruct (lines !! (i + 1)) as [next|] eqn:Hn; [|by left].
    right. exists next. split; [|done]. by eapply list_elem_of_lookup_2. }
  destruct (negb (has_key "institution" _) && _).
  { intros [= <-]. cbn [current_edu education]. split; [|done].
    apply fields_from_insert; [|done]. right; left. split; [by left | by exists line]. }
  destruct (negb (has_key "location" _) && _).
  { intros [= <-]. cbn [current_edu education]. split; [|done].
    apply fields_from_insert; [|done]. right; left. split; [by right | by exists line]. }
  assert (forall st0,
            bind (add_additional_info line (current_edu st))
                 (fun current_edu => Ok (mkEdu true (education st) current_edu)) = Ok st0 ->
            fields_from lines (current_edu st0)
            /\ Forall (fields_from lines) (education st0)) as Hadd.
  { intros st0. destruct (add_additional_info line (current_edu st)) as [d'|] eqn:Hd';
      [|done].
    intros [= <-]. split; [|done]. by eapply add_additional_info_from. }
  destruct (date_search line) as [m|] eqn:Hm; [|apply Hadd].
  destruct (negb (has_key "dates" _)); [|apply Hadd].
  intros [= <-]. cbn [current_edu education]. split; [|done].
  apply fields_from_insert; [|done]. right; right; left. split; [done|]. by exists line, m.
Qed.

Lemma edu_loop_from (todo : list string) :
  forall (i : nat) (st st' : edu_state),
    Forall (fun x => x ∈ lines) todo ->
    fields_from lines (current_edu st) -> Forall (fields_from lines) (education st) ->
    edu_loop lines i todo st = Ok st' ->
    fields_from lines (current_edu st') /\ Forall (fields_from lines) (education st').
Proof.
  induction todo as [|line todo IH]; intros i st st' Hall Hd He; cbn [edu_loop].
  - by intros [= <-].
  - apply Forall_cons in Hall as [Hl Hall].
    destruct (edu_step lines i line st) as [st1|] eqn:Hs; [|done]. cbn [bind].
    destruct (edu_step_from _ _ _ _ Hl Hd He Hs) as [Hd1 He1]. by apply IH.
Qed.

Lemma extract_education_lines_from (entries : list (gmap string pyval)) :
  extract_education_lines lines = Ok entries -> Forall (fields_from lines) entries.
Proof.
  unfold extract_education_lines.
  destruct (edu_loop lines 0 lines (mkEdu false [] ∅)) as [st|] eqn:Hl; [|done].
  cbn [bind]. intros [= <-].
  destruct (edu_loop_from lines 0 (mkEdu false [] ∅) st) as [Hd He];
    [rewrite Forall_forall; auto | apply fields_from_empty | constructor | done |].
  by apply flush_from.
Qed.

End EducationProvenance.

(** X28. The education extractor invents no text: in every entry the
    institution and the location are lines of the input, the degree is a
    line or two lines joined by a blank, the dates are the match of the date
    pattern in a line, and the additional information consists of lines of
    the input. The lines are the stripped non-blank lines of a string, or
    the texts of the non-whitespace tokens of a document. *)
Theorem extract_education_provenance (input_data : edu_input)
    (lines : list string) (entries : list (gmap string pyval)) :
  education_lines input_data = Ok lines ->
  extract_education input_data = Ok entries ->
  Forall (fun e => forall k v, e !! k = Some v -> field_from lines k v) entries.
Proof.
  intros Hl. unfold extract_education. rewrite Hl. cbn [bind].
  apply extract_education_lines_from.
Qed.

Lemma extract_education_provenance_witness :
  education_lines (InStr (unlines ["Education"; " BSc "; "MIT"; EmptyString; "2015 - 2019"]))
    = Ok ["Education"; "BSc"; "MIT"; "2015 - 2019"]
  /\ extract_education (InStr (unlines ["Education"; " BSc "; "MIT"; EmptyString; "2015 - 2019"]))
     = Ok [ {[ "degree" := VStr "BSc MIT"; "institution" := VStr "MIT";
               "location" := VStr "2015 - 2019" ]} ]
  /\ Forall (fun e : gmap string pyval =>
               forall k v, e !! k = Some v
                           -> field_from ["Education"; "BSc"; "MIT"; "2015 - 2019"] k v)
            [ {[ "degree" := VStr "BSc MIT"; "institution" := VStr "MIT";
                 "location" := VStr "2015 - 2019" ]} ].
Proof.
  assert (education_lines
            (InStr (unlines ["Education"; " BSc "; "MIT"; EmptyString; "2015 - 2019"]))
          = Ok ["Education"; "BSc"; "MIT"; "2015 - 2019"]) as Hl
    by (vm_compute; reflexivity).
  assert (extract_education
            (InStr (unlines ["Education"; " BSc "; "MIT"; EmptyString; "2015 - 2019"]))
          = Ok [ {[ "degree" := VStr "BSc MIT"; "institution" := VStr "MIT";
                    "location" := VStr "2015 - 2019" ]} ]) as He
    by (vm_compute; reflexivity).
  split; [exact Hl|]. split; [exact He|].
  exact (extract_education_provenance _ _ _ Hl He).
Defined.

Section DatePattern.

Lemma take_digits_spec (n : nat) :
  forall s d r,
    take_digits n s = Some (d, r) ->
    s = d +:+ r /\ String.length d = n /\ all_chars isdigit d = true.
Proof.
  induction n as [|n IH]; intros s d r; cbn [take_digits].
  - by intros [= <- <-].
  - destruct s as [|c s]; [done|]. destruct (isdigit c) eqn:Hc; [|done].
    destruct (take_digits n s) as [[d' r']|] eqn:Ht; [|done].
    intros [= <- <-]. destruct (IH _ _ _ Ht) as (-> & Hl & Hd).
    split_and!; [done | by cbn; rewrite Hl | by cbn; rewrite Hc].
Qed.

Lemma take_spaces_spec (s : string) :
  s = (take_spaces s).1 +:+ (take_spaces s).2
  /\ all_chars isspace (take_spaces s).1 = true.
Proof.
  induction s as [|c s [IH1 IH2]]; [done|]. cbn [take_spaces].
  destruct (isspace c) eqn:Hc; [|done].
  destruct (take_spaces s) as [w r]. cbn [fst snd] in *.
  split; [by rewrite append_cons, <- IH1 | by cbn; rewrite Hc].
Qed.

Lemma take_literal_ci_spec (lit : string) :
  forall s m r,
    take_literal_ci lit s = Some (m, r) -> s = m +:+ r /\ lower m = lit.
Proof.
  induction lit as [|a lit IH]; intros s m r; cbn [take_literal_ci].
  - destruct s; by intros [= <- <-].
  - destruct s as [|b s]; [done|]. destruct (Ascii.eqb a (lower_char b)) eqn:Hb; [|done].
    destruct (take_literal_ci lit s) as [[m' r']|] eqn:Ht; [|done].
    intros [= <- <-]. destruct (IH _ _ _ Ht) as (-> & Hm).
    apply Ascii.eqb_eq in Hb. split; [done|]. cbn. by rewrite <- Hb, Hm.
Qed.

Lemma date_match_here_spec (s m : string) :
  date_match_here s = Some m -> (exists post, s = m +:+ post) /\ date_shape m.
Proof.
  unfold date_match_here.
  destruct (take_digits 4 s) as [[d1 r]|] eqn:Hd1; [|done].
  apply take_digits_spec in Hd1 as (-> & Hl1 & Hy1).
  destruct (take_spaces_spec r) as [Hr Hw1].
  destruct (take_spaces r) as [w1 r1]. cbn [fst snd] in *. subst r.
  destruct r1 as [|c r2]; [done|]. destruct (Ascii.eqb c "-") eqn:Hc; [|done].
  apply Ascii.eqb_eq in Hc. subst c.
  destruct (take_spaces_spec r2) as [Hr2 Hw2].
  destruct (take_spaces r2) as [w2 r3]. cbn [fst snd] in *. subst r2.
  assert (forall y2 rest,
            r3 = y2 +:+ rest ->
            (String.length y2 = 4 /\ all_chars isdigit y2 = true)
            \/ lower y2 = "present" \/ lower y2 = "current" ->
            (exists post,
               d1 +:+ w1 +:+ String "-" (w2 +:+ r3)
               = ((d1 +:+ w1 +:+ "-" +:+ w2) +:+ y2) +:+ post)
            /\ date_shape ((d1 +:+ w1 +:+ "-" +:+ w2) +:+ y2)) as Hfin.
  { intros y2 rest -> Hy2. split.
    - exists rest. rewrite !append_assoc. by rewrite append_cons, append_nil_l.
    - exists d1, w1, w2, y2. split_and!; try done. by rewrite !append_assoc. }
  destruct (take_digits 4 r3) as [[d2 r4]|] eqn:Hd2.
  { intros [= <-]. apply take_digits_spec in Hd2 as (Hr3 & Hl2 & Hy2).
    apply (Hfin d2 r4 Hr3). by left. }
  destruct (take_literal_ci "present" r3) as [[m1 r4]|] eqn:Hp.
  { intros [= <-]. apply take_literal_ci_spec in Hp as (Hr3 & Hm1).
    apply (Hfin m1 r4 Hr3). right; by left. }
  destruct (take_literal_ci "current" r3) as [[m1 r4]|] eqn:Hcur; [|done].
  intros [= <-]. apply take_literal_ci_spec in Hcur as (Hr3 & Hm1).
  apply (Hfin m1 r4 Hr3). right; by right.
Qed.

Lemma date_search_spec (line m : string) :
  date_search line = Some m ->
  (exists pre post, line = pre +:+ m +:+ post) /\ date_shape m.
Proof.
  induction line as [|c line IH]; cbn [date_search].
  - destruct (date_match_here EmptyString) as [m'|] eqn:Hm; [|done].
    intros [= <-]. apply date_match_here_spec in Hm as [[post Hp] Hs].
    split; [by exists EmptyString, post | done].
  - destruct (date_match_here (String c line)) as [m'|] eqn:Hm.
    + intros [= <-]. apply date_match_here_spec in Hm as [[post Hp] Hs].
      split; [by exists EmptyString, post | done].
    + intros H. destruct (IH H) as [(pre & post & ->) Hs].
      split; [by exists (String c pre), post | done].
Qed.

End DatePattern.

(** X29. Every dates value of an education entry is copied from a line of
    the input and has the form of a year range: four digits, optional
    whitespace, a hyphen, optional whitespace, and four digits or the word
    present or current in any letter case. *)
Theorem extract_education_dates (input_data : edu_input)
    (lines : list string) (entries : list (gmap string pyval)) :
  education_lines input_data = Ok lines ->
  extract_education input_data = Ok entries ->
  Forall (fun e =>
            forall v, e !! "dates" = Some v ->
            exists line pre m post,
              v = VStr m /\ line ∈ lines /\ line = pre +:+ m +:+ post /\ date_shape m)
         entries.
Proof.
  intros Hl. unfold extract_education. rewrite Hl. cbn [bind]. intros He.
  eapply Forall_impl; [by apply extract_education_lines_from|].
  intros e Hf v Hv.
  destruct (Hf _ _ Hv) as [[? _]|[[[?|?] _]|[[_ (line & m & Hin & Hm & ->)]|[? _]]]];
    try done.
  apply date_search_spec in Hm as [(pre & post & Hline) Hs].
  by exists line, pre, m, post.
Qed.

Lemma extract_education_dates_witness :
  education_lines (InStr (unlines ["Education"; "Sept 2015 -  Present, full time"]))
    = Ok ["Education"; "Sept 2015 -  Present, full time"]
  /\ extract_education (InStr (unlines ["Education"; "Sept 2015 -  Present, full time"]))
     = Ok [ {[ "dates" := VStr "2015 -  Present" ]} ]
  /\ Forall (fun e : gmap string pyval =>
               forall v, e !! "dates" = Some v ->
               exists line pre m post,
                 v = VStr m /\ line ∈ ["Education"; "Sept 2015 -  Present, full time"]
                 /\ line = pre +:+ m +:+ post /\ date_shape m)
            [ {[ "dates" := VStr "2015 -  Present" ]} ].
Proof.
  assert (education_lines (InStr (unlines ["Education"; "Sept 2015 -  Present, full time"]))
          = Ok ["Education"; "Sept 2015 -  Present, full time"]) as Hl
    by (vm_compute; reflexivity).
  assert (extract_education (InStr (unlines ["Education"; "Sept 2015 -  Present, full time"]))
          = Ok [ {[ "dates" := VStr "2015 -  Present" ]} ]) as He
    by (vm_compute; reflexivity).
  split; [exact Hl|]. split; [exact He|].
  exact (extract_education_dates _ _ _ Hl He).
Defined.
